(** * ChatAgent: session cache, socket manager, agent session and hub

    A shallow embedding of the conversation machinery of ChatAgent:

    - the React hook [useChat] (frontend/src/hooks/useChat.ts): the
      [WebSocketManager] singleton, the per-chat [sessionCacheMap], the
      message handler and [sendMessage];
    - [ChatInput.handleSend] (frontend/src/components/chat/ChatInput.tsx);
    - the backend [AgentSession] ([send_message] and the draining loop of
      [_run_query]) as quoted in the backend README.

    JavaScript strings are sequences of UTF-16 code units, Python integers
    are [Z], the [Map] holding the session cache is a [gmap]. *)

From Stdlib Require Import ZArith NArith Lia Ascii String DecimalString DecimalPos.
From stdpp Require Import base option list gmap strings.

Set Warnings "-register-all".

Local Open Scope N_scope.

(** ** JavaScript strings *)

Module JS.

(** A string is its list of UTF-16 code units; [+] on strings is [++]. *)
Definition code_unit := N.
Definition jsstring := list N.

(** Reading an ASCII literal as a JavaScript string. *)
Definition lit (s : string) : jsstring :=
  N_of_ascii <$> list_ascii_of_string s.

(** A string is falsy exactly when it is empty. *)
Definition truthy (s : jsstring) : bool :=
  match s with [] => false | _ :: _ => true end.

(** [WhiteSpace] and [LineTerminator] of ECMAScript, the code units
    that [String.prototype.trim] strips. *)
Definition isWhiteSpace (c : N) : bool :=
  (c =? 0x09) || (c =? 0x0A) || (c =? 0x0B) || (c =? 0x0C) || (c =? 0x0D)
  || (c =? 0x20) || (c =? 0xA0) || (c =? 0x1680)
  || ((0x2000 <=? c) && (c <=? 0x200A))
  || (c =? 0x2028) || (c =? 0x2029) || (c =? 0x202F) || (c =? 0x205F)
  || (c =? 0x3000) || (c =? 0xFEFF).

Fixpoint trimStart (s : jsstring) : jsstring :=
  match s with
  | [] => []
  | c :: s' => if isWhiteSpace c then trimStart s' else s
  end.

Definition trimEnd (s : jsstring) : jsstring :=
  reverse (trimStart (reverse s)).

Definition trim (s : jsstring) : jsstring := trimEnd (trimStart s).

(** [a || b] on strings. *)
Definition or_else (a : option jsstring) (b : jsstring) : jsstring :=
  match a with
  | Some s => if truthy s then s else b
  | None => b
  end.

(** A value as [JSON.stringify] receives it. *)
Inductive json :=
| JNull
| JBool (b : bool)
| JStr (s : jsstring)
| JArr (l : list json)
| JObj (fields : list (jsstring * json)).

End JS.

Import JS.

(** ** The session cache of useChat.ts *)

Inductive Role := user | assistant.

Record MessageImage := {
  img_id : jsstring;
  base64 : jsstring;
  mimeType : jsstring;
}.

Record Message := {
  id : jsstring;
  role : Role;
  content : jsstring;
  timestamp : N;
  images : option (list MessageImage);
  isStreaming : option bool;
}.

Record SessionCache := {
  messages : list Message;
  c_isStreaming : bool;
  streamingMessageId : option jsstring;
  isLoading : bool;
}.

(** [Partial<SessionCache>]: every field may be absent. *)
Record PartialSessionCache := {
  p_messages : option (list Message);
  p_isStreaming : option bool;
  p_streamingMessageId : option (option jsstring);
  p_isLoading : option bool;
}.

(** [{ ...base, ...updates }] *)
Definition spread (base : SessionCache) (updates : PartialSessionCache)
  : SessionCache :=
  {| messages := default (messages base) (p_messages updates);
     c_isStreaming := default (c_isStreaming base) (p_isStreaming updates);
     streamingMessageId :=
       default (streamingMessageId base) (p_streamingMessageId updates);
     isLoading := default (isLoading base) (p_isLoading updates) |}.

Definition default_cache : SessionCache :=
  {| messages := []; c_isStreaming := false;
     streamingMessageId := None; isLoading := false |}.

(** The module-level state of useChat.ts: the cache map and the number
    of times the cache listeners have been notified. *)
Record CacheStore := {
  sessionCacheMap : gmap jsstring SessionCache;
  notified : nat;
}.

Definition notifyCacheUpdate (st : CacheStore) : CacheStore :=
  {| sessionCacheMap := sessionCacheMap st; notified := S (notified st) |}.

Definition set_cache (chatId : jsstring) (c : SessionCache) (st : CacheStore)
  : CacheStore :=
  {| sessionCacheMap := <[chatId := c]> (sessionCacheMap st);
     notified := notified st |}.

Definition updateSessionCache (chatId : jsstring)
    (updates : PartialSessionCache) (st : CacheStore) : CacheStore :=
  let existing := sessionCacheMap st !! chatId in
  notifyCacheUpdate
    match existing with
    | Some existing => set_cache chatId (spread existing updates) st
    | None => set_cache chatId (spread default_cache updates) st
    end.

(** ** The WebSocket singleton of useChat.ts *)

Inductive ReadyState := CONNECTING | OPEN | CLOSING | CLOSED.

Global Instance ReadyState_eq_dec : EqDecision ReadyState.
Proof. solve_decision. Defined.

(** The browser socket: its state and the text frames handed to it. *)
Record WebSocket := {
  readyState : ReadyState;
  transmitted : list jsstring;
}.

Module WebSocketManager.

(** [private ws: WebSocket | null]; listeners and the reconnect timer play
    no part in [send]. *)
Record t := { ws : option WebSocket }.

(** [this.ws?.readyState === WebSocket.OPEN] *)
Definition isConnected (m : t) : bool :=
  match ws m with
  | Some sock => bool_decide (readyState sock = OPEN)
  | None => false
  end.

Section Send.

Variable JSON_stringify : json -> jsstring.

Definition send (data : json) (m : t) : t * bool :=
  match ws m with
  | Some sock =>
      if bool_decide (readyState sock = OPEN) then
        ({| ws := Some {| readyState := readyState sock;
                          transmitted :=
                            transmitted sock ++ [JSON_stringify data] |} |},
         true)
      else (m, false)
  | None => (m, false)
  end.

Definition stop (chatId : jsstring) (m : t) : t * bool :=
  send (JObj [(lit "type", JStr (lit "stop")); (lit "chat_id", JStr chatId)]) m.

End Send.

(** Everything the manager has put on the wire so far. *)
Definition wire (m : t) : list jsstring :=
  match ws m with Some sock => transmitted sock | None => [] end.

End WebSocketManager.

(** ** The hook state and sendMessage *)

Record PendingMessage := {
  pm_content : jsstring;
  pm_images : option (list MessageImage);
}.

(** The callbacks of [UseChatOptions] that the modelled code calls; a call
    through [?.] happens only when the callback was supplied. *)
Record UseChatOptions := {
  onError : bool;
}.

Inductive CallbackCall :=
| CallOnError (error : jsstring).

Record World := {
  store : CacheStore;
  wsManager : WebSocketManager.t;
  (* useState *)
  st_messages : list Message;
  (* useRef *)
  currentChatIdRef : option jsstring;
  streamingMessageIdRef : option jsstring;
  pendingMessageRef : option PendingMessage;
  optionsRef : UseChatOptions;
  (* calls made into the options callbacks, oldest first *)
  calls : list CallbackCall;
}.

Definition with_store (f : CacheStore -> CacheStore) (w : World) : World :=
  {| store := f (store w); wsManager := wsManager w;
     st_messages := st_messages w; currentChatIdRef := currentChatIdRef w;
     streamingMessageIdRef := streamingMessageIdRef w;
     pendingMessageRef := pendingMessageRef w; optionsRef := optionsRef w;
     calls := calls w |}.

Definition setMessages (f : list Message -> list Message) (w : World) : World :=
  {| store := store w; wsManager := wsManager w;
     st_messages := f (st_messages w); currentChatIdRef := currentChatIdRef w;
     streamingMessageIdRef := streamingMessageIdRef w;
     pendingMessageRef := pendingMessageRef w; optionsRef := optionsRef w;
     calls := calls w |}.

Definition set_streamingMessageIdRef (v : option jsstring) (w : World) : World :=
  {| store := store w; wsManager := wsManager w;
     st_messages := st_messages w; currentChatIdRef := currentChatIdRef w;
     streamingMessageIdRef := v;
     pendingMessageRef := pendingMessageRef w; optionsRef := optionsRef w;
     calls := calls w |}.

Definition set_pendingMessageRef (v : option PendingMessage) (w : World) : World :=
  {| store := store w; wsManager := wsManager w;
     st_messages := st_messages w; currentChatIdRef := currentChatIdRef w;
     streamingMessageIdRef := streamingMessageIdRef w;
     pendingMessageRef := v; optionsRef := optionsRef w;
     calls := calls w |}.

Definition set_wsManager (m : WebSocketManager.t) (w : World) : World :=
  {| store := store w; wsManager := m;
     st_messages := st_messages w; currentChatIdRef := currentChatIdRef w;
     streamingMessageIdRef := streamingMessageIdRef w;
     pendingMessageRef := pendingMessageRef w; optionsRef := optionsRef w;
     calls := calls w |}.

(** [optionsRef.current.onError?.(error)] *)
Definition call_onError (error : jsstring) (w : World) : World :=
  if onError (optionsRef w) then
    {| store := store w; wsManager := wsManager w;
       st_messages := st_messages w; currentChatIdRef := currentChatIdRef w;
       streamingMessageIdRef := streamingMessageIdRef w;
       pendingMessageRef := pendingMessageRef w; optionsRef := optionsRef w;
       calls := calls w ++ [CallOnError error] |}
  else w.

(** [Date.now().toString()] for the clock reading [now]. *)
Definition Date_now_toString (now : N) : jsstring :=
  lit (NilEmpty.string_of_uint (N.to_uint now)).

(** [images && images.length > 0] *)
Definition has_images (images : option (list MessageImage)) : bool :=
  match images with
  | Some l => negb (Nat.eqb (length l) 0)
  | None => false
  end.

(** [!images || images.length === 0] *)
Definition no_images (images : option (list MessageImage)) : bool :=
  match images with
  | Some l => Nat.eqb (length l) 0
  | None => true
  end.

(** ['WebSocket 未连接'] *)
Definition not_connected_error : jsstring :=
  lit "WebSocket " ++ [0x672A; 0x8FDE; 0x63A5].

Definition image_payload (img : MessageImage) : json :=
  JObj [(lit "base64", JStr (base64 img));
        (lit "media_type", JStr (mimeType img))].

Definition messageData (activeChatId content : jsstring)
    (images : option (list MessageImage)) : json :=
  JObj ([(lit "type", JStr (lit "chat"));
         (lit "chat_id", JStr activeChatId);
         (lit "content", JStr (trim content))]
        ++ match images with
           | Some l =>
               if has_images images
               then [(lit "images", JArr (image_payload <$> l))] else []
           | None => []
           end).

Section SendMessage.

Variable JSON_stringify : json -> jsstring.

(** [sendMessage(content, images, skipLocalMessage)]; [isStreaming] is the
    value the callback closed over, [now] and [now_ts] are the readings of
    [Date.now()] and [new Date()]. *)
Definition sendMessage (isStreaming : bool) (now now_ts : N)
    (content : jsstring) (images : option (list MessageImage))
    (skipLocalMessage : bool) (w : World) : World :=
  match currentChatIdRef w with
  | Some activeChatId =>
      if (negb (truthy (trim content)) && no_images images)
         || negb (truthy activeChatId)
      then w
      else
        let w := if isStreaming then set_streamingMessageIdRef None w else w in
        let w :=
          if negb skipLocalMessage then
            let userMessage :=
              {| id := Date_now_toString now; role := user;
                 content := trim content; timestamp := now_ts;
                 images := if has_images images then images else None;
                 isStreaming := None |} in
            setMessages (fun prev => prev ++ [userMessage]) w
          else w in
        let w :=
          with_store
            (updateSessionCache activeChatId
               {| p_messages := None; p_isStreaming := Some false;
                  p_streamingMessageId := None; p_isLoading := Some true |}) w in
        let '(m, sent) :=
          WebSocketManager.send JSON_stringify
            (messageData activeChatId content images) (wsManager w) in
        let w := set_wsManager m w in
        if sent then set_pendingMessageRef None w
        else
          let w :=
            with_store
              (updateSessionCache activeChatId
                 {| p_messages := None; p_isStreaming := None;
                    p_streamingMessageId := None; p_isLoading := Some false |}) w in
          let w := set_pendingMessageRef None w in
          call_onError not_connected_error w
  | None => w
  end.

End SendMessage.

(** ** ChatInput.handleSend *)

Module ChatInput.

Record t := {
  input : jsstring;
  ci_images : list MessageImage;
  disabled : bool;
}.

(** What [handleSend] hands to [onSend], if it calls it. *)
Definition onSend_args (c : t)
  : option (jsstring * option (list MessageImage)) :=
  if (truthy (trim (input c)) || negb (Nat.eqb (length (ci_images c)) 0))
     && negb (disabled c)
  then Some (input c,
             if negb (Nat.eqb (length (ci_images c)) 0)
             then Some (ci_images c) else None)
  else None.

(** The component state after [handleSend]. *)
Definition handleSend (c : t) : t :=
  match onSend_args c with
  | Some _ => {| input := []; ci_images := []; disabled := disabled c |}
  | None => c
  end.

End ChatInput.

(** ** The message handler of useChat.ts

    The cases of [handleMessage] that build the streaming assistant
    message.  A state updater passed to [setMessages] is applied at once,
    with [streamingMessageIdRef] as the handler has it: each frame is
    handled after React has run the updaters of the frames before it.  The
    updaters of the [text_delta] and [stream_end] cases read the ref only
    when React runs them; frames that move the ref ([stream_end] after
    deltas) and are handled before those updaters have run are outside
    this embedding. *)

Record StreamingState := {
  is_streaming : bool;
  current_content : option jsstring;
}.

Inductive ServerMessage :=
| processing_state (chat_id : jsstring) (is_processing : bool)
    (streaming_state : option StreamingState)
| stream_start (chat_id : jsstring)
| text_delta (chat_id : jsstring) (delta : jsstring)
| stream_end (chat_id : jsstring).

Definition set_content (v : jsstring) (m : Message) : Message :=
  {| id := id m; role := role m; content := v; timestamp := timestamp m;
     images := images m; isStreaming := isStreaming m |}.

Definition set_isStreaming (v : bool) (m : Message) : Message :=
  {| id := id m; role := role m; content := content m;
     timestamp := timestamp m; images := images m; isStreaming := Some v |}.

(** [prev.slice(0, -1)] *)
Definition slice_0_minus1 {A} (l : list A) : list A := take (length l - 1) l.

(** The updater of the [processing_state] case. *)
Definition place_streaming (streamingMessage : Message) (prev : list Message)
  : list Message :=
  match last prev with
  | Some lastMsg =>
      match role lastMsg with
      | user => prev ++ [streamingMessage]
      | assistant => slice_0_minus1 prev ++ [streamingMessage]
      end
  | None => prev ++ [streamingMessage]
  end.

(** The updaters of the [text_delta] and [stream_end] cases: rewrite the
    last message when its id is the one in [streamingMessageIdRef]. *)
Definition update_last (ref : option jsstring) (f : Message -> Message)
    (prev : list Message) : list Message :=
  match length prev with
  | O => prev
  | S lastIndex =>
      match prev !! lastIndex with
      | Some m =>
          if bool_decide (Some (id m) = ref) then <[lastIndex := f m]> prev
          else prev
      | None => prev
      end
  end.

(** [string | null] in a condition. *)
Definition truthy_ref (r : option jsstring) : bool :=
  match r with Some s => truthy s | None => false end.

Definition raw_set_cache (chatId : jsstring) (c : SessionCache) (w : World)
  : World :=
  with_store (set_cache chatId c) w.

Definition handleMessage (now now_ts : N) (msg : ServerMessage) (w : World)
  : World :=
  match msg with
  | processing_state processingChatId is_processing streamingState =>
      if bool_decide (Some processingChatId = currentChatIdRef w)
         && is_processing
      then
        let w :=
          with_store
            (updateSessionCache processingChatId
               {| p_messages := None; p_isStreaming := None;
                  p_streamingMessageId := None; p_isLoading := Some true |}) w in
        match streamingState with
        | Some ss =>
            if is_streaming ss then
              let newMessageId := Date_now_toString now in
              let streamingMessage :=
                {| id := newMessageId; role := assistant;
                   content := or_else (current_content ss) [];
                   timestamp := now_ts; images := None;
                   isStreaming := Some true |} in
              let w := set_streamingMessageIdRef (Some newMessageId) w in
              let w :=
                with_store
                  (updateSessionCache processingChatId
                     {| p_messages := None; p_isStreaming := Some true;
                        p_streamingMessageId := Some (Some newMessageId);
                        p_isLoading := None |}) w in
              setMessages (place_streaming streamingMessage) w
            else w
        | None => w
        end
      else w
  | stream_start streamChatId =>
      let newMessageId := Date_now_toString now in
      let streamingMessage :=
        {| id := newMessageId; role := assistant; content := [];
           timestamp := now_ts; images := None; isStreaming := Some true |} in
      let w :=
        if bool_decide (Some streamChatId = currentChatIdRef w) then
          setMessages (fun prev => prev ++ [streamingMessage])
            (set_streamingMessageIdRef (Some newMessageId) w)
        else w in
      let w :=
        match sessionCacheMap (store w) !! streamChatId with
        | Some cached =>
            raw_set_cache streamChatId
              {| messages := messages cached ++ [streamingMessage];
                 c_isStreaming := true;
                 streamingMessageId := Some newMessageId;
                 isLoading := true |} w
        | None =>
            raw_set_cache streamChatId
              {| messages := [streamingMessage]; c_isStreaming := true;
                 streamingMessageId := Some newMessageId;
                 isLoading := true |} w
        end in
      with_store notifyCacheUpdate w
  | text_delta deltaChatId delta =>
      let w :=
        if bool_decide (Some deltaChatId = currentChatIdRef w)
           && truthy_ref (streamingMessageIdRef w)
        then
          setMessages
            (update_last (streamingMessageIdRef w)
               (fun m => set_content (content m ++ delta) m)) w
        else w in
      match sessionCacheMap (store w) !! deltaChatId with
      | Some cached =>
          if truthy_ref (streamingMessageId cached) then
            let updatedMessages :=
              (fun m =>
                 if bool_decide (Some (id m) = streamingMessageId cached)
                 then set_content (content m ++ delta) m else m)
              <$> messages cached in
            raw_set_cache deltaChatId
              {| messages := updatedMessages;
                 c_isStreaming := c_isStreaming cached;
                 streamingMessageId := streamingMessageId cached;
                 isLoading := isLoading cached |} w
          else w
      | None => w
      end
  | stream_end endChatId =>
      let w :=
        if bool_decide (Some endChatId = currentChatIdRef w) then
          let endingMessageId := streamingMessageIdRef w in
          let w := set_streamingMessageIdRef None w in
          if truthy_ref endingMessageId then
            setMessages (update_last endingMessageId (set_isStreaming false)) w
          else w
        else w in
      match sessionCacheMap (store w) !! endChatId with
      | Some cached =>
          if truthy_ref (streamingMessageId cached) then
            let updatedMessages :=
              (fun m =>
                 if bool_decide (Some (id m) = streamingMessageId cached)
                 then set_isStreaming false m else m)
              <$> messages cached in
            with_store notifyCacheUpdate
              (raw_set_cache endChatId
                 {| messages := updatedMessages; c_isStreaming := false;
                    streamingMessageId := None; isLoading := false |} w)
          else w
      | None => w
      end
  end.

(** A frame together with the readings of [Date.now()] and [new Date()]
    taken while it is handled. *)
Record Arrival := {
  at_now : N;
  at_date : N;
  frame : ServerMessage;
}.

Definition handleMessages (arrivals : list Arrival) (w : World) : World :=
  foldl (fun w a => handleMessage (at_now a) (at_date a) (frame a) w) w arrivals.

(** The hook shows [text] as the streaming reply of chat [conv]: the
    last message is the assistant message that [streamingMessageIdRef]
    names, and [text] is its content. *)
Definition showing (conv : jsstring) (w : World) (text : jsstring) : Prop :=
  currentChatIdRef w = Some conv
  /\ exists before m,
       st_messages w = before ++ [m]
       /\ streamingMessageIdRef w = Some (id m)
       /\ truthy (id m) = true
       /\ role m = assistant
       /\ content m = text.

(** ** The backend agent session

    [send_message] and the draining loop of [_run_query], from the
    excerpts of app/core/agent_session.py in the backend README.  Query
    ids are Python integers.  A task handle is the query id the task was
    spawned for; the event loop keeps the set of tasks that are not done. *)

Module AgentSession.

Section Session.

(** The messages of the SDK's response stream. *)
Context {message : Type}.

Record t := {
  _query_id : Z;
  _active_query_id : option Z;
  _cancelled : bool;
  _current_task : option Z;
  _message_queue : list message;
}.

Definition set_query_id (v : Z) (s : t) : t :=
  {| _query_id := v; _active_query_id := _active_query_id s;
     _cancelled := _cancelled s; _current_task := _current_task s;
     _message_queue := _message_queue s |}.

Definition set_active_query_id (v : option Z) (s : t) : t :=
  {| _query_id := _query_id s; _active_query_id := v;
     _cancelled := _cancelled s; _current_task := _current_task s;
     _message_queue := _message_queue s |}.

Definition set_cancelled (v : bool) (s : t) : t :=
  {| _query_id := _query_id s; _active_query_id := _active_query_id s;
     _cancelled := v; _current_task := _current_task s;
     _message_queue := _message_queue s |}.

Definition set_current_task (v : option Z) (s : t) : t :=
  {| _query_id := _query_id s; _active_query_id := _active_query_id s;
     _cancelled := _cancelled s; _current_task := v;
     _message_queue := _message_queue s |}.

(** [await self._message_queue.put(message)] on the unbounded queue. *)
Definition put (m : message) (s : t) : t :=
  {| _query_id := _query_id s; _active_query_id := _active_query_id s;
     _cancelled := _cancelled s; _current_task := _current_task s;
     _message_queue := _message_queue s ++ [m] |}.

(** One turn of the loop of [_run_query], for the task spawned with
    [query_id]:
<<
    if self._cancelled: continue
    if query_id != self._active_query_id: continue
    await self._message_queue.put(message)
>> *)
Definition _run_query (query_id : Z) (m : message) (s : t) : t :=
  if _cancelled s then s
  else if bool_decide (Some query_id ≠ _active_query_id s) then s
  else put m s.

(** Whether that turn puts its message on the queue. *)
Definition forwards (query_id : Z) (s : t) : bool :=
  negb (_cancelled s) && bool_decide (_active_query_id s = Some query_id).

(** *** The session among its tasks *)

(** Modelled from the spec: the lifecycle states of a query (section 3);
    the excerpts keep no such field, the states are bookkeeping over the
    session's transitions. *)
Inductive QueryState :=
| Pending | Streaming | Completed | Cancelled | Superseded | Failed.

Record system := {
  session : t;
  (** tasks the event loop has not finished, by query id *)
  live : gset Z;
  (** calls of [self._client.interrupt()] *)
  interrupts : nat;
  (** milliseconds spent waiting for interrupted tasks *)
  waited : N;
  (** bounded waits of [cancel] that ran into their timeout *)
  timeouts_logged : nat;
  (** bookkeeping: the state of each query that was started *)
  lifecycle : gmap Z QueryState;
  (** bookkeeping: what was put on the queue, with the query it came from *)
  delivered : list (Z * message);
}.

Definition with_session (f : t -> t) (sys : system) : system :=
  {| session := f (session sys); live := live sys;
     interrupts := interrupts sys; waited := waited sys;
     timeouts_logged := timeouts_logged sys; lifecycle := lifecycle sys;
     delivered := delivered sys |}.

Definition with_live (f : gset Z -> gset Z) (sys : system) : system :=
  {| session := session sys; live := f (live sys);
     interrupts := interrupts sys; waited := waited sys;
     timeouts_logged := timeouts_logged sys; lifecycle := lifecycle sys;
     delivered := delivered sys |}.

Definition with_lifecycle (f : gmap Z QueryState -> gmap Z QueryState)
    (sys : system) : system :=
  {| session := session sys; live := live sys;
     interrupts := interrupts sys; waited := waited sys;
     timeouts_logged := timeouts_logged sys; lifecycle := f (lifecycle sys);
     delivered := delivered sys |}.

(** [self._current_task and not self._current_task.done()] *)
Definition running (sys : system) : bool :=
  match _current_task (session sys) with
  | Some h => bool_decide (h ∈ live sys)
  | None => false
  end.

(** The runtime hands message [m] to the task of [query_id]. *)
Definition deliver (sys : system) (ev : Z * message) : system :=
  let '(query_id, m) := ev in
  if bool_decide (query_id ∈ live sys) then
    {| session := _run_query query_id m (session sys); live := live sys;
       interrupts := interrupts sys; waited := waited sys;
       timeouts_logged := timeouts_logged sys; lifecycle := lifecycle sys;
       delivered :=
         if forwards query_id (session sys)
         then delivered sys ++ [(query_id, m)] else delivered sys |}
  else sys.

(** Modelled from the spec: a query leaves [Streaming] once, for a
    terminal state that is never changed again (section 3). *)
Definition leave_streaming (q : Z) (st : QueryState)
    (lc : gmap Z QueryState) : gmap Z QueryState :=
  match lc !! q with
  | Some Streaming => <[q := st]> lc
  | _ => lc
  end.

(** Modelled from the spec: the end of a task, which the excerpt of
    [_run_query] stops short of.  The response stream of the task of
    [query_id] ends and the task returns; the query is [Completed] when
    its output was still being forwarded. *)
Definition finish (query_id : Z) (sys : system) : system :=
  if bool_decide (query_id ∈ live sys) then
    with_live (fun l => l ∖ {[query_id]})
      (if forwards query_id (session sys)
       then with_lifecycle (leave_streaming query_id Completed) sys
       else sys)
  else sys.

(** [timeout=5.0], in milliseconds. *)
Definition INTERRUPT_TIMEOUT : N := 5000.

Inductive wait_result := Exited | TimedOut.

(** What happens around the session while [send_message] or [cancel] is
    suspended in [interrupt()] and in the wait for the interrupted task:
    the messages the runtime still hands to tasks, the time after which
    the interrupted task returns by itself ([None]: it never does), and
    the time the task takes to unwind once it is cancelled. *)
Record suspension := {
  arrivals : list (Z * message);
  exit_after : option N;
  cancellation : N;
}.

(** The outcome of [asyncio.wait_for(task, timeout)] and the time it
    takes: the time the task needs when that is within the timeout;
    otherwise the timeout and then the time until the task, which
    [wait_for] cancels, is cancelled indeed. *)
Definition wait_for_outcome (env : suspension) (timeout : N)
  : wait_result * N :=
  match exit_after env with
  | Some d =>
      if (d <=? timeout)%N then (Exited, d)
      else (TimedOut, (timeout + cancellation env)%N)
  | None => (TimedOut, (timeout + cancellation env)%N)
  end.

(** [await asyncio.wait_for(task, timeout)] on the task [h].  While the
    caller is suspended the tasks handle what the runtime hands them.
    When [h] returns within the timeout, so does [wait_for]; otherwise
    [wait_for] cancels [h], waits until it is cancelled and raises
    [TimeoutError] (the outcome [TimedOut]).  Either way [h] is done
    afterwards. *)
Definition wait_for (h : Z) (env : suspension) (timeout : N) (sys : system)
  : system * wait_result :=
  let sys := foldl deliver sys (arrivals env) in
  let '(outcome, elapsed) := wait_for_outcome env timeout in
  ({| session := session sys; live := live sys ∖ {[h]};
      interrupts := interrupts sys; waited := (waited sys + elapsed)%N;
      timeouts_logged := timeouts_logged sys; lifecycle := lifecycle sys;
      delivered := delivered sys |}, outcome).

(** [await self._client.interrupt()] *)
Definition interrupt (sys : system) : system :=
  {| session := session sys; live := live sys;
     interrupts := S (interrupts sys); waited := waited sys;
     timeouts_logged := timeouts_logged sys; lifecycle := lifecycle sys;
     delivered := delivered sys |}.

Inductive exception := TimeoutError.

(** How a call of a coroutine ends: it returns ([send_message] has no
    return statement, its value is [None]), or an exception leaves it. *)
Inductive completion := Returns | Raises (e : exception).

(** The last three statements of [send_message]: the flag is reset, the
    new id becomes the active one and the task of the new query is
    spawned. *)
Definition start_query (current_query_id : Z) (sys : system) : system :=
  (* self._cancelled = False *)
  let sys := with_session (set_cancelled false) sys in
  (* self._active_query_id = current_query_id *)
  let sys := with_session (set_active_query_id (Some current_query_id)) sys in
  (* self._current_task = asyncio.create_task(self._run_query(...)) *)
  let sys := with_session (set_current_task (Some current_query_id)) sys in
  let sys := with_live (fun l => l ∪ {[current_query_id]}) sys in
  with_lifecycle (<[current_query_id := Streaming]>) sys.

(** [send_message]; the content and the images go to the spawned task
    and leave the session state alone.  The id of the query a call
    starts is [_query_id] of the session it leaves.  No handler stands
    around the [wait_for]: its [TimeoutError] leaves [send_message] (and
    releases the operation lock) before the statements that start the new
    query.  The previous query is [Superseded] from the moment the flag
    is set. *)
Definition send_message (env : suspension) (sys : system)
  : system * completion :=
  (* self._query_id += 1 ; current_query_id = self._query_id *)
  let current_query_id := (_query_id (session sys) + 1)%Z in
  let sys := with_session (set_query_id current_query_id) sys in
  match _current_task (session sys) with
  | Some h =>
      if bool_decide (h ∈ live sys) then
        (* self._cancelled = True *)
        let sys := with_session (set_cancelled true) sys in
        let sys := with_lifecycle (leave_streaming h Superseded) sys in
        (* await self._client.interrupt() *)
        let sys := interrupt sys in
        (* await asyncio.wait_for(self._current_task, timeout=5.0) *)
        match wait_for h env INTERRUPT_TIMEOUT sys with
        | (sys, Exited) => (start_query current_query_id sys, Returns)
        | (sys, TimedOut) => (sys, Raises TimeoutError)
        end
      else (start_query current_query_id sys, Returns)
  | None => (start_query current_query_id sys, Returns)
  end.

(** Modelled from the spec: the bounded wait of [cancel] (section 4.1),
    which swallows its timeout: a timeout is logged and the caller
    proceeds, the task being left to the filter.  A task that returned in
    time is done. *)
Definition bounded_wait (h : Z) (env : suspension) (timeout : N)
    (sys : system) : system :=
  let sys := foldl deliver sys (arrivals env) in
  let in_time :=
    match exit_after env with
    | Some d => if (d <=? timeout)%N then Some d else None
    | None => None
    end in
  {| session := session sys;
     live := match in_time with
             | Some _ => live sys ∖ {[h]}
             | None => live sys
             end;
     interrupts := interrupts sys;
     waited := (waited sys + default timeout in_time)%N;
     timeouts_logged := match in_time with
                        | Some _ => timeouts_logged sys
                        | None => S (timeouts_logged sys)
                        end;
     lifecycle := lifecycle sys;
     delivered := delivered sys |}.

(** Modelled from the spec: [cancel()], whose code is not among the
    excerpts (section 4.1: if no query is streaming return false;
    otherwise set the flag, interrupt, wait up to the same timeout and
    return true whether or not the wait timed out). *)
Definition cancel (env : suspension) (sys : system) : system * bool :=
  match _current_task (session sys) with
  | Some h =>
      if bool_decide (h ∈ live sys) then
        (with_lifecycle (leave_streaming h Cancelled)
           (bounded_wait h env INTERRUPT_TIMEOUT
              (interrupt (with_session (set_cancelled true) sys))), true)
      else (sys, false)
  | None => (sys, false)
  end.

(** *** Schedules *)

Inductive action :=
| Send (env : suspension)
| Cancel (env : suspension)
| Emit (query_id : Z) (m : message)
| Ends (query_id : Z).

Definition step (sys : system) (a : action) : system :=
  match a with
  | Send env => fst (send_message env sys)
  | Cancel env => fst (cancel env sys)
  | Emit q m => deliver sys (q, m)
  | Ends q => finish q sys
  end.

Definition run (acts : list action) (sys : system) : system :=
  foldl step sys acts.





(** A session as constructed, before any query. *)
Definition fresh (first_id : Z) : system :=
  {| session := {| _query_id := first_id; _active_query_id := None;
                   _cancelled := false; _current_task := None;
                   _message_queue := [] |};
     live := ∅; interrupts := 0; waited := 0%N; timeouts_logged := 0;
     lifecycle := ∅; delivered := [] |}.

(** *** Predicates on sessions *)

(** The fields that steer the session: everything but the queue. *)
Definition control (s : t) : Z * option Z * bool * option Z :=
  (_query_id s, _active_query_id s, _cancelled s, _current_task s).

(** The previous task as [send_message] and [cancel] see it. *)
Definition previous (sys : system) : option Z :=
  match _current_task (session sys) with
  | Some h => if bool_decide (h ∈ live sys) then Some h else None
  | None => None
  end.

(** The state in which the wait of [send_message] for the running task
    [h] ends, the messages that arrived meanwhile having been dropped. *)
Definition after_interrupt (env : suspension) (sys : system) (h : Z)
  : system :=
  {| session :=
       {| _query_id := (_query_id (session sys) + 1)%Z;
          _active_query_id := _active_query_id (session sys);
          _cancelled := true;
          _current_task := _current_task (session sys);
          _message_queue := _message_queue (session sys) |};
     live := live sys ∖ {[h]};
     interrupts := S (interrupts sys);
     waited := (waited sys + snd (wait_for_outcome env INTERRUPT_TIMEOUT))%N;
     timeouts_logged := timeouts_logged sys;
     lifecycle := leave_streaming h Superseded (lifecycle sys);
     delivered := delivered sys |}.


(** Query [q] has reached the terminal state [st]. *)
Definition settled (sys : system) (q : Z) (st : QueryState) : Prop :=
  lifecycle sys !! q = Some st
  /\ st <> Streaming
  /\ (q <= _query_id (session sys))%Z.


(** A [send_message] was left by [TimeoutError] and no query has been
    started since: the flag is still set and no task is running. *)
Definition abandoned (sys : system) : Prop :=
  _cancelled (session sys) = true /\ running sys = false.

End Session.

Arguments t : clear implicits.
Arguments system : clear implicits.
Arguments suspension : clear implicits.
Arguments action : clear implicits.

End AgentSession.

(** ** The connection hub *)

Module ConnectionHub.

(** The events of a session that bear on the streamed text, as the frames
    of the WebSocket protocol name them. *)
Inductive Event :=
| StreamStart
| TextDelta (delta : jsstring)
| StreamEnd.

(** What a connection is sent: the stored history, or a frame of the
    protocol. *)
Inductive Delivery :=
| History
| Wire (m : ServerMessage).

(** Modelled from the spec: the Connection Hub of section 4.3, whose code
    (app/core/session_manager.py) is not among the sources.  The hub of
    one conversation keeps what it has delivered to each attached
    connection since it attached, and the partial text of the query that
    is streaming, if one is. *)
Record t := {
  conversation : jsstring;
  outbox : gmap nat (list Delivery);
  partial_text : option jsstring;
}.

Definition encode (conv : jsstring) (ev : Event) : ServerMessage :=
  match ev with
  | StreamStart => stream_start conv
  | TextDelta d => text_delta conv d
  | StreamEnd => stream_end conv
  end.

(** The resume event for partial text [text]. *)
Definition resume (conv text : jsstring) : ServerMessage :=
  processing_state conv true
    (Some {| is_streaming := true; current_content := Some text |}).

(** Modelled from the spec: fan-out of one event to every attached
    connection, in the order of the session's event stream. *)
Definition broadcast (ev : Event) (h : t) : t :=
  {| conversation := conversation h;
     outbox := (fun o => o ++ [Wire (encode (conversation h) ev)]) <$> outbox h;
     partial_text :=
       match ev with
       | StreamStart => Some []
       | TextDelta d => (fun text => text ++ d) <$> partial_text h
       | StreamEnd => None
       end |}.

(** Modelled from the spec: [attach] sends the history and then, if a
    query is streaming, the resume event with the text accumulated so
    far. *)
Definition attach (c : nat) (h : t) : t :=
  {| conversation := conversation h;
     outbox :=
       <[c := History ::
              match partial_text h with
              | Some text => [Wire (resume (conversation h) text)]
              | None => []
              end]> (outbox h);
     partial_text := partial_text h |}.

(** Modelled from the spec: [detach] deregisters the connection. *)
Definition detach (c : nat) (h : t) : t :=
  {| conversation := conversation h;
     outbox := delete c (outbox h);
     partial_text := partial_text h |}.

Inductive op :=
| Attach (c : nat)
| Detach (c : nat)
| Broadcast (ev : Event).

Definition apply (h : t) (o : op) : t :=
  match o with
  | Attach c => attach c h
  | Detach c => detach c h
  | Broadcast ev => broadcast ev h
  end.

Definition run (ops : list op) (h : t) : t := foldl apply h ops.

(** The payloads of the text deltas among some deliveries, in order. *)
Fixpoint deltas (ds : list Delivery) : list jsstring :=
  match ds with
  | [] => []
  | Wire (text_delta _ d) :: rest => d :: deltas rest
  | _ :: rest => deltas rest
  end.

(** Hub activity during one stream that leaves connection [c] attached:
    text deltas, and other connections coming and going. *)
Definition mid_stream (c : nat) (ops : list op) : bool :=
  forallb (fun o =>
             match o with
             | Attach c' | Detach c' => negb (Nat.eqb c' c)
             | Broadcast (TextDelta _) => true
             | Broadcast _ => false
             end) ops.

(** Hub activity during one stream: text deltas, and connections coming
    and going, the reconnecting ones included. *)
Definition streaming (ops : list op) : bool :=
  forallb (fun o =>
             match o with
             | Attach _ | Detach _ => true
             | Broadcast (TextDelta _) => true
             | Broadcast _ => false
             end) ops.

(** The streamed text that a connection has been told, frame by frame:
    a stream start empties it, a resume event sets it, a text delta is
    appended to it. *)
Fixpoint told (text : jsstring) (ds : list Delivery) : jsstring :=
  match ds with
  | [] => text
  | Wire (stream_start _) :: rest => told [] rest
  | Wire (processing_state _ _ (Some ss)) :: rest =>
      told (if is_streaming ss then or_else (current_content ss) [] else text)
        rest
  | Wire (text_delta _ d) :: rest => told (text ++ d) rest
  | _ :: rest => told text rest
  end.

(** Every attached connection has been told the partial text [text] of
    the query that is streaming. *)
Definition in_step (h : t) (text : jsstring) : Prop :=
  partial_text h = Some text
  /\ forall c o, outbox h !! c = Some o -> told [] o = text.

(** The text deltas a run of hub activity broadcasts, in order. *)
Fixpoint texts (ops : list op) : list jsstring :=
  match ops with
  | [] => []
  | Broadcast (TextDelta d) :: rest => d :: texts rest
  | _ :: rest => texts rest
  end.

End ConnectionHub.

(** ** The session registry *)

Module SessionRegistry.

(** Where a caller of [getOrCreate] stands. *)
Inductive pc :=
| Waiting (conv : jsstring)
| Holding (conv : jsstring)
| Creating (conv : jsstring)
| Returned (conv : jsstring) (instance : nat).

(** Modelled from the spec: the Session Registry of section 4.2, whose
    code (app/core/session_manager.py) is not among the sources.  A
    session instance is named by its allocation number; [alive] is the
    heap of session objects, [sessions] the registry's map, [lock] the
    registry-level lock with its holder, [returned] the log of what the
    calls of [getOrCreate] have returned, oldest first. *)
Record t := {
  sessions : gmap jsstring nat;
  alive : gmap nat jsstring;
  next_instance : nat;
  lock : option nat;
  callers : gmap nat pc;
  returned : list (jsstring * nat);
}.

Definition empty : t :=
  {| sessions := ∅; alive := ∅; next_instance := 0; lock := None;
     callers := ∅; returned := [] |}.

Inductive event :=
| Call (caller : nat) (conv : jsstring)
| Step (caller : nat)
| Teardown (conv : jsstring).

(** Modelled from the spec: caller [k] enters [getOrCreate(conv)]; a
    caller already inside a call does not enter another. *)
Definition call (k : nat) (conv : jsstring) (r : t) : t :=
  match callers r !! k with
  | Some (Waiting _) | Some (Holding _) | Some (Creating _) => r
  | _ =>
      {| sessions := sessions r; alive := alive r;
         next_instance := next_instance r; lock := lock r;
         callers := <[k := Waiting conv]> (callers r);
         returned := returned r |}
  end.

(** Modelled from the spec: [getOrCreate], one step of caller [k] at a
    time.  The caller takes the registry lock, looks the conversation up,
    on a miss constructs a session and registers it, releases the lock
    and returns the session. *)
Definition advance (k : nat) (r : t) : t :=
  match callers r !! k with
  | Some (Waiting conv) =>
      match lock r with
      | None =>
          {| sessions := sessions r; alive := alive r;
             next_instance := next_instance r; lock := Some k;
             callers := <[k := Holding conv]> (callers r);
             returned := returned r |}
      | Some _ => r
      end
  | Some (Holding conv) =>
      match sessions r !! conv with
      | Some i =>
          {| sessions := sessions r; alive := alive r;
             next_instance := next_instance r; lock := None;
             callers := <[k := Returned conv i]> (callers r);
             returned := returned r ++ [(conv, i)] |}
      | None =>
          {| sessions := sessions r; alive := alive r;
             next_instance := next_instance r; lock := lock r;
             callers := <[k := Creating conv]> (callers r);
             returned := returned r |}
      end
  | Some (Creating conv) =>
      let i := next_instance r in
      {| sessions := <[conv := i]> (sessions r);
         alive := <[i := conv]> (alive r);
         next_instance := S i; lock := None;
         callers := <[k := Returned conv i]> (callers r);
         returned := returned r ++ [(conv, i)] |}
  | Some (Returned _ _) | None => r
  end.

(** Modelled from the spec: the idle grace period of [conv] has run out;
    under the lock, its session is unregistered and destroyed. *)
Definition teardown (conv : jsstring) (r : t) : t :=
  match lock r, sessions r !! conv with
  | None, Some i =>
      {| sessions := delete conv (sessions r); alive := delete i (alive r);
         next_instance := next_instance r; lock := None;
         callers := callers r; returned := returned r |}
  | _, _ => r
  end.

Definition step (r : t) (e : event) : t :=
  match e with
  | Call k conv => call k conv r
  | Step k => advance k r
  | Teardown conv => teardown conv r
  end.

Definition run (es : list event) (r : t) : t := foldl step r es.

(** No session of [conv] is torn down in the schedule. *)
Definition keeps (conv : jsstring) (es : list event) : bool :=
  forallb (fun e =>
             match e with
             | Teardown conv' => bool_decide (conv' ≠ conv)
             | _ => true
             end) es.

(** *** The registry invariant *)

(** Inside the critical section of [getOrCreate]. *)
Definition critical (p : option pc) : Prop :=
  match p with
  | Some (Holding _) | Some (Creating _) => True
  | _ => False
  end.

Record consistent (r : t) : Prop := {
  map_is_heap : forall c i, sessions r !! c = Some i <-> alive r !! i = Some c;
  heap_below_next : forall i c, alive r !! i = Some c -> (i < next_instance r)%nat;
  holder_is_critical : forall k, critical (callers r !! k) <-> lock r = Some k;
  creating_after_miss :
    forall k c, callers r !! k = Some (Creating c) -> sessions r !! c = None;
}.

End SessionRegistry.

(** ** The rest of the hook useChat

    The cases of [handleMessage] other than the streaming ones, the
    status handler, [subscribe], [stopChat], [clearHistory] and the effect
    that follows the [chatId] prop (useChat.ts).  The hook state extends
    [World] with the remaining refs and state variables. *)

Module UseChat.

Record ToolHistoryItem := {
  thi_id : jsstring;
  thi_toolName : jsstring;
  thi_toolInput : json;
  thi_resultContent : option jsstring;
  thi_isError : bool;
  thi_timestamp : jsstring;
}.

(** Which of the remaining callbacks of [UseChatOptions] were supplied. *)
Record Callbacks := {
  onToolUse : bool;
  onToolResult : bool;
  onToolHistory : bool;
  onResult : bool;
  onDisconnect : bool;
}.

Section Hook.

(** The JavaScript numbers of [cost] and [duration], passed through. *)
Context {number : Type}.

Variable JSON_stringify : json -> jsstring.

(** The frames that [handleMessage] switches on besides the streaming
    ones.  [history] carries the messages as the handler's [map] builds
    them, [tool_history] the items with their fields renamed. *)
Inductive OtherMessage :=
| connected
| history (chat_id : jsstring) (history_messages : list Message)
| user_message
| assistant_message (chat_id : jsstring) (text : jsstring)
| tool_use (chat_id tool_name tool_id : jsstring) (tool_input : json)
| tool_result (chat_id tool_id : jsstring) (result_content : option jsstring)
    (is_error : bool)
| tool_history (chat_id : jsstring) (tool_uses : list ToolHistoryItem)
| result (chat_id : jsstring) (success : bool) (cost duration : option number)
| cancelled (chat_id : jsstring)
| history_cleared (chat_id : jsstring)
| error (message : jsstring).

Inductive HookCall :=
| CallOnToolUse (toolName toolId : jsstring) (toolInput : json)
| CallOnToolResult (toolId : jsstring) (content : option jsstring)
    (isError : bool)
| CallOnToolHistory (tools : list ToolHistoryItem)
| CallOnResult (success : bool) (cost duration : option number)
| CallOnDisconnect.

Record t := {
  world : World;
  (* useRef *)
  messagesRef : list Message;
  skipNextChatIdChangeRef : bool;
  prevChatIdRef : option jsstring;
  (* useState *)
  isConnected : bool;
  isClearing : bool;
  callbacks : Callbacks;
  (* calls made into the callbacks above, oldest first *)
  hook_calls : list HookCall;
}.

Definition with_world (f : World -> World) (h : t) : t :=
  {| world := f (world h); messagesRef := messagesRef h;
     skipNextChatIdChangeRef := skipNextChatIdChangeRef h;
     prevChatIdRef := prevChatIdRef h; isConnected := isConnected h;
     isClearing := isClearing h; callbacks := callbacks h;
     hook_calls := hook_calls h |}.

Definition set_skipNextChatIdChangeRef (v : bool) (h : t) : t :=
  {| world := world h; messagesRef := messagesRef h;
     skipNextChatIdChangeRef := v;
     prevChatIdRef := prevChatIdRef h; isConnected := isConnected h;
     isClearing := isClearing h; callbacks := callbacks h;
     hook_calls := hook_calls h |}.

Definition set_prevChatIdRef (v : option jsstring) (h : t) : t :=
  {| world := world h; messagesRef := messagesRef h;
     skipNextChatIdChangeRef := skipNextChatIdChangeRef h;
     prevChatIdRef := v; isConnected := isConnected h;
     isClearing := isClearing h; callbacks := callbacks h;
     hook_calls := hook_calls h |}.

Definition setIsConnected (v : bool) (h : t) : t :=
  {| world := world h; messagesRef := messagesRef h;
     skipNextChatIdChangeRef := skipNextChatIdChangeRef h;
     prevChatIdRef := prevChatIdRef h; isConnected := v;
     isClearing := isClearing h; callbacks := callbacks h;
     hook_calls := hook_calls h |}.

Definition setIsClearing (v : bool) (h : t) : t :=
  {| world := world h; messagesRef := messagesRef h;
     skipNextChatIdChangeRef := skipNextChatIdChangeRef h;
     prevChatIdRef := prevChatIdRef h; isConnected := isConnected h;
     isClearing := v; callbacks := callbacks h;
     hook_calls := hook_calls h |}.

(** [optionsRef.current.onX?.(...)] for a callback that is [present]. *)
Definition call_if (present : bool) (c : HookCall) (h : t) : t :=
  if present then
    {| world := world h; messagesRef := messagesRef h;
       skipNextChatIdChangeRef := skipNextChatIdChangeRef h;
       prevChatIdRef := prevChatIdRef h; isConnected := isConnected h;
       isClearing := isClearing h; callbacks := callbacks h;
       hook_calls := hook_calls h ++ [c] |}
  else h.

(** The effect [messagesRef.current = messages], run after a render. *)
Definition sync_messagesRef (h : t) : t :=
  {| world := world h; messagesRef := st_messages (world h);
     skipNextChatIdChangeRef := skipNextChatIdChangeRef h;
     prevChatIdRef := prevChatIdRef h; isConnected := isConnected h;
     isClearing := isClearing h; callbacks := callbacks h;
     hook_calls := hook_calls h |}.

Definition set_currentChatIdRef (v : option jsstring) (w : World) : World :=
  {| store := store w; wsManager := wsManager w;
     st_messages := st_messages w; currentChatIdRef := v;
     streamingMessageIdRef := streamingMessageIdRef w;
     pendingMessageRef := pendingMessageRef w; optionsRef := optionsRef w;
     calls := calls w |}.

(** [sessionCacheMap.delete(chatId)] *)
Definition delete_cache (chatId : jsstring) (st : CacheStore) : CacheStore :=
  {| sessionCacheMap := delete chatId (sessionCacheMap st);
     notified := notified st |}.

Definition subscribe_frame (chatId : jsstring) : json :=
  JObj [(lit "type", JStr (lit "subscribe")); (lit "chat_id", JStr chatId)].

(** [wsManager.send(data)], keeping the result. *)
Definition send_frame (data : json) (h : t) : t * bool :=
  let '(m, sent) :=
    WebSocketManager.send JSON_stringify data (wsManager (world h)) in
  (with_world (set_wsManager m) h, sent).

(** [wsManager.send({ type: 'subscribe', chat_id })] for the chat in
    [currentChatIdRef], when there is one. *)
Definition resubscribe (h : t) : t :=
  match currentChatIdRef (world h) with
  | Some chatId =>
      if truthy chatId then fst (send_frame (subscribe_frame chatId) h) else h
  | None => h
  end.

(** The cache update shared by the [result] and [cancelled] cases. *)
Definition settle_cache (chatId : jsstring) (w : World) : World :=
  match sessionCacheMap (store w) !! chatId with
  | Some cached =>
      with_store notifyCacheUpdate
        (raw_set_cache chatId
           {| messages := messages cached; c_isStreaming := false;
              streamingMessageId := None; isLoading := false |} w)
  | None => w
  end.

(** [list.find(m => m.id === wanted)] *)
Definition find_message (wanted : option jsstring) (l : list Message)
  : option Message :=
  List.find (fun m => bool_decide (Some (id m) = wanted)) l.

(** [lastHistoryMsg && lastHistoryMsg.role === 'user'] *)
Definition ends_with_user (l : list Message) : bool :=
  match last l with
  | Some m => match role m with user => true | assistant => false end
  | None => false
  end.

(** The [history] case for the current chat. *)
Definition handleHistory (historyChatId : jsstring)
    (historyMessages : list Message) (h : t) : t :=
  let w := world h in
  if match pendingMessageRef w with Some _ => true | None => false end
     && Nat.eqb (length historyMessages) 0
  then h
  else
    (* one attempt to keep the streaming message [found] *)
    let keep (found : option Message) : option (list Message) :=
      match found with
      | Some streamingMessage =>
          if ends_with_user historyMessages
          then Some (historyMessages ++ [streamingMessage])
          else None
      | None => None
      end in
    let merged :=
      match sessionCacheMap (store w) !! historyChatId with
      | Some cached =>
          if c_isStreaming cached && truthy_ref (streamingMessageId cached)
          then
            match keep (find_message (streamingMessageId cached)
                          (messagesRef h)) with
            | Some kept => Some kept
            | None =>
                keep (find_message (streamingMessageId cached)
                        (messages cached))
            end
          else None
      | None => None
      end in
    with_world
      (setMessages (fun _ => default historyMessages merged)) h.

(** The cases of [handleMessage] for the frames of [OtherMessage]. *)
Definition handleOther (now now_ts : N) (msg : OtherMessage) (h : t) : t :=
  let current := currentChatIdRef (world h) in
  match msg with
  | connected => resubscribe h
  | history chat_id historyMessages =>
      if bool_decide (Some chat_id = current)
      then handleHistory chat_id historyMessages h
      else h
  | user_message => h
  | assistant_message assistantChatId text =>
      if bool_decide (Some assistantChatId = current)
         && negb (truthy_ref (streamingMessageIdRef (world h)))
      then
        let assistantMessage :=
          {| id := Date_now_toString now; role := assistant; content := text;
             timestamp := now_ts; images := None; isStreaming := None |} in
        with_world
          (fun w =>
             setMessages (fun prev => prev ++ [assistantMessage])
               (with_store
                  (updateSessionCache assistantChatId
                     {| p_messages := None; p_isStreaming := None;
                        p_streamingMessageId := None;
                        p_isLoading := Some false |}) w)) h
      else h
  | tool_use chat_id tool_name tool_id tool_input =>
      if bool_decide (Some chat_id = current)
      then call_if (onToolUse (callbacks h))
             (CallOnToolUse tool_name tool_id tool_input) h
      else h
  | tool_result chat_id tool_id result_content is_error =>
      if bool_decide (Some chat_id = current)
      then call_if (onToolResult (callbacks h))
             (CallOnToolResult tool_id result_content is_error) h
      else h
  | tool_history chat_id tool_uses =>
      if bool_decide (Some chat_id = current)
      then call_if (onToolHistory (callbacks h)) (CallOnToolHistory tool_uses) h
      else h
  | result resultChatId success cost duration =>
      let h :=
        if bool_decide (Some resultChatId = current)
        then call_if (onResult (callbacks h))
               (CallOnResult success cost duration) h
        else h in
      with_world (settle_cache resultChatId) h
  | cancelled cancelledChatId =>
      let h :=
        if bool_decide (Some cancelledChatId = current)
        then with_world (set_streamingMessageIdRef None) h
        else h in
      with_world (settle_cache cancelledChatId) h
  | history_cleared clearedChatId =>
      let h :=
        with_world
          (with_store (fun st => notifyCacheUpdate (delete_cache clearedChatId st)))
          h in
      if bool_decide (Some clearedChatId = current) then
        let h := with_world (setMessages (fun _ => [])) h in
        let h := setIsClearing false h in
        let h := with_world (set_streamingMessageIdRef None) h in
        call_if (onToolHistory (callbacks h)) (CallOnToolHistory []) h
      else h
  | error message =>
      let h :=
        match current with
        | Some chatId =>
            if truthy chatId then
              with_world
                (with_store
                   (updateSessionCache chatId
                      {| p_messages := None; p_isStreaming := Some false;
                         p_streamingMessageId := None;
                         p_isLoading := Some false |})) h
            else h
        | None => h
        end in
      with_world (call_onError message) h
  end.

(** A frame of either kind. *)
Inductive Frame :=
| Streaming (m : ServerMessage)
| Other (m : OtherMessage).

Definition handleFrame (now now_ts : N) (f : Frame) (h : t) : t :=
  match f with
  | Streaming m => with_world (handleMessage now now_ts m) h
  | Other m => handleOther now now_ts m h
  end.


(** [subscribe(newChatId, pendingMessage)] *)
Definition subscribe (now now_ts : N) (newChatId : jsstring)
    (pendingMessage : option PendingMessage) (h : t) : t :=
  let oldChatId := currentChatIdRef (world h) in
  let h :=
    match oldChatId with
    | Some old =>
        if truthy old && bool_decide (old ≠ newChatId) then
          let oldCache := sessionCacheMap (store (world h)) !! old in
          with_world
            (raw_set_cache old
               {| messages := messagesRef h;
                  c_isStreaming := default false (c_isStreaming <$> oldCache);
                  streamingMessageId := streamingMessageIdRef (world h);
                  isLoading := default false (isLoading <$> oldCache) |}) h
        else h
    | None => h
    end in
  let h := with_world (set_currentChatIdRef (Some newChatId)) h in
  let h :=
    match pendingMessage with
    | Some pending =>
        let userMessage :=
          {| id := Date_now_toString now; role := user;
             content := trim (pm_content pending); timestamp := now_ts;
             images := if has_images (pm_images pending)
                       then pm_images pending else None;
             isStreaming := None |} in
        let h := with_world (setMessages (fun _ => [userMessage])) h in
        let h :=
          with_world
            (with_store
               (updateSessionCache newChatId
                  {| p_messages := Some [userMessage];
                     p_isStreaming := Some false;
                     p_streamingMessageId := Some None;
                     p_isLoading := Some true |})) h in
        let h := with_world (set_streamingMessageIdRef None) h in
        let h := with_world (set_pendingMessageRef (Some pending)) h in
        set_skipNextChatIdChangeRef true h
    | None =>
        let h :=
          match sessionCacheMap (store (world h)) !! newChatId with
          | Some cached =>
              let h :=
                with_world (setMessages (fun _ => messages cached)) h in
              with_world
                (set_streamingMessageIdRef (streamingMessageId cached)) h
          | None =>
              let h := with_world (setMessages (fun _ => [])) h in
              let h := with_world (set_streamingMessageIdRef None) h in
              with_world
                (with_store
                   (updateSessionCache newChatId
                      {| p_messages := Some []; p_isStreaming := Some false;
                         p_streamingMessageId := Some None;
                         p_isLoading := Some false |})) h
          end in
        with_world (set_pendingMessageRef None) h
    end in
  if WebSocketManager.isConnected (wsManager (world h))
  then fst (send_frame (subscribe_frame newChatId) h)
  else h.

(** [chatId ? sessionCacheMap.get(chatId) : null] *)
Definition currentCache (chatId : option jsstring) (h : t)
  : option SessionCache :=
  match chatId with
  | Some c =>
      if truthy c then sessionCacheMap (store (world h)) !! c else None
  | None => None
  end.

(** The [isLoading] and [isStreaming] that the hook returns. *)
Definition hook_isLoading (chatId : option jsstring) (h : t) : bool :=
  default false (isLoading <$> currentCache chatId h).

Definition hook_isStreaming (chatId : option jsstring) (h : t) : bool :=
  default false (c_isStreaming <$> currentCache chatId h).

(** [stopChat()], for the [chatId] prop. *)
Definition stopChat (chatId : option jsstring) (h : t) : t :=
  match chatId with
  | Some c =>
      if truthy c then
        let '(m, stopped) :=
          WebSocketManager.stop JSON_stringify c (wsManager (world h)) in
        let h := with_world (set_wsManager m) h in
        if stopped then
          with_world
            (with_store
               (updateSessionCache c
                  {| p_messages := None; p_isStreaming := Some false;
                     p_streamingMessageId := None;
                     p_isLoading := Some false |})) h
        else h
      else h
  | None => h
  end.

(** [clearHistory()], for the [chatId] prop. *)
Definition clearHistory (chatId : option jsstring) (h : t) : t :=
  match chatId with
  | Some c =>
      if truthy c then
        let h := setIsClearing true h in
        let '(h, sent) :=
          send_frame
            (JObj [(lit "type", JStr (lit "clear_history"));
                   (lit "chat_id", JStr c)]) h in
        if sent then h
        else
          let h := setIsClearing false h in
          with_world (call_onError not_connected_error) h
      else h
  | None => h
  end.

(** The effect run when the [chatId] prop changes. *)
Definition chatId_effect (now now_ts : N) (chatId : option jsstring) (h : t)
  : t :=
  if skipNextChatIdChangeRef h then
    set_prevChatIdRef chatId (set_skipNextChatIdChangeRef false h)
  else if match pendingMessageRef (world h) with
          | Some _ => true | None => false end
  then set_prevChatIdRef chatId h
  else if truthy_ref chatId
          && bool_decide (currentChatIdRef (world h) = chatId)
  then set_prevChatIdRef chatId h
  else
    let h :=
      match chatId with
      | Some c =>
          if truthy c then subscribe now now_ts c None h
          else
            with_world
              (fun w =>
                 set_streamingMessageIdRef None
                   (setMessages (fun _ => []) (set_currentChatIdRef None w))) h
      | None =>
          with_world
            (fun w =>
               set_streamingMessageIdRef None
                 (setMessages (fun _ => []) (set_currentChatIdRef None w))) h
      end in
    set_prevChatIdRef chatId h.

(** The cache holds [text] as the streaming reply of chat [conv]: the
    entry is flagged streaming and its last message is the assistant
    message that [streamingMessageId] names, with content [text]. *)
Definition cache_streaming (conv : jsstring) (w : World) (text : jsstring)
  : Prop :=
  exists cached before m,
    sessionCacheMap (store w) !! conv = Some cached
    /\ messages cached = before ++ [m]
    /\ streamingMessageId cached = Some (id m)
    /\ truthy (id m) = true
    /\ role m = assistant
    /\ content m = text
    /\ c_isStreaming cached = true.

(** What the user sees and what the hook has done, the cache apart. *)
Definition screen (h : t) :=
  (st_messages (world h), currentChatIdRef (world h),
   streamingMessageIdRef (world h), pendingMessageRef (world h),
   wsManager (world h), calls (world h), messagesRef h, isConnected h,
   isClearing h, hook_calls h).

(** The chat a frame is addressed to. *)
Definition addressee (f : Frame) : option jsstring :=
  match f with
  | Streaming (processing_state c _ _) | Streaming (stream_start c)
  | Streaming (text_delta c _) | Streaming (stream_end c) => Some c
  | Other (history c _) | Other (assistant_message c _)
  | Other (tool_use c _ _ _) | Other (tool_result c _ _ _)
  | Other (tool_history c _) | Other (result c _ _ _)
  | Other (cancelled c) | Other (history_cleared c) => Some c
  | Other connected | Other user_message | Other (error _) => None
  end.

End Hook.

Arguments t : clear implicits.
Arguments OtherMessage : clear implicits.
Arguments HookCall : clear implicits.
Arguments Frame : clear implicits.

End UseChat.

(** ** ChatContainer: tool cards and the merged stream

    The tool bookkeeping of ChatContainer.tsx (the callbacks it passes to
    [useChat]) and the [streamItems] memo that merges messages and tool
    calls. *)

Module ChatContainer.

Record ToolResult := {
  tr_content : option jsstring;
  tr_isError : bool;
}.

Record ToolUseInfo := {
  tu_id : jsstring;
  toolName : jsstring;
  toolInput : json;
  tu_timestamp : N;
  result : option ToolResult;
}.

(** [toolUses] and [toolOrder], the two state variables. *)
Record Tools := {
  toolUses : gmap jsstring ToolUseInfo;
  toolOrder : list jsstring;
}.

Definition no_tools : Tools := {| toolUses := ∅; toolOrder := [] |}.

Definition set_result (r : ToolResult) (tool : ToolUseInfo) : ToolUseInfo :=
  {| tu_id := tu_id tool; toolName := toolName tool;
     toolInput := toolInput tool; tu_timestamp := tu_timestamp tool;
     result := Some r |}.

(** [onToolUse(info)], with [now] the reading of [new Date()]. *)
Definition onToolUse (name toolId : jsstring) (input : json) (now : N)
    (t : Tools) : Tools :=
  let toolInfo :=
    {| tu_id := toolId; toolName := name; toolInput := input;
       tu_timestamp := now; result := None |} in
  {| toolUses := <[toolId := toolInfo]> (toolUses t);
     toolOrder :=
       if bool_decide (toolId ∈ toolOrder t) then toolOrder t
       else toolOrder t ++ [toolId] |}.

(** [onToolResult(info)] *)
Definition onToolResult (toolId : jsstring) (content : option jsstring)
    (isError : bool) (t : Tools) : Tools :=
  match toolUses t !! toolId with
  | Some existing =>
      {| toolUses :=
           <[toolId := set_result {| tr_content := content;
                                     tr_isError := isError |} existing]>
             (toolUses t);
         toolOrder := toolOrder t |}
  | None => t
  end.

Section History.

(** [new Date(tool.timestamp)] for the time stamps of stored tool calls. *)
Variable Date_parse : jsstring -> N.

(** [onToolHistory(tools)] *)
Definition onToolHistory (tools : list UseChat.ToolHistoryItem) : Tools :=
  foldl
    (fun acc tool =>
       let toolInfo :=
         {| tu_id := UseChat.thi_id tool;
            toolName := UseChat.thi_toolName tool;
            toolInput := UseChat.thi_toolInput tool;
            tu_timestamp := Date_parse (UseChat.thi_timestamp tool);
            result :=
              match UseChat.thi_resultContent tool with
              | Some content =>
                  Some {| tr_content := Some content;
                          tr_isError := UseChat.thi_isError tool |}
              | None => None
              end |} in
       {| toolUses := <[UseChat.thi_id tool := toolInfo]> (toolUses acc);
          toolOrder := toolOrder acc ++ [UseChat.thi_id tool] |})
    no_tools tools.

End History.

(** ['连接已断开，工具执行被中断'] *)
Definition disconnected_message : jsstring :=
  [0x8fde; 0x63a5; 0x5df2; 0x65ad; 0x5f00; 0xff0c; 0x5de5; 0x5177; 0x6267;
   0x884c; 0x88ab; 0x4e2d; 0x65ad].

(** [onDisconnect()]: every tool without a result gets the error result. *)
Definition onDisconnect (t : Tools) : Tools :=
  {| toolUses :=
       (fun tool =>
          match result tool with
          | Some _ => tool
          | None =>
              set_result {| tr_content := Some disconnected_message;
                            tr_isError := true |} tool
          end) <$> toolUses t;
     toolOrder := toolOrder t |}.

(** [toolOrder.map((id) => toolUses.get(id)).filter(Boolean)] *)
Definition toolArray (t : Tools) : list ToolUseInfo :=
  omap (fun toolId => toolUses t !! toolId) (toolOrder t).

Inductive StreamItem :=
| ItemMessage (data : Message)
| ItemTool (data : ToolUseInfo).

(** The inner [while] of [streamItems]: the tools at the head of those
    not yet placed whose time stamp is at most [ts], and the rest. *)
Fixpoint due_tools (ts : N) (pending : list ToolUseInfo)
  : list ToolUseInfo * list ToolUseInfo :=
  match pending with
  | tool :: rest =>
      if tu_timestamp tool <=? ts then
        let '(due, later) := due_tools ts rest in (tool :: due, later)
      else ([], pending)
  | [] => ([], [])
  end.

(** The loop over the messages; [pending] is [toolArray] from
    [toolIndex] on. *)
Fixpoint merge_items (msgs : list Message) (pending : list ToolUseInfo)
  : list StreamItem :=
  match msgs with
  | message :: rest =>
      match role message with
      | assistant =>
          let '(due, later) := due_tools (timestamp message) pending in
          (ItemTool <$> due) ++ ItemMessage message :: merge_items rest later
      | user => ItemMessage message :: merge_items rest pending
      end
  | [] => ItemTool <$> pending
  end.

Definition streamItems (msgs : list Message) (t : Tools) : list StreamItem :=
  merge_items msgs (toolArray t).

(** The messages, and the tools, among some stream items. *)
Definition item_messages (items : list StreamItem) : list Message :=
  omap (fun i => match i with ItemMessage m => Some m | ItemTool _ => None end)
    items.

Definition item_tools (items : list StreamItem) : list ToolUseInfo :=
  omap (fun i => match i with ItemTool t => Some t | ItemMessage _ => None end)
    items.

(** What happens to the tool state: the callbacks handed to [useChat],
    and the reset done by the effect on [chatId] and by
    [handleClearHistory]. *)
Inductive ToolEvent :=
| ToolUse (name toolId : jsstring) (input : json) (now : N)
| ToolResulted (toolId : jsstring) (content : option jsstring) (isError : bool)
| ToolHistory (tools : list UseChat.ToolHistoryItem)
| Disconnected
| ChatSwitched.

Definition tool_step (Date_parse : jsstring -> N) (t : Tools) (e : ToolEvent)
  : Tools :=
  match e with
  | ToolUse name toolId input now => onToolUse name toolId input now t
  | ToolResulted toolId content isError => onToolResult toolId content isError t
  | ToolHistory tools => onToolHistory Date_parse tools
  | Disconnected => onDisconnect t
  | ChatSwitched => no_tools
  end.

(** Every stored history that is loaded names each tool once. *)
Definition distinct_histories (es : list ToolEvent) : Prop :=
  forall tools, ToolHistory tools ∈ es -> NoDup (UseChat.thi_id <$> tools).

(** The order lists each tool once, lists exactly the tools on record,
    and every record sits under its own id. *)
Definition tools_wf (t : Tools) : Prop :=
  NoDup (toolOrder t)
  /\ (forall toolId, toolId ∈ toolOrder t <-> is_Some (toolUses t !! toolId))
  /\ (forall toolId tool, toolUses t !! toolId = Some tool -> tu_id tool = toolId).

(** After some tool cards the next message, when there is one, is an
    assistant message at least as new as [tool]. *)
Fixpoint covered (tool : ToolUseInfo) (items : list StreamItem) : Prop :=
  match items with
  | ItemTool _ :: rest => covered tool rest
  | ItemMessage m :: _ =>
      role m = assistant /\ tu_timestamp tool <= timestamp m
  | [] => True
  end.

(** Every tool card is [covered] by what follows it. *)
Fixpoint tools_in_place (items : list StreamItem) : Prop :=
  match items with
  | ItemTool tool :: rest => covered tool rest /\ tools_in_place rest
  | ItemMessage _ :: rest => tools_in_place rest
  | [] => True
  end.

(** Every tool card after an assistant message is newer than it. *)
Fixpoint none_overdue (items : list StreamItem) : Prop :=
  match items with
  | ItemMessage m :: rest =>
      (role m = assistant ->
       Forall (fun tool => timestamp m < tu_timestamp tool) (item_tools rest))
      /\ none_overdue rest
  | ItemTool _ :: rest => none_overdue rest
  | [] => True
  end.

(** The tools are listed oldest first. *)
Fixpoint in_time_order (tools : list ToolUseInfo) : Prop :=
  match tools with
  | tool :: rest =>
      Forall (fun later => tu_timestamp tool <= tu_timestamp later) rest
      /\ in_time_order rest
  | [] => True
  end.

End ChatContainer.

(** ** The whole socket manager

    [class WebSocketManager] of useChat.ts with its listeners, its
    reconnect timer and the handlers it installs on each socket.  A
    listener is named by a number, a socket by its position among the
    sockets created so far; the [Set]s are lists in insertion order.
    The timeouts and the socket events are events of the environment. *)

Module SocketLifecycle.

Local Open Scope nat_scope.

Section Manager.

(** What [JSON.parse(event.data)] gives. *)
Context {data : Type}.

Record t := {
  sockets : list WebSocket;
  ws : option nat;
  listeners : list nat;
  statusListeners : list nat;
  (* a reconnect timeout is pending *)
  reconnectTimer : bool;
  isConnecting : bool;
  (* the pending 500 ms timeouts of [removeListener] *)
  removal_checks : nat;
  (* calls made to the status listeners and to the listeners, oldest first *)
  status_calls : list (nat * bool);
  listener_calls : list (nat * data);
}.

Definition initial : t :=
  {| sockets := []; ws := None; listeners := []; statusListeners := [];
     reconnectTimer := false; isConnecting := false; removal_checks := 0;
     status_calls := []; listener_calls := [] |}.

(** [Set.prototype.add] and [Set.prototype.delete] *)
Definition set_add (x : nat) (l : list nat) : list nat :=
  if bool_decide (x ∈ l) then l else l ++ [x].

Definition set_delete (x : nat) (l : list nat) : list nat :=
  filter (fun y => y <> x) l.

(** [this.ws?.readyState] *)
Definition ws_readyState (s : t) : option ReadyState :=
  match ws s with
  | Some k => readyState <$> sockets s !! k
  | None => None
  end.

(** [get isConnected()] *)
Definition isConnected (s : t) : bool :=
  bool_decide (ws_readyState s = Some OPEN).

Definition set_isConnecting (v : bool) (s : t) : t :=
  {| sockets := sockets s; ws := ws s; listeners := listeners s;
     statusListeners := statusListeners s; reconnectTimer := reconnectTimer s;
     isConnecting := v; removal_checks := removal_checks s;
     status_calls := status_calls s; listener_calls := listener_calls s |}.

Definition set_ws (v : option nat) (s : t) : t :=
  {| sockets := sockets s; ws := v; listeners := listeners s;
     statusListeners := statusListeners s; reconnectTimer := reconnectTimer s;
     isConnecting := isConnecting s; removal_checks := removal_checks s;
     status_calls := status_calls s; listener_calls := listener_calls s |}.

Definition set_sockets (v : list WebSocket) (s : t) : t :=
  {| sockets := v; ws := ws s; listeners := listeners s;
     statusListeners := statusListeners s; reconnectTimer := reconnectTimer s;
     isConnecting := isConnecting s; removal_checks := removal_checks s;
     status_calls := status_calls s; listener_calls := listener_calls s |}.

Definition set_listeners (v : list nat) (s : t) : t :=
  {| sockets := sockets s; ws := ws s; listeners := v;
     statusListeners := statusListeners s; reconnectTimer := reconnectTimer s;
     isConnecting := isConnecting s; removal_checks := removal_checks s;
     status_calls := status_calls s; listener_calls := listener_calls s |}.

Definition set_statusListeners (v : list nat) (s : t) : t :=
  {| sockets := sockets s; ws := ws s; listeners := listeners s;
     statusListeners := v; reconnectTimer := reconnectTimer s;
     isConnecting := isConnecting s; removal_checks := removal_checks s;
     status_calls := status_calls s; listener_calls := listener_calls s |}.

Definition set_reconnectTimer (v : bool) (s : t) : t :=
  {| sockets := sockets s; ws := ws s; listeners := listeners s;
     statusListeners := statusListeners s; reconnectTimer := v;
     isConnecting := isConnecting s; removal_checks := removal_checks s;
     status_calls := status_calls s; listener_calls := listener_calls s |}.

Definition set_removal_checks (v : nat) (s : t) : t :=
  {| sockets := sockets s; ws := ws s; listeners := listeners s;
     statusListeners := statusListeners s; reconnectTimer := reconnectTimer s;
     isConnecting := isConnecting s; removal_checks := v;
     status_calls := status_calls s; listener_calls := listener_calls s |}.

Definition call_status (l : nat) (connected : bool) (s : t) : t :=
  {| sockets := sockets s; ws := ws s; listeners := listeners s;
     statusListeners := statusListeners s; reconnectTimer := reconnectTimer s;
     isConnecting := isConnecting s; removal_checks := removal_checks s;
     status_calls := status_calls s ++ [(l, connected)];
     listener_calls := listener_calls s |}.

(** [private notifyStatus(connected)] *)
Definition notifyStatus (connected : bool) (s : t) : t :=
  foldl (fun s l => call_status l connected s) s (statusListeners s).

(** [connect()]; the handlers it installs are [onopen], [onmessage],
    [onerror] and [onclose] below. *)
Definition connect (s : t) : t :=
  if bool_decide (ws_readyState s = Some OPEN) then s
  else if bool_decide (ws_readyState s = Some CONNECTING) then s
  else if isConnecting s then s
  else
    let s := set_isConnecting true s in
    let ws := length (sockets s) in
    let s :=
      set_sockets
        (sockets s ++ [{| readyState := CONNECTING; transmitted := [] |}]) s in
    set_ws (Some ws) s.

(** [private scheduleReconnect()] *)
Definition scheduleReconnect (s : t) : t :=
  if reconnectTimer s then s
  else if bool_decide (length (listeners s) = 0) then s
  else set_reconnectTimer true s.

(** The callback of the timeout set by [scheduleReconnect]. *)
Definition reconnect_timeout (s : t) : t :=
  let s := set_reconnectTimer false s in
  if bool_decide (0 < length (listeners s)) then connect s else s.

(** [ws.close()] on socket [k]: a socket that is connecting or open
    starts closing. *)
Definition close (k : nat) (s : t) : t :=
  set_sockets
    (alter
       (fun sock =>
          match readyState sock with
          | CONNECTING | OPEN =>
              {| readyState := CLOSING; transmitted := transmitted sock |}
          | CLOSING | CLOSED => sock
          end) k (sockets s)) s.

(** [disconnect()] *)
Definition disconnect (s : t) : t :=
  let s := if reconnectTimer s then set_reconnectTimer false s else s in
  match ws s with
  | Some k => set_ws None (close k s)
  | None => s
  end.

(** [addListener(listener)] *)
Definition addListener (l : nat) (s : t) : t :=
  let s := set_listeners (set_add l (listeners s)) s in
  if bool_decide (length (listeners s) = 1) then connect s else s.

(** [removeListener(listener)]; its timeout is [removal_timeout]. *)
Definition removeListener (l : nat) (s : t) : t :=
  let s := set_listeners (set_delete l (listeners s)) s in
  set_removal_checks (S (removal_checks s)) s.

Definition removal_timeout (s : t) : t :=
  if bool_decide (length (listeners s) = 0) then disconnect s else s.

(** [addStatusListener(listener)] *)
Definition addStatusListener (l : nat) (s : t) : t :=
  let s := set_statusListeners (set_add l (statusListeners s)) s in
  call_status l (bool_decide (ws_readyState s = Some OPEN)) s.

(** [removeStatusListener(listener)] *)
Definition removeStatusListener (l : nat) (s : t) : t :=
  set_statusListeners (set_delete l (statusListeners s)) s.

(** [ws.onopen] *)
Definition onopen (s : t) : t :=
  notifyStatus true (set_isConnecting false s).

(** [ws.onmessage], for the parsed payload. *)
Definition onmessage (d : data) (s : t) : t :=
  foldl
    (fun s l =>
       {| sockets := sockets s; ws := ws s; listeners := listeners s;
          statusListeners := statusListeners s;
          reconnectTimer := reconnectTimer s; isConnecting := isConnecting s;
          removal_checks := removal_checks s; status_calls := status_calls s;
          listener_calls := listener_calls s ++ [(l, d)] |})
    s (listeners s).

(** [ws.onerror] *)
Definition onerror (s : t) : t :=
  notifyStatus false (set_isConnecting false s).

(** [ws.onclose] *)
Definition onclose (s : t) : t :=
  scheduleReconnect (notifyStatus false (set_ws None (set_isConnecting false s))).

(** What can happen to the manager: calls of its methods, its timeouts
    firing, and the events of socket [k]; [Closing] is the start of the
    closing handshake by the server, which fires no event. *)
Inductive event :=
| AddListener (l : nat)
| RemoveListener (l : nat)
| AddStatusListener (l : nat)
| RemoveStatusListener (l : nat)
| Disconnect
| RemovalTimeout
| ReconnectTimeout
| Opened (k : nat)
| Received (k : nat) (d : data)
| Failed (k : nat)
| Closed (k : nat)
| Closing (k : nat).

Definition set_readyState (k : nat) (r : ReadyState) (s : t) : t :=
  set_sockets
    (alter (fun sock => {| readyState := r; transmitted := transmitted sock |})
       k (sockets s)) s.

Definition socket_state (k : nat) (s : t) : option ReadyState :=
  readyState <$> sockets s !! k.

(** One event.  A timeout fires only while it is pending; a socket opens
    only while connecting, receives only while open, and fails or
    closes only before it is closed; the browser sets [readyState]
    before it runs the handler.  When the server starts the closing
    handshake of an open socket the browser sets [readyState] to
    [CLOSING] in a task of its own and runs no handler; the close event
    comes later.  An event that cannot happen leaves the manager as it
    is. *)
Definition step (s : t) (e : event) : t :=
  match e with
  | AddListener l => addListener l s
  | RemoveListener l => removeListener l s
  | AddStatusListener l => addStatusListener l s
  | RemoveStatusListener l => removeStatusListener l s
  | Disconnect => disconnect s
  | RemovalTimeout =>
      match removal_checks s with
      | S n => removal_timeout (set_removal_checks n s)
      | O => s
      end
  | ReconnectTimeout => if reconnectTimer s then reconnect_timeout s else s
  | Opened k =>
      if bool_decide (socket_state k s = Some CONNECTING)
      then onopen (set_readyState k OPEN s) else s
  | Received k d =>
      if bool_decide (socket_state k s = Some OPEN) then onmessage d s else s
  | Failed k =>
      match socket_state k s with
      | Some CONNECTING | Some OPEN | Some CLOSING => onerror s
      | Some CLOSED | None => s
      end
  | Closed k =>
      match socket_state k s with
      | Some CONNECTING | Some OPEN | Some CLOSING =>
          onclose (set_readyState k CLOSED s)
      | Some CLOSED | None => s
      end
  | Closing k =>
      if bool_decide (socket_state k s = Some OPEN)
      then set_readyState k CLOSING s else s
  end.

Definition run (es : list event) (s : t) : t := foldl step s es.

(** The manager as [send] sees it. *)
Definition manager (s : t) : WebSocketManager.t :=
  {| WebSocketManager.ws :=
       match ws s with Some k => sockets s !! k | None => None end |}.

(** [send(data)] *)
Definition send (JSON_stringify : json -> jsstring) (payload : json) (s : t)
  : t * bool :=
  match ws s with
  | Some k =>
      if bool_decide (ws_readyState s = Some OPEN) then
        (set_sockets
           (alter
              (fun sock =>
                 {| readyState := readyState sock;
                    transmitted := transmitted sock ++ [JSON_stringify payload] |})
              k (sockets s)) s,
         true)
      else (s, false)
  | None => (s, false)
  end.

(** [ws] names a socket that has not reported its close. *)
Definition ws_not_closed (s : t) : Prop :=
  forall k, ws s = Some k ->
    exists sock, sockets s !! k = Some sock /\ readyState sock <> CLOSED.

End Manager.

Arguments t : clear implicits.
Arguments event : clear implicits.

End SocketLifecycle.

(** ** String methods used by the components *)

Module JSText.

(** [s.split(sep)] for a separator of one code unit. *)
Fixpoint split (sep : N) (s : jsstring) : list jsstring :=
  match s with
  | [] => [[]]
  | c :: rest =>
      if c =? sep then [] :: split sep rest
      else
        match split sep rest with
        | piece :: pieces => (c :: piece) :: pieces
        | [] => [[c]]
        end
  end.

(** [s.startsWith(prefix)] *)
Fixpoint startsWith (prefix s : jsstring) : bool :=
  match prefix, s with
  | [], _ => true
  | p :: prefix, c :: s => (p =? c) && startsWith prefix s
  | _ :: _, [] => false
  end.

(** [a || b] on strings *)
Definition or_string (a b : jsstring) : jsstring :=
  if truthy a then a else b.

Definition comma : N := 0x2C.
Definition slash : N := 0x2F.

End JSText.

(** ** Images: ChatInput.tsx and ChatMessage.tsx *)

Module ImageInput.

Record ImageData := {
  id : jsstring;
  (* [undefined] when the data URL holds no comma *)
  base64 : option jsstring;
  mimeType : jsstring;
  preview : jsstring;
}.

(** [processFile(file)]: [file_type] is [file.type], [read] the data URL
    handed to [reader.onload] ([None] when [reader.onerror] fires), and
    [fresh_id] the id built from [Date.now()] and [Math.random()]. *)
Definition processFile (file_type : jsstring) (read : option jsstring)
    (fresh_id : jsstring) : option ImageData :=
  if negb (JSText.startsWith (lit "image/") file_type) then None
  else
    match read with
    | Some url =>
        Some {| id := fresh_id;
                base64 := JSText.split JSText.comma url !! 1%nat;
                mimeType := file_type;
                preview := url |}
    | None => None
    end.

(** [removeImage(id)] *)
Definition removeImage (removed : jsstring) (images : list ImageData)
  : list ImageData :=
  filter (fun img => id img <> removed) images.

(** The loop of [handleFileSelect] and [handlePaste] over the files it
    was given, each with what its reader produced and its fresh id, and
    the final [setImages]. *)
Definition add_files (files : list (jsstring * option jsstring * jsstring))
    (images : list ImageData) : list ImageData :=
  let newImages :=
    omap (fun '(file_type, read, fresh_id) =>
            processFile file_type read fresh_id) files in
  if (0 <? length newImages)%nat then images ++ newImages else images.

(** [`data:${img.mimeType};base64,${img.base64}`] of ChatMessage.tsx *)
Definition imageSrc (mimeType base64 : jsstring) : jsstring :=
  lit "data:" ++ mimeType ++ lit ";base64," ++ base64.

End ImageInput.

(** ** ToolUseCard.tsx: the one-line preview of a tool call *)

Module ToolUseCard.

Section Preview.

(** The string fields of the tool input, as the casts [as string]
    assert: [input key] is the field [key] when present. *)
Variable input : jsstring -> option jsstring.

(** [new URL(url).hostname], [None] when the constructor throws. *)
Variable URL_hostname : jsstring -> option jsstring.

(** [(input.key as string) || ''] *)
Definition field (key : string) : jsstring :=
  JSText.or_string (default [] (input (lit key))) [].

(** [path.split('/').pop() || path] *)
Definition file_name (path : jsstring) : jsstring :=
  JSText.or_string (default [] (last (JSText.split JSText.slash path))) path.

Definition formatToolInput (toolName : jsstring) : jsstring :=
  if bool_decide (toolName = lit "Bash") then field "command"
  else if bool_decide (toolName = lit "Read")
          || bool_decide (toolName = lit "Write")
          || bool_decide (toolName = lit "Edit")
  then file_name (field "file_path")
  else if bool_decide (toolName = lit "Glob") then field "pattern"
  else if bool_decide (toolName = lit "Grep") then field "pattern"
  else if bool_decide (toolName = lit "WebSearch") then field "query"
  else if bool_decide (toolName = lit "WebFetch") then
    let url := field "url" in
    match URL_hostname url with
    | Some hostname => hostname
    | None => take 30 url
    end
  else [].

(** [truncateText(text, maxLength)]; the ellipsis is U+2026. *)
Definition truncateText (text : jsstring) (maxLength : nat) : jsstring :=
  if (length text <=? maxLength)%nat then text
  else take maxLength text ++ [0x2026].

(** What the card shows after the tool name, if anything. *)
Definition shown_preview (toolName : jsstring) : option jsstring :=
  let inputPreview := formatToolInput toolName in
  if truthy inputPreview then Some (truncateText inputPreview 40) else None.

End Preview.

End ToolUseCard.

(** ** The chat list: api.ts, ChatSearchDialog.tsx and useChatList.ts *)

Module Api.

(** [interface Chat] *)
Record Chat := {
  id : jsstring;
  title : jsstring;
  created_at : jsstring;
  updated_at : jsstring;
}.

End Api.

Module ChatSearchDialog.

Import Api.

Record Group := {
  label : jsstring;
  chats : list Chat;
}.

(** ['今天'], ['昨天'], ['前 7 天'], ['前 30 天'], ['更早'] *)
Definition labels : list jsstring :=
  [[0x4eca; 0x5929]; [0x6628; 0x5929]; [0x524d; 0x20; 0x37; 0x20; 0x5929];
   [0x524d; 0x20; 0x33; 0x30; 0x20; 0x5929]; [0x66f4; 0x65e9]].

Definition day : Z := (24 * 60 * 60 * 1000)%Z.

Section Groups.

(** [new Date(s)] as milliseconds, [None] for an invalid date. *)
Variable Date_parse : jsstring -> option Z.

(** [today.getTime()], local midnight. *)
Variable today : Z.

(** [chatDate >= bound]; a comparison with an invalid date is false. *)
Definition on_or_after (chat : Chat) (bound : Z) : bool :=
  match Date_parse (updated_at chat) with
  | Some chatDate => (bound <=? chatDate)%Z
  | None => false
  end.

(** The index of the group that the loop pushes [chat] to. *)
Definition group_index (chat : Chat) : nat :=
  if on_or_after chat today then 0%nat
  else if on_or_after chat (today - day)%Z then 1%nat
  else if on_or_after chat (today - 7 * day)%Z then 2%nat
  else if on_or_after chat (today - 30 * day)%Z then 3%nat
  else 4%nat.

(** [groups[i].chats.push(chat)] *)
Definition push (groups : list Group) (chat : Chat) : list Group :=
  alter (fun g => {| label := label g; chats := chats g ++ [chat] |})
    (group_index chat) groups.

Definition empty_groups : list Group :=
  (fun l => {| label := l; chats := [] |}) <$> labels.

(** [groupChatsByDate(chats)] *)
Definition groupChatsByDate (all : list Chat) : list Group :=
  filter (fun g => (0 < length (chats g))%nat) (foldl push empty_groups all).

End Groups.

End ChatSearchDialog.

Module UseChatList.

Import Api.

Record t := {
  chats : list Chat;
  currentChatId : option jsstring;
  highlightMessageId : option jsstring;
  isLoading : bool;
  error : option jsstring;
  (* [localStorage] under [CURRENT_CHAT_KEY] *)
  stored : option jsstring;
}.

(** The state of the first render: [currentChatId] is read from
    [localStorage]. *)
Definition first_render (saved : option jsstring) : t :=
  {| chats := []; currentChatId := saved; highlightMessageId := None;
     isLoading := true; error := None; stored := saved |}.

Definition setChats (f : list Chat -> list Chat) (s : t) : t :=
  {| chats := f (chats s); currentChatId := currentChatId s;
     highlightMessageId := highlightMessageId s; isLoading := isLoading s;
     error := error s; stored := stored s |}.

Definition setCurrentChatId (v : option jsstring) (s : t) : t :=
  {| chats := chats s; currentChatId := v;
     highlightMessageId := highlightMessageId s; isLoading := isLoading s;
     error := error s; stored := stored s |}.

Definition setHighlightMessageId (v : option jsstring) (s : t) : t :=
  {| chats := chats s; currentChatId := currentChatId s;
     highlightMessageId := v; isLoading := isLoading s;
     error := error s; stored := stored s |}.

Definition setIsLoading (v : bool) (s : t) : t :=
  {| chats := chats s; currentChatId := currentChatId s;
     highlightMessageId := highlightMessageId s; isLoading := v;
     error := error s; stored := stored s |}.

Definition setError (v : option jsstring) (s : t) : t :=
  {| chats := chats s; currentChatId := currentChatId s;
     highlightMessageId := highlightMessageId s; isLoading := isLoading s;
     error := v; stored := stored s |}.

(** [localStorage.setItem] and [localStorage.removeItem] for the key. *)
Definition set_stored (v : option jsstring) (s : t) : t :=
  {| chats := chats s; currentChatId := currentChatId s;
     highlightMessageId := highlightMessageId s; isLoading := isLoading s;
     error := error s; stored := v |}.

(** The effect that saves [currentChatId]. *)
Definition save_effect (s : t) : t :=
  if truthy_ref (currentChatId s) then set_stored (currentChatId s) s
  else set_stored None s.

(** [chats.some(chat => chat.id === currentChatId)] *)
Definition chatExists (c : jsstring) (s : t) : bool :=
  existsb (fun chat => bool_decide (id chat = c)) (chats s).

(** The effect that validates [currentChatId] once the list is loaded. *)
Definition validate_effect (s : t) : t :=
  match currentChatId s with
  | Some c =>
      if negb (isLoading s) && truthy c then
        if negb (chatExists c s)
        then set_stored None (setCurrentChatId None s)
        else s
      else s
  | None => s
  end.

(** What the callbacks of the hook do to the state.  A callback that
    awaits the server is split at the [await]: its start, and its end
    with what the server answered.  [Deleted] carries the
    [currentChatId] that [deleteChat] closed over when it was called;
    [Loaded] carries the list as [sort] left it. *)
Inductive event :=
| RefreshStarts
| Loaded (chatList : list Chat)
| RefreshFailed (message : jsstring)
| SelectChat (chatId : jsstring) (messageId : option jsstring)
| ClearHighlight
| ClearCurrentChat
| CallStarts
| Created (newChat : Chat) (autoSelect : bool)
| Deleted (chatId : jsstring) (closed_over : option jsstring)
| TitleUpdated (chatId title : jsstring)
| CallFailed (message : jsstring).

Definition set_title (v : jsstring) (chat : Chat) : Chat :=
  {| id := id chat; title := v; created_at := created_at chat;
     updated_at := updated_at chat |}.

(** The state updates of one event; the flag tells whether [setChats]
    was called, which gives [chats] a new identity. *)
Definition update (s : t) (e : event) : t * bool :=
  match e with
  | RefreshStarts => (setError None (setIsLoading true s), false)
  | Loaded chatList => (setIsLoading false (setChats (fun _ => chatList) s), true)
  | RefreshFailed message =>
      (setIsLoading false (setError (Some message) s), false)
  | SelectChat chatId messageId =>
      (setHighlightMessageId
         (match messageId with
          | Some m => if truthy m then Some m else None
          | None => None
          end)
         (setCurrentChatId (Some chatId) s), false)
  | ClearHighlight => (setHighlightMessageId None s, false)
  | ClearCurrentChat => (set_stored None (setCurrentChatId None s), false)
  | CallStarts => (setError None s, false)
  | Created newChat autoSelect =>
      let s := setChats (fun prev => newChat :: prev) s in
      (if autoSelect then setCurrentChatId (Some (id newChat)) s else s, true)
  | Deleted chatId closed_over =>
      let s := setChats (filter (fun chat => id chat <> chatId)) s in
      (if bool_decide (closed_over = Some chatId)
       then setCurrentChatId None s else s, true)
  | TitleUpdated chatId title =>
      (setChats
         (fmap (fun chat =>
                  if bool_decide (id chat = chatId) then set_title title chat
                  else chat)) s, true)
  | CallFailed message => (setError (Some message) s, false)
  end.

(** The effects of the render that follows a change from [prev] to [s]:
    each runs when one of its dependencies changed. *)
Definition effects (prev s : t) (chats_set : bool) : t :=
  let s1 :=
    if bool_decide (currentChatId s = currentChatId prev) then s
    else save_effect s in
  if chats_set
     || negb (bool_decide (isLoading s = isLoading prev))
     || negb (bool_decide (currentChatId s = currentChatId prev))
  then validate_effect s1 else s1.

(** One event, rendered until nothing changes: the validation may clear
    [currentChatId], which causes one more render. *)
Definition step (s : t) (e : event) : t :=
  let '(s1, chats_set) := update s e in
  let s2 := effects s s1 chats_set in
  effects s1 s2 false.

(** The mount: every effect runs once, in the order of the source; the
    second one starts [refreshChats]. *)
Definition mount (saved : option jsstring) : t :=
  let s := first_render saved in
  let s := save_effect s in
  let s := setError None (setIsLoading true s) in
  let s1 := validate_effect s in
  effects s s1 false.

Definition run (saved : option jsstring) (es : list event) : t :=
  foldl step (mount saved) es.

(** [localStorage] holds the selection. *)
Definition saved_selection (s : t) : Prop :=
  stored s = if truthy_ref (currentChatId s) then currentChatId s else None.

(** The selection names a chat of the list. *)
Definition valid_selection (s : t) : Prop :=
  forall c, currentChatId s = Some c -> truthy c = true ->
    c ∈ (id <$> chats s).

(** What holds between renders. *)
Definition settled (s : t) : Prop :=
  saved_selection s /\ (isLoading s = false -> valid_selection s).

End UseChatList.

(** ** The connection indicator: useConnection.ts

    [class ConnectionManager], the second singleton, which feeds the
    connection indicator of the sidebar.  It keeps its own flag
    [_isConnected]; listeners and sockets are named as in
    [SocketLifecycle]. *)

Module ConnectionManager.

Local Open Scope nat_scope.

Record t := {
  sockets : list ReadyState;
  ws : option nat;
  listeners : list nat;
  reconnectTimer : bool;
  isConnecting : bool;
  _isConnected : bool;
  (* the pending 100 ms timeouts of [removeListener] *)
  removal_checks : nat;
  (* calls made to the listeners, oldest first *)
  listener_calls : list (nat * bool);
}.

Definition initial : t :=
  {| sockets := []; ws := None; listeners := []; reconnectTimer := false;
     isConnecting := false; _isConnected := false; removal_checks := 0;
     listener_calls := [] |}.

Definition ws_readyState (s : t) : option ReadyState :=
  match ws s with
  | Some k => sockets s !! k
  | None => None
  end.

(** [get isConnected()] *)
Definition isConnected (s : t) : bool := _isConnected s.

Definition set_sockets (v : list ReadyState) (s : t) : t :=
  {| sockets := v; ws := ws s; listeners := listeners s;
     reconnectTimer := reconnectTimer s; isConnecting := isConnecting s;
     _isConnected := _isConnected s; removal_checks := removal_checks s;
     listener_calls := listener_calls s |}.

Definition set_ws (v : option nat) (s : t) : t :=
  {| sockets := sockets s; ws := v; listeners := listeners s;
     reconnectTimer := reconnectTimer s; isConnecting := isConnecting s;
     _isConnected := _isConnected s; removal_checks := removal_checks s;
     listener_calls := listener_calls s |}.

Definition set_listeners (v : list nat) (s : t) : t :=
  {| sockets := sockets s; ws := ws s; listeners := v;
     reconnectTimer := reconnectTimer s; isConnecting := isConnecting s;
     _isConnected := _isConnected s; removal_checks := removal_checks s;
     listener_calls := listener_calls s |}.

Definition set_reconnectTimer (v : bool) (s : t) : t :=
  {| sockets := sockets s; ws := ws s; listeners := listeners s;
     reconnectTimer := v; isConnecting := isConnecting s;
     _isConnected := _isConnected s; removal_checks := removal_checks s;
     listener_calls := listener_calls s |}.

Definition set_isConnecting (v : bool) (s : t) : t :=
  {| sockets := sockets s; ws := ws s; listeners := listeners s;
     reconnectTimer := reconnectTimer s; isConnecting := v;
     _isConnected := _isConnected s; removal_checks := removal_checks s;
     listener_calls := listener_calls s |}.

Definition set_isConnected (v : bool) (s : t) : t :=
  {| sockets := sockets s; ws := ws s; listeners := listeners s;
     reconnectTimer := reconnectTimer s; isConnecting := isConnecting s;
     _isConnected := v; removal_checks := removal_checks s;
     listener_calls := listener_calls s |}.

Definition set_removal_checks (v : nat) (s : t) : t :=
  {| sockets := sockets s; ws := ws s; listeners := listeners s;
     reconnectTimer := reconnectTimer s; isConnecting := isConnecting s;
     _isConnected := _isConnected s; removal_checks := v;
     listener_calls := listener_calls s |}.

Definition call (l : nat) (connected : bool) (s : t) : t :=
  {| sockets := sockets s; ws := ws s; listeners := listeners s;
     reconnectTimer := reconnectTimer s; isConnecting := isConnecting s;
     _isConnected := _isConnected s; removal_checks := removal_checks s;
     listener_calls := listener_calls s ++ [(l, connected)] |}.

(** [private notifyListeners(connected)] *)
Definition notifyListeners (connected : bool) (s : t) : t :=
  foldl (fun s l => call l connected s) s (listeners s).

(** [connect()] *)
Definition connect (s : t) : t :=
  if bool_decide (ws_readyState s = Some OPEN) then s
  else if bool_decide (ws_readyState s = Some CONNECTING) then s
  else if isConnecting s then s
  else
    let s := set_isConnecting true s in
    let ws := length (sockets s) in
    set_ws (Some ws) (set_sockets (sockets s ++ [CONNECTING]) s).

(** [private scheduleReconnect()] and the callback of its timeout. *)
Definition scheduleReconnect (s : t) : t :=
  if reconnectTimer s then s
  else if bool_decide (length (listeners s) = 0) then s
  else set_reconnectTimer true s.

Definition reconnect_timeout (s : t) : t :=
  let s := set_reconnectTimer false s in
  if bool_decide (0 < length (listeners s)) then connect s else s.

(** [ws.close()] on socket [k] *)
Definition close (k : nat) (s : t) : t :=
  set_sockets
    (alter
       (fun r => match r with
                 | CONNECTING | OPEN => CLOSING
                 | CLOSING | CLOSED => r
                 end) k (sockets s)) s.

(** [disconnect()] *)
Definition disconnect (s : t) : t :=
  let s := if reconnectTimer s then set_reconnectTimer false s else s in
  match ws s with
  | Some k => set_ws None (close k s)
  | None => s
  end.

(** [addListener(listener)] *)
Definition addListener (l : nat) (s : t) : t :=
  let s :=
    set_listeners (SocketLifecycle.set_add l (listeners s)) s in
  let s := call l (_isConnected s) s in
  if bool_decide (length (listeners s) = 1) then connect s else s.

(** [removeListener(listener)] and the callback of its timeout. *)
Definition removeListener (l : nat) (s : t) : t :=
  let s :=
    set_listeners (SocketLifecycle.set_delete l (listeners s)) s in
  set_removal_checks (S (removal_checks s)) s.

Definition removal_timeout (s : t) : t :=
  if bool_decide (length (listeners s) = 0) then disconnect s else s.

(** [ws.onopen], [ws.onerror], [ws.onclose] *)
Definition onopen (s : t) : t :=
  notifyListeners true (set_isConnected true (set_isConnecting false s)).

Definition onerror (s : t) : t :=
  notifyListeners false (set_isConnected false (set_isConnecting false s)).

Definition onclose (s : t) : t :=
  scheduleReconnect
    (notifyListeners false
       (set_ws None (set_isConnected false (set_isConnecting false s)))).

Inductive event :=
| AddListener (l : nat)
| RemoveListener (l : nat)
| RemovalTimeout
| ReconnectTimeout
| Opened (k : nat)
| Failed (k : nat)
| Closed (k : nat)
| Closing (k : nat).

Definition set_readyState (k : nat) (r : ReadyState) (s : t) : t :=
  set_sockets (alter (fun _ => r) k (sockets s)) s.

(** One event, under the conventions of [SocketLifecycle.step]. *)
Definition step (s : t) (e : event) : t :=
  match e with
  | AddListener l => addListener l s
  | RemoveListener l => removeListener l s
  | RemovalTimeout =>
      match removal_checks s with
      | S n => removal_timeout (set_removal_checks n s)
      | O => s
      end
  | ReconnectTimeout => if reconnectTimer s then reconnect_timeout s else s
  | Opened k =>
      if bool_decide (sockets s !! k = Some CONNECTING)
      then onopen (set_readyState k OPEN s) else s
  | Failed k =>
      match sockets s !! k with
      | Some CONNECTING | Some OPEN | Some CLOSING => onerror s
      | Some CLOSED | None => s
      end
  | Closed k =>
      match sockets s !! k with
      | Some CONNECTING | Some OPEN | Some CLOSING =>
          onclose (set_readyState k CLOSED s)
      | Some CLOSED | None => s
      end
  | Closing k =>
      if bool_decide (sockets s !! k = Some OPEN)
      then set_readyState k CLOSING s else s
  end.

Definition run (es : list event) (s : t) : t := foldl step s es.

(** What the hook of listener [l] shows: the argument of the last call
    to its [handleStatus]. *)
Definition shown (l : nat) (s : t) : option bool :=
  last (omap (fun '(l', connected) =>
                if bool_decide (l' = l) then Some connected else None)
          (listener_calls s)).

(** Every listener shows the flag of the manager. *)
Definition indicators_agree (s : t) : Prop :=
  forall l, l ∈ listeners s -> shown l s = Some (_isConnected s).

(** Some socket has opened and has not reported its close. *)
Definition some_socket_opened (s : t) : Prop :=
  exists k, sockets s !! k = Some OPEN \/ sockets s !! k = Some CLOSING.

End ConnectionManager.

(** ** Sample inputs *)

(** A cache holding one loading chat. *)
Definition one_chat_store : CacheStore :=
  {| sessionCacheMap :=
       {[ lit "chat-a" :=
            {| messages := []; c_isStreaming := false;
               streamingMessageId := None; isLoading := true |} ]};
     notified := 0 |}.

Definition now_streaming : PartialSessionCache :=
  {| p_messages := None; p_isStreaming := Some true;
     p_streamingMessageId := Some (Some (lit "17")); p_isLoading := None |}.

(** A serializer that keeps the frame type only. *)
Definition type_tag (data : json) : jsstring :=
  match data with
  | JObj ((_, JStr tag) :: _) => tag
  | _ => []
  end.

(** A hook subscribed to one chat whose socket has closed. *)
Definition offline_world : World :=
  {| store := {| sessionCacheMap := ∅; notified := 0 |};
     wsManager :=
       {| WebSocketManager.ws :=
            Some {| readyState := CLOSED; transmitted := [] |} |};
     st_messages := [];
     currentChatIdRef := Some (lit "chat-a");
     streamingMessageIdRef := None;
     pendingMessageRef := None;
     optionsRef := {| onError := true |};
     calls := [] |}.

Definition online_manager : WebSocketManager.t :=
  {| WebSocketManager.ws := Some {| readyState := OPEN; transmitted := [] |} |}.

(** A tab, two spaces and an ideographic space. *)
Definition blank_input : jsstring := [0x09; 0x20; 0x20; 0x3000].



(** The interrupted task keeps emitting and never returns by itself;
    cancelled, it unwinds in 20 ms. *)
Definition stuck_upstream : AgentSession.suspension N :=
  {| AgentSession.arrivals := [(1%Z, 12); (1%Z, 13)];
     AgentSession.exit_after := None;
     AgentSession.cancellation := 20 |}.





Definition streaming_session : AgentSession.t N :=
  {| AgentSession._query_id := 3; AgentSession._active_query_id := Some 3%Z;
     AgentSession._cancelled := false; AgentSession._current_task := Some 3%Z;
     AgentSession._message_queue := [7] |}.


(** A hub with one connection attached and nothing streaming. *)
Definition quiet_hub : ConnectionHub.t :=
  {| ConnectionHub.conversation := lit "chat-a";
     ConnectionHub.outbox := {[ 1%nat := [ConnectionHub.History] ]};
     ConnectionHub.partial_text := None |}.

Definition two_deltas : list ConnectionHub.op :=
  [ConnectionHub.Broadcast (ConnectionHub.TextDelta (lit "Hel"));
   ConnectionHub.Attach 3;
   ConnectionHub.Broadcast (ConnectionHub.TextDelta (lit "lo"))].

(** Two callers race for the first session of a chat. *)
Definition racing_first_access : list SessionRegistry.event :=
  [SessionRegistry.Call 0 (lit "chat-a"); SessionRegistry.Call 1 (lit "chat-a");
   SessionRegistry.Step 1; SessionRegistry.Step 0; SessionRegistry.Step 1;
   SessionRegistry.Step 0; SessionRegistry.Step 1; SessionRegistry.Step 0;
   SessionRegistry.Step 0].

Definition all_callbacks : UseChat.Callbacks :=
  {| UseChat.onToolUse := true; UseChat.onToolResult := true;
     UseChat.onToolHistory := true; UseChat.onResult := true;
     UseChat.onDisconnect := true |}.

(** The hook of [offline_world], showing chat-a with nothing in it. *)
Definition offline_hook : UseChat.t N :=
  {| UseChat.world := offline_world; UseChat.messagesRef := [];
     UseChat.skipNextChatIdChangeRef := false;
     UseChat.prevChatIdRef := Some (lit "chat-a");
     UseChat.isConnected := false; UseChat.isClearing := false;
     UseChat.callbacks := all_callbacks; UseChat.hook_calls := [] |}.

(** The same hook with its socket open. *)
Definition online_hook : UseChat.t N :=
  UseChat.with_world (set_wsManager online_manager)
    (UseChat.setIsConnected true offline_hook).

(** Two deltas of a reply in chat-b. *)
Definition hel_lo : list Arrival :=
  [{| at_now := 6; at_date := 6; frame := text_delta (lit "chat-b") (lit "Hel") |};
   {| at_now := 7; at_date := 7; frame := text_delta (lit "chat-b") (lit "lo") |}].

Definition question : Message :=
  {| id := lit "1"; role := user; content := lit "hi"; timestamp := 1;
     images := None; isStreaming := None |}.

Definition half_reply : StreamingState :=
  {| is_streaming := true; current_content := Some (lit "Hel") |}.

(** Two tools are announced, the first one finishes, the socket drops. *)
Definition read_then_grep : list ChatContainer.ToolEvent :=
  [ChatContainer.ToolUse (lit "Read") (lit "t1") JNull 3;
   ChatContainer.ToolUse (lit "Grep") (lit "t2") JNull 4;
   ChatContainer.ToolResulted (lit "t1") (Some (lit "ok")) false;
   ChatContainer.Disconnected].

(** A stand-in for the parsing of stored time stamps. *)
Definition stamp_length (s : jsstring) : N := N.of_nat (length s).

Definition grep_pending : ChatContainer.Tools :=
  ChatContainer.onToolUse (lit "Grep") (lit "t2") JNull 4
    ChatContainer.no_tools.

(** The first message of a new chat. *)
Definition first_words : PendingMessage :=
  {| pm_content := lit " hi "; pm_images := None |}.

(** A manager with one listener and one status listener whose socket
    has opened. *)
Definition mounted : SocketLifecycle.t N :=
  {| SocketLifecycle.sockets := [{| readyState := OPEN; transmitted := [] |}];
     SocketLifecycle.ws := Some 0%nat;
     SocketLifecycle.listeners := [1%nat];
     SocketLifecycle.statusListeners := [1%nat];
     SocketLifecycle.reconnectTimer := false;
     SocketLifecycle.isConnecting := false;
     SocketLifecycle.removal_checks := 0%nat;
     SocketLifecycle.status_calls := [(1%nat, false); (1%nat, true)];
     SocketLifecycle.listener_calls := [] |}.

(** The input of a Read call, and a page without [URL]. *)
Definition read_main (key : jsstring) : option jsstring :=
  if bool_decide (key = lit "file_path") then Some (lit "/src/app/main.ts")
  else None.

Definition no_hostname (url : jsstring) : option jsstring := None.

(** A loaded list of two chats with the second one selected. *)
Definition two_chats : UseChatList.t :=
  {| UseChatList.chats :=
       [{| Api.id := lit "chat-a"; Api.title := lit "A";
           Api.created_at := lit "2025-01-01"; Api.updated_at := lit "2025-01-02" |};
        {| Api.id := lit "chat-b"; Api.title := lit "B";
           Api.created_at := lit "2025-01-01"; Api.updated_at := lit "2025-01-01" |}];
     UseChatList.currentChatId := Some (lit "chat-b");
     UseChatList.highlightMessageId := None;
     UseChatList.isLoading := false;
     UseChatList.error := None;
     UseChatList.stored := Some (lit "chat-b") |}.

(** A connection manager with one indicator mounted and its socket
    open. *)
Definition indicator_on : ConnectionManager.t :=
  {| ConnectionManager.sockets := [OPEN];
     ConnectionManager.ws := Some 0%nat;
     ConnectionManager.listeners := [1%nat];
     ConnectionManager.reconnectTimer := false;
     ConnectionManager.isConnecting := false;
     ConnectionManager._isConnected := true;
     ConnectionManager.removal_checks := 0%nat;
     ConnectionManager.listener_calls := [(1%nat, false); (1%nat, true)] |}.

(** * Properties *)

(** ** The session cache *)

Lemma updateSessionCache_lookup_self chatId updates st :
  sessionCacheMap (updateSessionCache chatId updates st) !! chatId
  = Some (spread (default default_cache (sessionCacheMap st !! chatId)) updates).
Proof.
  unfold updateSessionCache.
  destruct (sessionCacheMap st !! chatId) as [c|]; simpl;
    apply lookup_insert_eq.
Qed.

Lemma updateSessionCache_lookup_other chatId other updates st :
  other ≠ chatId ->
  sessionCacheMap (updateSessionCache chatId updates st) !! other
  = sessionCacheMap st !! other.
Proof.
  intros Hne. unfold updateSessionCache.
  destruct (sessionCacheMap st !! chatId) as [c|]; simpl;
    by apply lookup_insert_ne.
Qed.

(** C10. updateSessionCache(chatId, updates) touches only the entry keyed
    by chatId: an existing entry becomes that entry merged with the updates
    (fields present in the updates win, the others are kept), a missing
    entry becomes the default entry (no messages, not streaming, no
    streaming id, not loading) merged with the updates, and the entry of
    every other chat id is what it was. *)
Theorem updateSessionCache_frame chatId updates st :
  let st' := updateSessionCache chatId updates st in
  (forall existing, sessionCacheMap st !! chatId = Some existing ->
     sessionCacheMap st' !! chatId = Some (spread existing updates))
  /\ (sessionCacheMap st !! chatId = None ->
      sessionCacheMap st' !! chatId = Some (spread default_cache updates))
  /\ (forall other, other ≠ chatId ->
      sessionCacheMap st' !! other = sessionCacheMap st !! other).
Proof.
  cbn zeta. split; [|split].
  - intros existing He. rewrite updateSessionCache_lookup_self, He. done.
  - intros He. rewrite updateSessionCache_lookup_self, He. done.
  - intros other Hne. by apply updateSessionCache_lookup_other.
Qed.

Lemma updateSessionCache_frame_witness :
  sessionCacheMap (updateSessionCache (lit "chat-a") now_streaming one_chat_store)
    !! lit "chat-a"
  = Some {| messages := []; c_isStreaming := true;
            streamingMessageId := Some (lit "17"); isLoading := true |}
  /\ sessionCacheMap (updateSessionCache (lit "chat-b") now_streaming one_chat_store)
       !! lit "chat-b"
     = Some {| messages := []; c_isStreaming := true;
               streamingMessageId := Some (lit "17"); isLoading := false |}
  /\ sessionCacheMap (updateSessionCache (lit "chat-b") now_streaming one_chat_store)
       !! lit "chat-a"
     = sessionCacheMap one_chat_store !! lit "chat-a".
Proof.
  split; [|split].
  - destruct (updateSessionCache_frame (lit "chat-a") now_streaming one_chat_store)
      as [Hmerge _].
    exact (Hmerge _ eq_refl).
  - destruct (updateSessionCache_frame (lit "chat-b") now_streaming one_chat_store)
      as (_ & Hfresh & _).
    exact (Hfresh eq_refl).
  - destruct (updateSessionCache_frame (lit "chat-b") now_streaming one_chat_store)
      as (_ & _ & Hother).
    apply Hother. vm_compute. discriminate.
Defined.

(** ** JavaScript strings *)

Lemma trimStart_whitespace s :
  forallb isWhiteSpace s = true -> trimStart s = [].
Proof.
  induction s as [|c s IH]; simpl; [done|].
  destruct (isWhiteSpace c); simpl; [exact IH | discriminate].
Qed.

Lemma trim_whitespace s : forallb isWhiteSpace s = true -> trim s = [].
Proof.
  intros Hws. unfold trim. rewrite (trimStart_whitespace s Hws). reflexivity.
Qed.

Lemma truthy_lit_cons a s : truthy (lit (String a s)) = true.
Proof. reflexivity. Qed.

Lemma string_of_uint_nonempty d :
  d <> Decimal.Nil -> NilEmpty.string_of_uint d <> EmptyString.
Proof. destruct d; simpl; congruence. Qed.

Lemma Date_now_toString_truthy now : truthy (Date_now_toString now) = true.
Proof.
  unfold Date_now_toString.
  assert (Hnn : N.to_uint now <> Decimal.Nil).
  { destruct now as [|p]; simpl; [discriminate|].
    apply DecimalPos.Unsigned.to_uint_nonnil. }
  apply string_of_uint_nonempty in Hnn.
  destruct (NilEmpty.string_of_uint (N.to_uint now)); [done|].
  apply truthy_lit_cons.
Qed.

(** ** The socket manager and sendMessage *)

Section ClientFacts.

Variable JSON_stringify : json -> jsstring.

Lemma send_result (data : json) (m : WebSocketManager.t) :
  snd (WebSocketManager.send JSON_stringify data m)
  = WebSocketManager.isConnected m.
Proof.
  unfold WebSocketManager.send, WebSocketManager.isConnected.
  destruct (WebSocketManager.ws m) as [sock|]; [|done].
  by destruct (bool_decide (readyState sock = OPEN)).
Qed.

Lemma send_disconnected (data : json) (m : WebSocketManager.t) :
  WebSocketManager.isConnected m = false ->
  WebSocketManager.send JSON_stringify data m = (m, false).
Proof.
  unfold WebSocketManager.send, WebSocketManager.isConnected.
  destruct (WebSocketManager.ws m) as [sock|]; [|done].
  by intros ->.
Qed.

Lemma send_connected (data : json) (m : WebSocketManager.t) :
  WebSocketManager.isConnected m = true ->
  WebSocketManager.wire (fst (WebSocketManager.send JSON_stringify data m))
  = WebSocketManager.wire m ++ [JSON_stringify data].
Proof.
  unfold WebSocketManager.send, WebSocketManager.isConnected,
    WebSocketManager.wire.
  destruct (WebSocketManager.ws m) as [sock|]; [|done].
  by intros ->.
Qed.

Lemma isConnected_open (m : WebSocketManager.t) :
  WebSocketManager.isConnected m = true
  <-> exists sock, WebSocketManager.ws m = Some sock /\ readyState sock = OPEN.
Proof.
  unfold WebSocketManager.isConnected.
  destruct (WebSocketManager.ws m) as [sock|].
  - rewrite bool_decide_eq_true. split; [eauto|].
    intros (sock' & [= <-] & Hopen). exact Hopen.
  - split; [done|]. intros (sock & [=] & _).
Qed.

(** C9. WebSocketManager.send(data) returns true exactly when the socket
    exists and is OPEN, and then the wire gains the serialized frame and
    nothing else; with no socket, or a socket that is connecting, closing
    or closed, the manager is unchanged (nothing is transmitted) and the
    result is false.  sendMessage on such a manager, for a submit that
    passes its guard, transmits nothing, leaves the chat's cache entry
    with isLoading false, and calls onError (when supplied) with the
    not-connected message. *)
Theorem send_requires_open_socket (data : json) (m : WebSocketManager.t) :
  (snd (WebSocketManager.send JSON_stringify data m) = true
   <-> exists sock, WebSocketManager.ws m = Some sock /\ readyState sock = OPEN)
  /\ (snd (WebSocketManager.send JSON_stringify data m) = true ->
      WebSocketManager.wire (fst (WebSocketManager.send JSON_stringify data m))
      = WebSocketManager.wire m ++ [JSON_stringify data])
  /\ (snd (WebSocketManager.send JSON_stringify data m) = false ->
      fst (WebSocketManager.send JSON_stringify data m) = m)
  /\ forall isStreaming now now_ts content images skipLocalMessage w activeChatId,
      (forall sock, WebSocketManager.ws (wsManager w) = Some sock ->
                    readyState sock <> OPEN) ->
      truthy (trim content) = true \/ no_images images = false ->
      currentChatIdRef w = Some activeChatId ->
      truthy activeChatId = true ->
      let w' := sendMessage JSON_stringify isStreaming now now_ts content
                  images skipLocalMessage w in
      wsManager w' = wsManager w
      /\ isLoading <$> (sessionCacheMap (store w') !! activeChatId) = Some false
      /\ calls w' = calls w ++ (if onError (optionsRef w)
                                then [CallOnError not_connected_error]
                                else []).
Proof.
  rewrite send_result. split; [apply isConnected_open|].
  split; [apply send_connected|].
  split; [intros Hd; by rewrite send_disconnected|].
  intros isStreaming now now_ts content images skip w cid Hclosed Hguard Hcid Hid.
  assert (Hd : WebSocketManager.isConnected (wsManager w) = false).
  { destruct (WebSocketManager.isConnected (wsManager w)) eqn:Hc; [|done].
    apply isConnected_open in Hc as (sock & Hsock & Hopen).
    by destruct (Hclosed sock Hsock). }
  cbn zeta. unfold sendMessage. rewrite Hcid, Hid.
  replace (negb (truthy (trim content)) && no_images images) with false
    by (destruct Hguard as [-> | ->]; [done | by rewrite andb_false_r]).
  simpl orb. cbv iota.
  set (w1 := if isStreaming then _ else _).
  set (w2 := if negb skip then _ else _).
  set (w3 := with_store _ w2).
  assert (Hws : wsManager w3 = wsManager w).
  { subst w3 w2 w1. destruct isStreaming, skip; reflexivity. }
  assert (Hcalls : calls w3 = calls w).
  { subst w3 w2 w1. destruct isStreaming, skip; reflexivity. }
  assert (Hopt : optionsRef w3 = optionsRef w).
  { subst w3 w2 w1. destruct isStreaming, skip; reflexivity. }
  rewrite Hws, send_disconnected by exact Hd.
  unfold call_onError. cbn [optionsRef set_pendingMessageRef with_store set_wsManager].
  rewrite Hopt.
  destruct (onError (optionsRef w));
    cbn [wsManager store calls set_pendingMessageRef with_store set_wsManager];
    rewrite updateSessionCache_lookup_self, Hcalls, ?app_nil_r; done.
Qed.

(** C7. A submit whose text is empty or all whitespace and which carries
    no image is dropped on the spot: [sendMessage] returns with the hook
    state, the cache and the socket as they were, so no frame goes out
    and the backend is never asked to allocate a query; [handleSend] of
    the input box does not even call [onSend], and keeps its state. *)
Theorem empty_submit_rejected (content : jsstring)
    (images : option (list MessageImage)) :
  forallb isWhiteSpace content = true ->
  no_images images = true ->
  (forall isStreaming now now_ts skipLocalMessage w,
     let w' := sendMessage JSON_stringify isStreaming now now_ts content
                 images skipLocalMessage w in
     w' = w
     /\ WebSocketManager.wire (wsManager w') = WebSocketManager.wire (wsManager w))
  /\ (forall disabled,
        let c := {| ChatInput.input := content; ChatInput.ci_images := [];
                    ChatInput.disabled := disabled |} in
        ChatInput.onSend_args c = None /\ ChatInput.handleSend c = c).
Proof.
  intros Hws Himg. split.
  - intros isStreaming now now_ts skip w. cbn zeta.
    assert (Hsame : sendMessage JSON_stringify isStreaming now now_ts content
                      images skip w = w).
    { unfold sendMessage. destruct (currentChatIdRef w) as [cid|]; [|done].
      by rewrite (trim_whitespace content Hws), Himg. }
    by rewrite Hsame.
  - intros disabled. cbn zeta.
    assert (Hargs : ChatInput.onSend_args
                      {| ChatInput.input := content; ChatInput.ci_images := [];
                         ChatInput.disabled := disabled |} = None).
    { unfold ChatInput.onSend_args. simpl.
      by rewrite (trim_whitespace content Hws). }
    split; [exact Hargs|]. unfold ChatInput.handleSend. by rewrite Hargs.
Qed.

End ClientFacts.

Lemma send_requires_open_socket_witness :
  (WebSocketManager.wire
     (fst (WebSocketManager.send type_tag
             (messageData (lit "chat-a") (lit "hi") None) online_manager))
   = [lit "chat"])
  /\ (let w' := sendMessage type_tag false 5 5 (lit "hi") None false
                  offline_world in
      wsManager w' = wsManager offline_world
      /\ isLoading <$> (sessionCacheMap (store w') !! lit "chat-a") = Some false
      /\ calls w' = [CallOnError not_connected_error]).
Proof.
  split.
  - destruct (send_requires_open_socket type_tag
                (messageData (lit "chat-a") (lit "hi") None) online_manager)
      as (_ & Hwire & _).
    apply Hwire. reflexivity.
  - destruct (send_requires_open_socket type_tag JNull
                (wsManager offline_world)) as (_ & _ & _ & Hoffline).
    apply (Hoffline false 5 5 (lit "hi") None false offline_world (lit "chat-a")).
    + intros sock [= <-]. discriminate.
    + left. reflexivity.
    + reflexivity.
    + reflexivity.
Defined.

Lemma empty_submit_rejected_witness :
  sendMessage type_tag false 5 5 blank_input (Some []) false offline_world
  = offline_world
  /\ ChatInput.onSend_args
       {| ChatInput.input := blank_input; ChatInput.ci_images := [];
          ChatInput.disabled := false |} = None.
Proof.
  destruct (empty_submit_rejected type_tag blank_input (Some []))
    as [Hhook Hbox]; [reflexivity | reflexivity |].
  split.
  - apply (Hhook false 5 5 false offline_world).
  - apply (Hbox false).
Defined.

(** ** The agent session: the draining filter *)

Section AgentSessionFacts.

Import AgentSession.

Context {message : Type}.

Implicit Types (s : AgentSession.t message) (sys : system message)
  (env : suspension message) (a : action message) (m : message) (q : Z).

Lemma _run_query_control q m s : control (_run_query q m s) = control s.
Proof.
  unfold _run_query. destruct (_cancelled s) eqn:Hc; [done|].
  by case_bool_decide.
Qed.

Lemma forwards_spec q s :
  forwards q s = true
  <-> _cancelled s = false /\ _active_query_id s = Some q.
Proof.
  unfold forwards. rewrite andb_true_iff, negb_true_iff, bool_decide_eq_true.
  done.
Qed.

Lemma _run_query_queue q m s :
  _message_queue (_run_query q m s)
  = if forwards q s then _message_queue s ++ [m] else _message_queue s.
Proof.
  unfold _run_query, forwards. destruct (_cancelled s); [done|]. simpl.
  repeat case_bool_decide; try done; congruence.
Qed.

(** C1. One turn of the draining loop does exactly one of three things:
    with the cancelled flag set the message is dropped; otherwise, when
    the task's query id is not the active one, it is dropped; otherwise it
    is appended to the message queue.  So the message reaches the queue
    if and only if the flag is clear and the ids agree when the turn runs;
    no other field of the session changes. *)
Theorem drain_filter_three_way q m s :
  (_cancelled s = true -> _run_query q m s = s)
  /\ (_cancelled s = false -> _active_query_id s <> Some q ->
      _run_query q m s = s)
  /\ (_cancelled s = false -> _active_query_id s = Some q ->
      _run_query q m s = put m s)
  /\ (_message_queue (_run_query q m s) = _message_queue s ++ [m]
      <-> _cancelled s = false /\ _active_query_id s = Some q)
  /\ (_message_queue (_run_query q m s) = _message_queue s
      <-> _cancelled s = true \/ _active_query_id s <> Some q)
  /\ control (_run_query q m s) = control s.
Proof.
  split; [|split; [|split; [|split; [|split]]]].
  - unfold _run_query. by intros ->.
  - unfold _run_query. intros -> Hne. case_bool_decide; [done | congruence].
  - unfold _run_query. intros -> He. case_bool_decide; [congruence | done].
  - rewrite _run_query_queue, <- forwards_spec.
    destruct (forwards q s); [done|]. split; [|done].
    intros Heq. apply (f_equal length) in Heq.
    rewrite length_app in Heq. simpl in Heq. lia.
  - rewrite _run_query_queue. destruct (forwards q s) eqn:Hf.
    + apply forwards_spec in Hf as [Hc Ha]. split.
      * intros Heq. apply (f_equal length) in Heq.
        rewrite length_app in Heq. simpl in Heq. lia.
      * intros [Hc' | Hne]; congruence.
    + split; [|done]. intros _.
      destruct (_cancelled s) eqn:Hc; [by left|]. right. intros Ha.
      assert (forwards q s = true) by (apply forwards_spec; done). congruence.
  - apply _run_query_control.
Qed.

(** *** Tasks, interruption and send_message *)

Lemma deliver_cancelled sys ev :
  _cancelled (session sys) = true -> deliver sys ev = sys.
Proof.
  intros Hc. destruct ev as [q m]. unfold deliver, _run_query, forwards.
  rewrite Hc. simpl. case_bool_decide; [|done]. by destruct sys.
Qed.

Lemma deliveries_cancelled sys (evs : list (Z * message)) :
  _cancelled (session sys) = true -> foldl deliver sys evs = sys.
Proof.
  intros Hc. induction evs as [|ev evs IH]; simpl; [done|].
  by rewrite deliver_cancelled.
Qed.

Lemma deliver_frame sys ev :
  control (session (deliver sys ev)) = control (session sys)
  /\ live (deliver sys ev) = live sys
  /\ lifecycle (deliver sys ev) = lifecycle sys
  /\ waited (deliver sys ev) = waited sys.
Proof.
  destruct ev as [q m]. unfold deliver. case_bool_decide; [|done].
  simpl. by rewrite _run_query_control.
Qed.



(** The messages that arrive during a wait are all dropped: the wait
    changes the clock and the set of live tasks only. *)
Lemma wait_for_eq h env timeout sys :
  _cancelled (session sys) = true ->
  wait_for h env timeout sys
  = ({| session := session sys; live := live sys ∖ {[h]};
        interrupts := interrupts sys;
        waited := (waited sys + snd (wait_for_outcome env timeout))%N;
        timeouts_logged := timeouts_logged sys; lifecycle := lifecycle sys;
        delivered := delivered sys |},
     fst (wait_for_outcome env timeout)).
Proof.
  intros Hc. unfold wait_for. rewrite deliveries_cancelled by done.
  by destruct (wait_for_outcome env timeout).
Qed.



Lemma bounded_wait_frame h env timeout sys :
  _cancelled (session sys) = true ->
  session (bounded_wait h env timeout sys) = session sys
  /\ delivered (bounded_wait h env timeout sys) = delivered sys
  /\ lifecycle (bounded_wait h env timeout sys) = lifecycle sys
  /\ live (bounded_wait h env timeout sys) ⊆ live sys.
Proof.
  intros Hc. unfold bounded_wait. rewrite deliveries_cancelled by done.
  cbn [session delivered lifecycle live]. repeat split.
  destruct (exit_after env) as [d|]; [destruct (d <=? timeout)%N|]; set_solver.
Qed.

Local Open Scope Z_scope.

(** With no task running [send_message] starts the new query at once. *)
Lemma send_message_idle env sys :
  previous sys = None ->
  send_message env sys
  = (start_query (_query_id (session sys) + 1)
       (with_session (set_query_id (_query_id (session sys) + 1)) sys),
     Returns).
Proof.
  unfold previous, send_message.
  cbn [with_session session set_query_id _current_task live].
  destruct (_current_task (session sys)) as [h|]; [|done].
  by case_bool_decide.
Qed.

Lemma send_message_running env sys h :
  previous sys = Some h ->
  send_message env sys
  = match fst (wait_for_outcome env INTERRUPT_TIMEOUT) with
    | Exited =>
        (start_query (_query_id (session sys) + 1) (after_interrupt env sys h),
         Returns)
    | TimedOut => (after_interrupt env sys h, Raises TimeoutError)
    end.
Proof.
  unfold previous, send_message.
  cbn [with_session session set_query_id _current_task live].
  destruct (_current_task (session sys)) as [h'|] eqn:Ht; [|done].
  case_bool_decide; [|done]. intros [= ->].
  rewrite wait_for_eq by done.
  by destruct (fst (wait_for_outcome env INTERRUPT_TIMEOUT)).
Qed.

(** Every call moves the counter on by one and leaves the queue and the
    log of deliveries alone. *)
Lemma send_message_frame env sys :
  _query_id (session (fst (send_message env sys))) = _query_id (session sys) + 1
  /\ _message_queue (session (fst (send_message env sys)))
     = _message_queue (session sys)
  /\ delivered (fst (send_message env sys)) = delivered sys.
Proof.
  destruct (previous sys) as [h|] eqn:Hp.
  - rewrite (send_message_running env sys h Hp).
    by destruct (fst (wait_for_outcome env INTERRUPT_TIMEOUT)).
  - by rewrite (send_message_idle env sys Hp).
Qed.

Lemma send_message_returns env sys :
  snd (send_message env sys) = Returns ->
  session (fst (send_message env sys))
  = {| _query_id := _query_id (session sys) + 1;
       _active_query_id := Some (_query_id (session sys) + 1);
       _cancelled := false;
       _current_task := Some (_query_id (session sys) + 1);
       _message_queue := _message_queue (session sys) |}
  /\ (_query_id (session sys) + 1) ∈ live (fst (send_message env sys))
  /\ lifecycle (fst (send_message env sys))
     = <[_query_id (session sys) + 1 := Streaming]>
         match previous sys with
         | Some h => leave_streaming h Superseded (lifecycle sys)
         | None => lifecycle sys
         end.
Proof.
  destruct (previous sys) as [h|] eqn:Hp.
  - rewrite (send_message_running env sys h Hp).
    destruct (fst (wait_for_outcome env INTERRUPT_TIMEOUT)); [|done].
    intros _. cbn. split; [done|]. split; [set_solver | done].
  - rewrite (send_message_idle env sys Hp). intros _. cbn.
    split; [done|]. split; [set_solver | done].
Qed.

Lemma send_message_raises env sys e :
  snd (send_message env sys) = Raises e ->
  e = TimeoutError
  /\ exists h,
       previous sys = Some h
       /\ fst (wait_for_outcome env INTERRUPT_TIMEOUT) = TimedOut
       /\ fst (send_message env sys) = after_interrupt env sys h.
Proof.
  destruct (previous sys) as [h|] eqn:Hp.
  - rewrite (send_message_running env sys h Hp).
    destruct (fst (wait_for_outcome env INTERRUPT_TIMEOUT)) eqn:Ho; [done|].
    intros _. split; [by destruct e|]. by exists h.
  - by rewrite (send_message_idle env sys Hp).
Qed.


(** What a call that is left by the exception leaves behind. *)
Lemma send_message_abandons env sys e :
  snd (send_message env sys) = Raises e ->
  control (session (fst (send_message env sys)))
  = (_query_id (session sys) + 1, _active_query_id (session sys), true,
     _current_task (session sys))
  /\ abandoned (fst (send_message env sys)).
Proof.
  intros (_ & h & Hp & _ & ->)%send_message_raises.
  split; [done|]. split; [done|].
  unfold previous in Hp. unfold running. cbn [after_interrupt session live
    _current_task].
  destruct (_current_task (session sys)) as [h'|]; [|done].
  case_bool_decide; [|done]. injection Hp as ->.
  apply bool_decide_eq_false. set_solver.
Qed.


Lemma cancel_session env sys :
  session (fst (cancel env sys))
  = if running sys then set_cancelled true (session sys) else session sys.
Proof.
  unfold cancel, running. destruct (_current_task (session sys)) as [h|]; [|done].
  case_bool_decide; [|done]. cbn [fst with_lifecycle session].
  by destruct (bounded_wait_frame h env INTERRUPT_TIMEOUT
                 (interrupt (with_session (set_cancelled true) sys)) eq_refl)
    as (-> & _).
Qed.



Lemma finish_session q sys : session (finish q sys) = session sys.
Proof.
  unfold finish. case_bool_decide; [|done].
  by destruct (forwards q (session sys)).
Qed.




(** Only [send_message] moves the query counter, by one at each call;
    only a [send_message] that returns moves the active id, to the new
    value of the counter. *)
Lemma step_ids sys a :
  _query_id (session (step sys a))
  = match a with
    | Send _ => _query_id (session sys) + 1
    | _ => _query_id (session sys)
    end
  /\ _active_query_id (session (step sys a))
     = match a with
       | Send env =>
           match snd (send_message env sys) with
           | Returns => Some (_query_id (session sys) + 1)
           | Raises _ => _active_query_id (session sys)
           end
       | _ => _active_query_id (session sys)
       end.
Proof.
  destruct a as [env | env | q m | q]; cbn [step].
  - split; [apply send_message_frame|].
    destruct (snd (send_message env sys)) as [|e] eqn:Hs.
    + by destruct (send_message_returns env sys Hs) as (-> & _).
    + destruct (send_message_abandons env sys e Hs) as (Hc & _).
      unfold control in Hc. by injection Hc.
  - rewrite cancel_session. by destruct (running sys).
  - destruct (deliver_frame sys (q, m)) as [Hc _].
    unfold control in Hc. injection Hc as Hq Ha _ _. split; assumption.
  - by rewrite finish_session.
Qed.

Lemma step_query_id_mono sys a :
  _query_id (session sys) <= _query_id (session (step sys a)).
Proof.
  destruct (step_ids sys a) as [-> _]. destruct a; lia.
Qed.

Lemma run_query_id_mono acts sys :
  _query_id (session sys) <= _query_id (session (run acts sys)).
Proof.
  revert sys. induction acts as [|a acts IH]; intros sys; [done|].
  etrans; [apply (step_query_id_mono sys a) | apply IH].
Qed.








(** C6. Modelled [cancel]: with no running task (no handle, or a handle
    whose task is done) it returns false and the whole system state is
    what it was: the active id, the cancelled flag, the task handle and
    the message queue in particular. *)
Theorem cancel_without_active_query env sys :
  running sys = false ->
  snd (cancel env sys) = false
  /\ fst (cancel env sys) = sys
  /\ _active_query_id (session (fst (cancel env sys)))
     = _active_query_id (session sys)
  /\ _cancelled (session (fst (cancel env sys))) = _cancelled (session sys)
  /\ _current_task (session (fst (cancel env sys)))
     = _current_task (session sys)
  /\ _message_queue (session (fst (cancel env sys)))
     = _message_queue (session sys).
Proof.
  intros Hidle.
  assert (Hsame : cancel env sys = (sys, false)).
  { unfold cancel. unfold running in Hidle.
    destruct (_current_task (session sys)) as [h|]; [|done]. by rewrite Hidle. }
  by rewrite Hsame.
Qed.


(** *** Supersession *)



















(** *** What reaches the queue *)







End AgentSessionFacts.

(** *** A session at work *)

Lemma drain_filter_three_way_witness :
  AgentSession._run_query 3 8 streaming_session
  = AgentSession.put 8 streaming_session
  /\ AgentSession._run_query 2 8 streaming_session = streaming_session
  /\ AgentSession._run_query 3 8
       (AgentSession.set_cancelled true streaming_session)
     = AgentSession.set_cancelled true streaming_session.
Proof.
  split; [|split].
  - destruct (drain_filter_three_way 3 8 streaming_session)
      as (_ & _ & Hput & _).
    apply Hput; reflexivity.
  - destruct (drain_filter_three_way 2 8 streaming_session)
      as (_ & Hstale & _).
    apply Hstale; [reflexivity | discriminate].
  - destruct (drain_filter_three_way 3 8
                (AgentSession.set_cancelled true streaming_session))
      as (Hcancelled & _).
    apply Hcancelled. reflexivity.
Defined.




Lemma cancel_without_active_query_witness :
  AgentSession.cancel stuck_upstream (AgentSession.fresh 0)
  = (AgentSession.fresh 0, false).
Proof.
  destruct (cancel_without_active_query stuck_upstream (AgentSession.fresh 0)
              eq_refl) as (Hret & Hsys & _).
  destruct (AgentSession.cancel stuck_upstream (AgentSession.fresh 0))
    as [sys' ret]. simpl in Hret, Hsys. by subst.
Defined.

(** ** The streaming message on the client *)

Lemma or_else_some (text : jsstring) : or_else (Some text) [] = text.
Proof. by destruct text. Qed.

Lemma place_streaming_last (sm : Message) (prev : list Message) :
  exists before, place_streaming sm prev = before ++ [sm].
Proof.
  unfold place_streaming.
  destruct (last prev) as [lastMsg|]; [destruct (role lastMsg)|]; eauto.
Qed.

Lemma update_last_snoc (f : Message -> Message) (before : list Message)
    (m : Message) :
  update_last (Some (id m)) f (before ++ [m]) = before ++ [f m].
Proof.
  unfold update_last. rewrite length_app. simpl.
  replace (length before + 1)%nat with (S (length before)) by lia.
  rewrite list_lookup_middle by done.
  rewrite bool_decide_eq_true_2 by done.
  replace (length before) with (length before + 0)%nat at 1 by lia.
  by rewrite insert_app_r.
Qed.

Lemma resume_showing now now_ts conv text w :
  currentChatIdRef w = Some conv ->
  showing conv (handleMessage now now_ts (ConnectionHub.resume conv text) w) text.
Proof.
  intros Hcur. unfold ConnectionHub.resume, handleMessage.
  rewrite Hcur, bool_decide_eq_true_2 by done. simpl.
  split; [exact Hcur|].
  match goal with
  | |- context [place_streaming ?sm] =>
      destruct (place_streaming_last sm (st_messages w)) as [before Hlast];
      exists before, sm
  end.
  split; [exact Hlast|]. split; [done|].
  split; [apply Date_now_toString_truthy|]. split; [done|].
  apply (or_else_some text).
Qed.

Lemma stream_start_showing now now_ts conv w :
  currentChatIdRef w = Some conv ->
  showing conv (handleMessage now now_ts (stream_start conv) w) [].
Proof.
  intros Hcur. unfold handleMessage.
  rewrite Hcur, bool_decide_eq_true_2 by done.
  set (sm := {| id := Date_now_toString now; role := assistant; content := [];
                timestamp := now_ts; images := None; isStreaming := Some true |}).
  split.
  - by destruct (sessionCacheMap _ !! conv).
  - exists (st_messages w), sm.
    split; [by destruct (sessionCacheMap _ !! conv)|].
    split; [by destruct (sessionCacheMap _ !! conv)|].
    split; [apply Date_now_toString_truthy | done].
Qed.

Lemma text_delta_showing now now_ts conv delta w text :
  showing conv w text ->
  showing conv (handleMessage now now_ts (text_delta conv delta) w)
    (text ++ delta).
Proof.
  intros (Hcur & before & m & Hmsgs & Href & Htruthy & Hrole & Hcontent).
  unfold handleMessage.
  rewrite Hcur, bool_decide_eq_true_2 by done.
  rewrite Href. cbn [truthy_ref andb]. rewrite Htruthy.
  set (w1 := setMessages _ w).
  assert (Hw1 : currentChatIdRef w1 = Some conv
                /\ st_messages w1
                   = before ++ [set_content (content m ++ delta) m]
                /\ streamingMessageIdRef w1 = Some (id m)).
  { subst w1. cbn [setMessages currentChatIdRef st_messages
                   streamingMessageIdRef].
    by rewrite Hmsgs, update_last_snoc. }
  destruct Hw1 as (Hc1 & Hm1 & Hr1).
  assert (Hsame : forall w2,
            currentChatIdRef w2 = currentChatIdRef w1 ->
            st_messages w2 = st_messages w1 ->
            streamingMessageIdRef w2 = streamingMessageIdRef w1 ->
            showing conv w2 (text ++ delta)).
  { intros w2 Hc2 Hm2 Hr2. split; [congruence|].
    exists before, (set_content (content m ++ delta) m).
    split; [congruence|]. split; [by rewrite Hr2, Hr1|].
    split; [done|]. split; [done|]. simpl. by rewrite Hcontent. }
  destruct (sessionCacheMap (store w1) !! conv) as [cached|];
    [destruct (truthy_ref (streamingMessageId cached))|];
    by apply Hsame.
Qed.

Lemma text_deltas_showing conv (later : list jsstring) (arrs : list Arrival) w text :
  frame <$> arrs = text_delta conv <$> later ->
  showing conv w text ->
  showing conv (handleMessages arrs w) (text ++ concat later).
Proof.
  revert later w text.
  induction arrs as [|a arrs IH]; intros later w text Hframes Hshow.
  - destruct later; [|done]. simpl. by rewrite app_nil_r.
  - destruct later as [|d later]; [done|]. injection Hframes as Ha Hrest.
    cbn [handleMessages foldl]. simpl concat. rewrite app_assoc.
    apply (IH later); [done|]. rewrite Ha. by apply text_delta_showing.
Qed.

(** ** The hub: what a late connection is told *)

Section HubFacts.

Import ConnectionHub.

Lemma run_conversation ops h : conversation (run ops h) = conversation h.
Proof.
  revert h. induction ops as [|o ops IH]; intros h; [done|].
  change (run (o :: ops) h) with (run ops (apply h o)). rewrite IH.
  by destruct o.
Qed.

Lemma deltas_wire conv (ds : list jsstring) :
  deltas ((fun d => Wire (text_delta conv d)) <$> ds) = ds.
Proof. induction ds as [|d ds IH]; simpl; [done | f_equal; exact IH]. Qed.

Lemma mid_stream_run ops h c (o : list Delivery) text :
  mid_stream c ops = true ->
  outbox h !! c = Some o ->
  partial_text h = Some text ->
  outbox (run ops h) !! c
  = Some (o ++ ((fun d => Wire (text_delta (conversation h) d)) <$> texts ops))
  /\ partial_text (run ops h) = Some (text ++ concat (texts ops)).
Proof.
  revert h o text.
  induction ops as [|op ops IH]; intros h o text Hmid Hbox Htext.
  { simpl. by rewrite !app_nil_r. }
  cbn [mid_stream forallb] in Hmid. apply andb_true_iff in Hmid as [Hop Hmid].
  change (run (op :: ops) h) with (run ops (apply h op)).
  destruct op as [c' | c' | ev].
  - apply negb_true_iff, Nat.eqb_neq in Hop.
    apply (IH (attach c' h)); [done | | done].
    cbn [attach outbox]. by rewrite lookup_insert_ne.
  - apply negb_true_iff, Nat.eqb_neq in Hop.
    apply (IH (detach c' h)); [done | | done].
    cbn [detach outbox]. by rewrite lookup_delete_ne.
  - destruct ev as [|d|]; try done. cbn [apply texts].
    destruct (IH (broadcast (TextDelta d) h)
                (o ++ [Wire (text_delta (conversation h) d)]) (text ++ d))
      as [IHbox IHtext]; [done | | | ].
    + cbn [broadcast outbox encode]. by rewrite lookup_fmap, Hbox.
    + cbn [broadcast partial_text]. by rewrite Htext.
    + rewrite IHbox, IHtext. cbn [broadcast conversation].
      rewrite fmap_cons, <- !app_assoc. done.
Qed.

Lemma told_app text (ds1 ds2 : list Delivery) :
  told text (ds1 ++ ds2) = told (told text ds1) ds2.
Proof.
  revert text. induction ds1 as [|d ds1 IH]; intros text; [done|].
  destruct d as [|[? ? [ss|] | ? | ? ? | ?]]; cbn [app told]; apply IH.
Qed.

Lemma apply_in_step h text o :
  in_step h text ->
  match o with
  | Broadcast (TextDelta d) => in_step (apply h o) (text ++ d)
  | Broadcast _ => True
  | _ => in_step (apply h o) text
  end.
Proof.
  intros [Htext Hall]. destruct o as [c | c | [|d|]]; try done.
  - split; [done|]. intros c' o'. cbn [apply attach outbox].
    destruct (decide (c' = c)) as [->|Hne].
    + rewrite lookup_insert_eq, Htext. intros [= <-].
      cbn [told resume is_streaming current_content]. apply or_else_some.
    + rewrite lookup_insert_ne by done. apply Hall.
  - split; [done|]. intros c' o'. cbn [apply detach outbox].
    intros [_ Hin]%lookup_delete_Some. by apply (Hall c').
  - split; [cbn [apply broadcast partial_text]; by rewrite Htext|].
    intros c' o'. cbn [apply broadcast outbox encode]. rewrite lookup_fmap.
    destruct (outbox h !! c') as [o0|] eqn:Hc'; [|done]. intros [= <-].
    rewrite told_app, (Hall c' o0 Hc'). done.
Qed.

Lemma streaming_run ops h text :
  streaming ops = true -> in_step h text ->
  in_step (run ops h) (text ++ concat (texts ops)).
Proof.
  revert h text. induction ops as [|o ops IH]; intros h text Hops Hin.
  { simpl. by rewrite app_nil_r. }
  cbn [streaming forallb] in Hops. apply andb_true_iff in Hops as [Ho Hops].
  change (run (o :: ops) h) with (run ops (apply h o)).
  pose proof (apply_in_step h text o Hin) as Hstep.
  destruct o as [c | c | [|d|]]; try done; cbn [texts].
  - by apply IH.
  - by apply IH.
  - cbn [concat]. rewrite app_assoc. by apply IH.
Qed.

Lemma mid_stream_streaming c ops : mid_stream c ops = true -> streaming ops = true.
Proof.
  unfold mid_stream, streaming. rewrite !forallb_forall.
  intros Hmid o Ho. specialize (Hmid o Ho). by destruct o as [|?|[]].
Qed.

(** C5, as the hub has it.  A stream starts and deltas are broadcast
    while connections come and go, the one that reconnects included;
    then [c2] attaches.  What [c2] is sent is the history and one resume
    event, whose text is the concatenation, in order, of all the text
    deltas broadcast since the stream started, whoever was attached to
    receive them.  Every connection attached at that moment has been
    told this same text, and for a connection [c1] attached since before
    the stream started it is the concatenation of exactly the text deltas
    delivered to [c1].  A client that handles the resume event and then
    further deltas shows, as its streaming assistant message, that text
    followed by the further deltas in order. *)
Theorem resume_snapshot_is_broadcast_text h ops c2 :
  streaming ops = true ->
  let conv := conversation h in
  let h' := run ops (broadcast StreamStart h) in
  let text := concat (texts ops) in
  outbox (attach c2 h') !! c2 = Some [History; Wire (resume conv text)]
  /\ (forall c o, outbox (attach c2 h') !! c = Some o -> told [] o = text)
  /\ (forall c1 (o1 : list Delivery),
        outbox h !! c1 = Some o1 -> mid_stream c1 ops = true ->
        exists seen : list Delivery,
          outbox h' !! c1 = Some (o1 ++ Wire (stream_start conv) :: seen)
          /\ deltas seen = texts ops)
  /\ forall (w : World) (now now_ts : N) (arrs : list Arrival)
            (later : list jsstring),
       currentChatIdRef w = Some conv ->
       frame <$> arrs = text_delta conv <$> later ->
       let w' := handleMessages arrs
                   (handleMessage now now_ts (resume conv text) w) in
       exists m,
         last (st_messages w') = Some m
         /\ streamingMessageIdRef w' = Some (id m)
         /\ role m = assistant
         /\ content m = text ++ concat later.
Proof.
  intros Hops. cbn zeta.
  assert (Hstart : in_step (broadcast StreamStart h) []).
  { split; [done|]. intros c o. cbn [broadcast outbox encode].
    rewrite lookup_fmap. destruct (outbox h !! c) as [o0|]; [|done].
    intros [= <-]. by rewrite told_app. }
  pose proof (streaming_run ops _ [] Hops Hstart) as Hrun.
  cbn [app] in Hrun.
  split; [|split; [|split]].
  - destruct Hrun as [Htext _]. cbn [attach outbox].
    by rewrite lookup_insert_eq, Htext, run_conversation.
  - intros c o.
    pose proof (apply_in_step _ _ (Attach c2) Hrun) as [_ Hall].
    apply Hall.
  - intros c1 o1 Hbox Hmid.
    destruct (mid_stream_run ops (broadcast StreamStart h) c1
                (o1 ++ [Wire (stream_start (conversation h))]) [] Hmid)
      as [Hbox' _].
    { cbn [broadcast outbox encode]. by rewrite lookup_fmap, Hbox. }
    { done. }
    cbn [broadcast conversation] in Hbox'.
    exists ((fun d => Wire (text_delta (conversation h) d)) <$> texts ops).
    rewrite deltas_wire. split; [|done].
    rewrite Hbox'. by rewrite <- app_assoc.
  - intros w now now_ts arrs later Hcur Hframes. cbn zeta.
    destruct (text_deltas_showing (conversation h) later arrs
                (handleMessage now now_ts
                   (resume (conversation h) (concat (texts ops))) w)
                (concat (texts ops)) Hframes)
      as (_ & before & m & Hmsgs & Href & _ & Hrole & Hcontent).
    { by apply resume_showing. }
    exists m. rewrite Hmsgs, last_snoc. done.
Qed.

End HubFacts.

Lemma resume_snapshot_is_broadcast_text_witness :
  ConnectionHub.outbox
    (ConnectionHub.attach 2
       (ConnectionHub.run two_deltas
          (ConnectionHub.broadcast ConnectionHub.StreamStart quiet_hub)))
    !! 2%nat
  = Some [ConnectionHub.History;
          ConnectionHub.Wire (ConnectionHub.resume (lit "chat-a") (lit "Hello"))]
  /\ ConnectionHub.deltas
       <$> (ConnectionHub.outbox
              (ConnectionHub.run two_deltas
                 (ConnectionHub.broadcast ConnectionHub.StreamStart quiet_hub))
              !! 1%nat)
     = Some [lit "Hel"; lit "lo"].
Proof.
  destruct (resume_snapshot_is_broadcast_text quiet_hub two_deltas 2%nat
              eq_refl) as (Hsnapshot & _ & Hfirst & _).
  split; [exact Hsnapshot|].
  destruct (Hfirst 1%nat [ConnectionHub.History] eq_refl eq_refl)
    as (seen & -> & Hseen).
  cbn [fmap option_fmap option_map]. f_equal.
  change (ConnectionHub.deltas
            ([ConnectionHub.History]
               ++ ConnectionHub.Wire
                    (stream_start (ConnectionHub.conversation quiet_hub))
               :: seen)) with (ConnectionHub.deltas seen).
  exact Hseen.
Defined.

(** C5 as stated fails on the hub when a delta is broadcast while no
    connection is attached: connection 1 is delivered "Hel" and detaches,
    "lo" is delivered to nobody, and the snapshot that connection 1 gets
    on coming back reads "Hello". *)
Lemma resume_snapshot_counts_undelivered :
  let h1 :=
    ConnectionHub.run [ConnectionHub.Broadcast (ConnectionHub.TextDelta (lit "Hel"))]
      (ConnectionHub.broadcast ConnectionHub.StreamStart quiet_hub) in
  let h2 :=
    ConnectionHub.run
      [ConnectionHub.Detach 1;
       ConnectionHub.Broadcast (ConnectionHub.TextDelta (lit "lo"))] h1 in
  ConnectionHub.deltas <$> (ConnectionHub.outbox h1 !! 1%nat)
  = Some [lit "Hel"]
  /\ ConnectionHub.outbox h2 = ∅
  /\ ConnectionHub.outbox (ConnectionHub.attach 1 h2) !! 1%nat
     = Some [ConnectionHub.History;
             ConnectionHub.Wire
               (ConnectionHub.resume (lit "chat-a") (lit "Hello"))]
  /\ lit "Hello" <> concat [lit "Hel"].
Proof.
  cbn zeta. split; [reflexivity|]. split; [reflexivity|].
  split; [reflexivity | discriminate].
Qed.

(** ** The registry: one session per conversation *)

Section RegistryFacts.

Import SessionRegistry.

Local Open Scope nat_scope.

Implicit Types (r : SessionRegistry.t) (k i j : nat) (c conv : jsstring).

Lemma empty_consistent : consistent empty.
Proof.
  split; simpl.
  - intros c i. by rewrite !lookup_empty.
  - intros i c. by rewrite lookup_empty.
  - intros k. by rewrite lookup_empty.
  - intros k c. by rewrite lookup_empty.
Qed.

Lemma call_consistent k conv r : consistent r -> consistent (call k conv r).
Proof.
  intros Hr. pose proof Hr as [Hmap Hfresh Hlock Hcreating]. unfold call.
  assert (Hgoal : ~ critical (callers r !! k) ->
            consistent
              {| sessions := sessions r; alive := alive r;
                 next_instance := next_instance r; lock := lock r;
                 callers := <[k := Waiting conv]> (callers r);
                 returned := returned r |}).
  { intros Hout. split; simpl; [done | done | |].
    - intros k'. destruct (decide (k' = k)) as [->|Hne].
      + rewrite lookup_insert_eq. simpl. rewrite <- Hlock. tauto.
      + rewrite lookup_insert_ne by done. apply Hlock.
    - intros k' c. destruct (decide (k' = k)) as [->|Hne].
      + by rewrite lookup_insert_eq.
      + rewrite lookup_insert_ne by done. apply Hcreating. }
  destruct (callers r !! k) as [[]|] eqn:Hk; try done; apply Hgoal; tauto.
Qed.

Lemma advance_consistent k r : consistent r -> consistent (advance k r).
Proof.
  intros Hr. pose proof Hr as [Hmap Hfresh Hlock Hcreating]. unfold advance.
  destruct (callers r !! k) as [[conv | conv | conv | conv i]|] eqn:Hk;
    try done.
  - (* waiting for the lock *)
    destruct (lock r) as [holder|] eqn:Hl; [done|].
    split; simpl; [done | done | |].
    + intros k'. destruct (decide (k' = k)) as [->|Hne].
      * by rewrite lookup_insert_eq.
      * rewrite lookup_insert_ne by done. rewrite Hlock.
        split; [done | congruence].
    + intros k' c. destruct (decide (k' = k)) as [->|Hne].
      * by rewrite lookup_insert_eq.
      * rewrite lookup_insert_ne by done. apply Hcreating.
  - (* looking the conversation up *)
    assert (Hheld : lock r = Some k) by (apply Hlock; by rewrite Hk).
    destruct (sessions r !! conv) as [i|] eqn:Hs.
    + split; simpl; [done | done | |].
      * intros k'. destruct (decide (k' = k)) as [->|Hne].
        -- by rewrite lookup_insert_eq.
        -- rewrite lookup_insert_ne by done. rewrite Hlock, Hheld.
           split; [congruence | done].
      * intros k' c. destruct (decide (k' = k)) as [->|Hne].
        -- by rewrite lookup_insert_eq.
        -- rewrite lookup_insert_ne by done. apply Hcreating.
    + split; simpl; [done | done | |].
      * intros k'. destruct (decide (k' = k)) as [->|Hne].
        -- by rewrite lookup_insert_eq.
        -- rewrite lookup_insert_ne by done. apply Hlock.
      * intros k' c. destruct (decide (k' = k)) as [->|Hne].
        -- rewrite lookup_insert_eq. by intros [= <-].
        -- rewrite lookup_insert_ne by done. apply Hcreating.
  - (* constructing and registering the session *)
    assert (Hheld : lock r = Some k) by (apply Hlock; by rewrite Hk).
    pose proof (Hcreating k conv Hk) as Hmiss.
    assert (Hnew : alive r !! next_instance r = None).
    { destruct (alive r !! next_instance r) as [c|] eqn:Ha; [|done].
      apply Hfresh in Ha. lia. }
    split; simpl.
    + intros c i. destruct (decide (c = conv)) as [->|Hc].
      * rewrite lookup_insert_eq. split.
        -- intros [= <-]. by rewrite lookup_insert_eq.
        -- destruct (decide (i = next_instance r)) as [->|Hi]; [done|].
           rewrite lookup_insert_ne by done. intros Ha.
           apply Hmap in Ha. congruence.
      * rewrite lookup_insert_ne by done.
        destruct (decide (i = next_instance r)) as [->|Hi].
        -- rewrite lookup_insert_eq. split; [|congruence].
           intros Hs. apply Hmap in Hs. congruence.
        -- rewrite lookup_insert_ne by done. apply Hmap.
    + intros i c. destruct (decide (i = next_instance r)) as [->|Hi]; [lia|].
      rewrite lookup_insert_ne by done. intros Ha. apply Hfresh in Ha. lia.
    + intros k'. destruct (decide (k' = k)) as [->|Hne].
      * by rewrite lookup_insert_eq.
      * rewrite lookup_insert_ne by done. rewrite Hlock, Hheld.
        split; [congruence | done].
    + intros k' c. destruct (decide (k' = k)) as [->|Hne].
      * by rewrite lookup_insert_eq.
      * rewrite lookup_insert_ne by done. intros Hk'.
        assert (Hcrit : critical (callers r !! k')) by (by rewrite Hk').
        apply Hlock in Hcrit. congruence.
Qed.

Lemma teardown_consistent conv r : consistent r -> consistent (teardown conv r).
Proof.
  intros Hr. pose proof Hr as [Hmap Hfresh Hlock Hcreating]. unfold teardown.
  destruct (lock r) as [holder|] eqn:Hl; [done|].
  destruct (sessions r !! conv) as [i|] eqn:Hs; [|done].
  pose proof (proj1 (Hmap conv i) Hs) as Ha.
  split; simpl.
  - intros c j. destruct (decide (c = conv)) as [->|Hc].
    + rewrite lookup_delete_eq. split; [done|].
      destruct (decide (j = i)) as [->|Hj]; [by rewrite lookup_delete_eq|].
      rewrite lookup_delete_ne by done. intros Ha'. apply Hmap in Ha'.
      congruence.
    + rewrite lookup_delete_ne by done.
      destruct (decide (j = i)) as [->|Hj].
      * rewrite lookup_delete_eq. split; [|done].
        intros Hs'. apply Hmap in Hs'. congruence.
      * rewrite lookup_delete_ne by done. apply Hmap.
  - intros j c. destruct (decide (j = i)) as [->|Hj].
    + by rewrite lookup_delete_eq.
    + rewrite lookup_delete_ne by done. apply Hfresh.
  - intros k. apply Hlock.
  - intros k c Hk.
    assert (Hcrit : critical (callers r !! k)) by (by rewrite Hk).
    apply Hlock in Hcrit. congruence.
Qed.

Lemma step_consistent r e : consistent r -> consistent (step r e).
Proof.
  destruct e; [apply call_consistent | apply advance_consistent
              | apply teardown_consistent].
Qed.

Lemma run_consistent es r : consistent r -> consistent (run es r).
Proof.
  revert r. induction es as [|e es IH]; intros r Hr; [done|].
  apply IH, step_consistent, Hr.
Qed.

Lemma step_keeps_session conv r e i :
  consistent r -> keeps conv [e] = true ->
  sessions r !! conv = Some i -> sessions (step r e) !! conv = Some i.
Proof.
  intros Hr Hkeep Hs. pose proof Hr as [Hmap Hfresh Hlock Hcreating].
  destruct e as [k c | k | c]; cbn [step].
  - unfold call. by destruct (callers r !! k) as [[]|].
  - unfold advance.
    destruct (callers r !! k) as [[c | c | c | c j]|] eqn:Hk; try done.
    + by destruct (lock r).
    + by destruct (sessions r !! c).
    + pose proof (Hcreating k c Hk) as Hmiss. simpl.
      rewrite lookup_insert_ne; [done | congruence].
  - cbn [keeps forallb] in Hkeep. rewrite andb_true_r in Hkeep.
    apply bool_decide_eq_true in Hkeep. unfold teardown.
    destruct (lock r); [done|]. destruct (sessions r !! c); [|done].
    simpl. by rewrite lookup_delete_ne.
Qed.

Lemma run_keeps_session conv es r i :
  consistent r -> keeps conv es = true ->
  sessions r !! conv = Some i -> sessions (run es r) !! conv = Some i.
Proof.
  revert r. induction es as [|e es IH]; intros r Hr Hkeep Hs; [done|].
  cbn [keeps forallb] in Hkeep. apply andb_true_iff in Hkeep as [He Hes].
  apply IH; [by apply step_consistent | done |].
  apply step_keeps_session; [done | | done]. cbn [keeps forallb]. by rewrite He.
Qed.

(** What a step adds to the log of returns is registered when it is
    added. *)
Lemma step_returned r e :
  exists more,
    returned (step r e) = returned r ++ more
    /\ forall c i, (c, i) ∈ more -> sessions (step r e) !! c = Some i.
Proof.
  assert (Hnone : forall r', returned r' = returned r ->
            exists more, returned r' = returned r ++ more
              /\ forall c i, (c, i) ∈ more -> sessions r' !! c = Some i).
  { intros r' ->. exists []. rewrite app_nil_r.
    split; [done | by intros c i ?%elem_of_nil]. }
  destruct e as [k c | k | c]; cbn [step].
  - apply Hnone. unfold call. by destruct (callers r !! k) as [[]|].
  - unfold advance.
    destruct (callers r !! k) as [[c | c | c | c j]|] eqn:Hk;
      try (by apply Hnone).
    + apply Hnone. by destruct (lock r).
    + destruct (sessions r !! c) as [i|] eqn:Hs; [|by apply Hnone].
      exists [(c, i)]. split; [done|].
      by intros c' i' [= -> ->]%list_elem_of_singleton.
    + exists [(c, next_instance r)]. split; [done|].
      intros c' i' [= -> ->]%list_elem_of_singleton. apply lookup_insert_eq.
  - apply Hnone. unfold teardown.
    destruct (lock r); [done|]. by destruct (sessions r !! c).
Qed.

Lemma run_returned conv es r :
  consistent r -> keeps conv es = true ->
  exists newly,
    returned (run es r) = returned r ++ newly
    /\ forall i, (conv, i) ∈ newly -> sessions (run es r) !! conv = Some i.
Proof.
  revert r. induction es as [|e es IH]; intros r Hr Hkeep.
  { exists []. rewrite app_nil_r. split; [done | by intros i ?%elem_of_nil]. }
  cbn [keeps forallb] in Hkeep. apply andb_true_iff in Hkeep as [He Hes].
  destruct (step_returned r e) as (more & Hmore & Hreg).
  destruct (IH (step r e) (step_consistent r e Hr) Hes)
    as (newly & Hnewly & Hag).
  exists (more ++ newly). split.
  - change (run (e :: es) r) with (run es (step r e)).
    by rewrite Hnewly, Hmore, app_assoc.
  - intros i [Hi | Hi]%elem_of_app; [|by apply Hag].
    change (run (e :: es) r) with (run es (step r e)).
    apply run_keeps_session; [by apply step_consistent | done |].
    by apply Hreg.
Qed.

(** C8.  In any interleaving of callers of [getOrCreate] with teardowns
    of idle sessions, started from the empty registry: at every instant
    at most one live session belongs to a given conversation; and while
    the session of [conv] lives, that is over any stretch of the schedule
    that does not tear it down, all calls of [getOrCreate(conv)] that
    return, racing first accesses included, return one and the same
    instance, the live one the registry holds. *)
Theorem getOrCreate_single_session es1 es2 conv :
  let r1 := run es1 empty in
  let r2 := run es2 r1 in
  (forall i j c, alive r2 !! i = Some c -> alive r2 !! j = Some c -> i = j)
  /\ (keeps conv es2 = true ->
      exists newly,
        returned r2 = returned r1 ++ newly
        /\ forall i j, (conv, i) ∈ newly -> (conv, j) ∈ newly ->
                       i = j /\ sessions r2 !! conv = Some i
                       /\ alive r2 !! i = Some conv).
Proof.
  cbn zeta. pose proof (run_consistent es1 empty empty_consistent) as Hr1.
  pose proof (run_consistent es2 _ Hr1) as Hr2.
  split.
  - intros i j c Hi Hj. apply (map_is_heap _ Hr2) in Hi, Hj. congruence.
  - intros Hkeep.
    destruct (run_returned conv es2 (run es1 empty) Hr1 Hkeep)
      as (newly & Hnewly & Hag).
    exists newly. split; [done|]. intros i j Hi Hj.
    pose proof (Hag i Hi) as Hsi. pose proof (Hag j Hj) as Hsj.
    split; [congruence|]. split; [done|]. by apply (map_is_heap _ Hr2).
Qed.

End RegistryFacts.

Lemma getOrCreate_single_session_witness :
  SessionRegistry.returned
    (SessionRegistry.run racing_first_access SessionRegistry.empty)
  = [(lit "chat-a", 0%nat); (lit "chat-a", 0%nat)]
  /\ SessionRegistry.sessions
       (SessionRegistry.run racing_first_access SessionRegistry.empty)
       !! lit "chat-a"
     = Some 0%nat
  /\ SessionRegistry.alive
       (SessionRegistry.run racing_first_access SessionRegistry.empty)
       !! 0%nat
     = Some (lit "chat-a").
Proof.
  assert (Hret : SessionRegistry.returned
                   (SessionRegistry.run racing_first_access
                      SessionRegistry.empty)
                 = [(lit "chat-a", 0%nat); (lit "chat-a", 0%nat)])
    by (vm_compute; reflexivity).
  split; [exact Hret|].
  destruct (getOrCreate_single_session [] racing_first_access (lit "chat-a"))
    as [_ Hsame].
  destruct (Hsame eq_refl) as (newly & Hnewly & Hagree).
  assert (Hin : (lit "chat-a", 0%nat) ∈ newly).
  { assert (Hlog : [(lit "chat-a", 0%nat); (lit "chat-a", 0%nat)]
                   = [] ++ newly)
      by (rewrite <- Hret; exact Hnewly).
    cbn [app] in Hlog. rewrite <- Hlog. apply elem_of_cons. by left. }
  destruct (Hagree 0%nat 0%nat Hin Hin) as (_ & Hsession & Halive).
  split; [exact Hsession | exact Halive].
Defined.

(** * Further properties *)

(** ** The hook: frames, chats and the cache *)

Section HookFacts.

Import UseChat.

Context {number : Type}.

Variable JSON_stringify : json -> jsstring.

Implicit Types (h : UseChat.t number) (f : UseChat.Frame number)
  (c conv : jsstring) (w : World).

(** X1. A frame addressed to a chat other than the one on screen changes
    nothing but the cache entry of its own chat: the message list, the
    refs, the socket, the flags and the callback logs are what they
    were, and so is the cache entry of every other chat. *)
Theorem frame_for_other_chat_is_invisible now now_ts f c h :
  addressee f = Some c ->
  currentChatIdRef (world h) <> Some c ->
  screen (handleFrame JSON_stringify now now_ts f h) = screen h
  /\ forall c', c' <> c ->
       sessionCacheMap (store (world (handleFrame JSON_stringify now now_ts f h)))
         !! c'
       = sessionCacheMap (store (world h)) !! c'.
Proof.
  intros Haddr Hother.
  assert (Hneq : bool_decide (Some c = currentChatIdRef (world h)) = false).
  { apply bool_decide_eq_false. congruence. }
  destruct f as [m | m]; destruct m; simpl in Haddr; try discriminate;
    injection Haddr as ->;
    unfold handleFrame, handleOther, handleMessage, settle_cache, screen;
    cbn [world with_world]; rewrite ?Hneq; cbn [andb];
    repeat match goal with
           | |- context [sessionCacheMap ?st !! c] =>
               destruct (sessionCacheMap st !! c) as [cached|] eqn:?
           | |- context [truthy_ref ?r] => destruct (truthy_ref r) eqn:?
           end;
    (split; [reflexivity|]); intros c' Hc'; simpl;
    rewrite ?lookup_insert_ne, ?lookup_delete_ne by congruence; reflexivity.
Qed.

Lemma text_delta_without_stream now now_ts c delta w :
  bool_decide (Some c = currentChatIdRef w)
  && truthy_ref (streamingMessageIdRef w) = false ->
  (forall cached, sessionCacheMap (store w) !! c = Some cached ->
                  truthy_ref (streamingMessageId cached) = false) ->
  handleMessage now now_ts (text_delta c delta) w = w.
Proof.
  intros Hstate Hcache. unfold handleMessage. rewrite Hstate.
  destruct (sessionCacheMap (store w) !! c) as [cached|] eqn:Hc; [|done].
  by rewrite (Hcache cached eq_refl).
Qed.

Lemma stream_end_closes now now_ts c w :
  let w' := handleMessage now now_ts (stream_end c) w in
  bool_decide (Some c = currentChatIdRef w')
  && truthy_ref (streamingMessageIdRef w') = false
  /\ forall cached, sessionCacheMap (store w') !! c = Some cached ->
                    truthy_ref (streamingMessageId cached) = false.
Proof.
  cbn zeta. unfold handleMessage.
  destruct (bool_decide (Some c = currentChatIdRef w)) eqn:Hcur.
  - destruct (truthy_ref (streamingMessageIdRef w)) eqn:Href;
      destruct (sessionCacheMap _ !! c) as [cached|] eqn:Hc;
      cbn [store setMessages set_streamingMessageIdRef] in Hc |- *;
      rewrite ?Hc;
      try destruct (truthy_ref (streamingMessageId cached)) eqn:Hid;
      simpl; rewrite ?Hcur; simpl;
      (split; [done|]); intros cached';
      rewrite ?lookup_insert_eq, ?Hc; intros [= <-]; done.
  - destruct (sessionCacheMap _ !! c) as [cached|] eqn:Hc;
      try destruct (truthy_ref (streamingMessageId cached)) eqn:Hid;
      simpl; rewrite ?Hcur; simpl;
      (split; [done|]); intros cached';
      rewrite ?lookup_insert_eq, ?Hc; intros [= <-]; done.
Qed.

Lemma cancelled_closes now now_ts c h :
  let w' := world (handleOther JSON_stringify now now_ts (cancelled c) h) in
  bool_decide (Some c = currentChatIdRef w')
  && truthy_ref (streamingMessageIdRef w') = false
  /\ forall cached, sessionCacheMap (store w') !! c = Some cached ->
                    truthy_ref (streamingMessageId cached) = false.
Proof.
  cbn zeta. unfold handleOther, settle_cache.
  destruct (bool_decide (Some c = currentChatIdRef (world h))) eqn:Hcur;
    cbn [world with_world store set_streamingMessageIdRef];
    destruct (sessionCacheMap _ !! c) as [cached|] eqn:Hc;
    simpl; rewrite ?Hcur; simpl;
    (split; [done|]); intros cached';
    rewrite ?lookup_insert_eq, ?Hc; intros [= <-]; done.
Qed.

(** X2. Once [stream_end] or [cancelled] has been handled for a chat, a
    text delta that still arrives for that chat changes nothing at all,
    neither on screen nor in the cache. *)
Theorem late_delta_is_dropped now now_ts now' now_ts' c delta h :
  handleFrame JSON_stringify now' now_ts' (Streaming (text_delta c delta))
    (handleFrame JSON_stringify now now_ts (Streaming (stream_end c)) h)
  = handleFrame JSON_stringify now now_ts (Streaming (stream_end c)) h
  /\ handleFrame JSON_stringify now' now_ts' (Streaming (text_delta c delta))
       (handleFrame JSON_stringify now now_ts (Other (cancelled c)) h)
     = handleFrame JSON_stringify now now_ts (Other (cancelled c)) h.
Proof.
  split.
  - cbn [handleFrame]. unfold with_world at 1. cbn [world with_world].
    destruct (stream_end_closes now now_ts c (world h)) as [Hs Hc].
    by rewrite (text_delta_without_stream _ _ _ _ _ Hs Hc).
  - cbn [handleFrame].
    destruct (cancelled_closes now now_ts c h) as [Hs Hc].
    unfold with_world at 1.
    rewrite (text_delta_without_stream _ _ _ _ _ Hs Hc).
    by destruct (handleOther _ _ _ _ h).
Qed.

Lemma showing_ext conv w w' text :
  currentChatIdRef w' = currentChatIdRef w ->
  st_messages w' = st_messages w ->
  streamingMessageIdRef w' = streamingMessageIdRef w ->
  showing conv w text -> showing conv w' text.
Proof.
  intros Hc Hm Hr (Hcur & before & m & Hmsgs & Href & Hrest).
  split; [congruence|]. exists before, m.
  split; [congruence|]. split; [congruence | exact Hrest].
Qed.

Lemma stream_start_cache now now_ts c w :
  cache_streaming c (handleMessage now now_ts (stream_start c) w) [].
Proof.
  unfold handleMessage.
  set (sm := {| id := Date_now_toString now; role := assistant; content := [];
                timestamp := now_ts; images := None; isStreaming := Some true |}).
  set (w1 := if bool_decide _ then _ else w).
  assert (Hstore : store w1 = store w).
  { subst w1. by case_bool_decide. }
  rewrite Hstore.
  destruct (sessionCacheMap (store w) !! c) as [cached|] eqn:Hc.
  - eexists _, (messages cached), sm. simpl. rewrite Hstore, lookup_insert_eq.
    repeat split; try done. apply Date_now_toString_truthy.
  - eexists _, [], sm. simpl. rewrite Hstore, lookup_insert_eq.
    repeat split; try done. apply Date_now_toString_truthy.
Qed.

Lemma text_delta_cache now now_ts c delta w text :
  cache_streaming c w text ->
  cache_streaming c (handleMessage now now_ts (text_delta c delta) w)
    (text ++ delta).
Proof.
  intros (cached & before & m & Hc & Hmsgs & Hid & Htruthy & Hrole & Hcontent
          & Hstreaming).
  unfold handleMessage.
  set (w1 := if _ && _ then _ else w).
  assert (Hstore : store w1 = store w).
  { subst w1. by destruct (_ && _). }
  rewrite Hstore, Hc, Hid. cbn [truthy_ref]. rewrite Htruthy.
  eexists _, _, (set_content (content m ++ delta) m).
  simpl. rewrite Hstore, lookup_insert_eq. split; [reflexivity|].
  simpl. rewrite Hmsgs, fmap_app. simpl.
  rewrite bool_decide_eq_true_2 by done.
  repeat split; try done. by rewrite Hcontent.
Qed.

Lemma text_deltas_cache c (ds : list jsstring) (arrs : list Arrival) w text :
  frame <$> arrs = text_delta c <$> ds ->
  cache_streaming c w text ->
  cache_streaming c (handleMessages arrs w) (text ++ concat ds).
Proof.
  revert ds w text.
  induction arrs as [|a arrs IH]; intros ds w text Hframes Hcache.
  - destruct ds; [|done]. simpl. by rewrite app_nil_r.
  - destruct ds as [|d ds]; [done|]. injection Hframes as Ha Hrest.
    cbn [handleMessages foldl]. simpl concat. rewrite app_assoc.
    apply (IH ds); [done|]. rewrite Ha. by apply text_delta_cache.
Qed.

Lemma subscribe_restores now now_ts c h text :
  cache_streaming c (world h) text ->
  showing c (world (subscribe JSON_stringify now now_ts c None h)) text.
Proof.
  intros (cached & before & m & Hc & Hmsgs & Hid & Htruthy & Hrole & Hcontent
          & _).
  unfold subscribe.
  set (h1 := match currentChatIdRef (world h) with Some _ => _ | None => h end).
  assert (Hc1 : sessionCacheMap (store (world h1)) !! c = Some cached).
  { subst h1. destruct (currentChatIdRef (world h)) as [old|]; [|done].
    destruct (truthy old); [|done]. cbn [andb]. case_bool_decide; [|done].
    simpl. by rewrite lookup_insert_ne. }
  cbn [world with_world store set_currentChatIdRef]. rewrite Hc1.
  match goal with
  | |- showing c (world (if ?b then fst (send_frame _ _ ?hh) else _)) text =>
      assert (Hshow : showing c (world hh) text)
  end.
  { split; [done|]. exists before, m. simpl. by rewrite Hid. }
  destruct (WebSocketManager.isConnected _); [|exact Hshow].
  unfold send_frame.
  destruct (WebSocketManager.send _ _ _) as [m' sent]. exact Hshow.
Qed.

(** X3. A reply that streams while its chat is not on screen is not
    lost: the cache accumulates the deltas, and when the user switches to
    that chat the message list ends with the streaming assistant message
    holding all the text so far, ready to grow with the next deltas. *)
Theorem background_stream_is_shown_on_switch now now_ts now' now_ts' c
    (ds later : list jsstring) (arrs arrs' : list Arrival) h :
  frame <$> arrs = text_delta c <$> ds ->
  frame <$> arrs' = text_delta c <$> later ->
  let streamed :=
    with_world
      (fun w => handleMessages arrs (handleMessage now now_ts (stream_start c) w))
      h in
  let switched := subscribe JSON_stringify now' now_ts' c None streamed in
  cache_streaming c (world streamed) (concat ds)
  /\ showing c (world switched) (concat ds)
  /\ showing c (handleMessages arrs' (world switched))
       (concat ds ++ concat later).
Proof.
  intros Hframes Hlater. cbn zeta.
  assert (Hcache : cache_streaming c
            (handleMessages arrs (handleMessage now now_ts (stream_start c)
                                    (world h))) (concat ds)).
  { apply (text_deltas_cache c ds arrs _ []); [done|].
    apply stream_start_cache. }
  split; [exact Hcache|].
  assert (Hshow : showing c
            (world (subscribe JSON_stringify now' now_ts' c None
               (with_world
                  (fun w => handleMessages arrs
                              (handleMessage now now_ts (stream_start c) w)) h)))
            (concat ds)).
  { apply subscribe_restores. exact Hcache. }
  split; [exact Hshow|]. by apply text_deltas_showing.
Qed.

Lemma call_if_world (present : bool) (call : UseChat.HookCall number) h :
  world (call_if present call h) = world h.
Proof. by destruct present. Qed.

(** Sending touches the socket manager only. *)
Lemma send_frame_world (data : json) h :
  exists m, world (fst (send_frame JSON_stringify data h))
            = set_wsManager m (world h).
Proof.
  unfold send_frame. destruct (WebSocketManager.send _ _ _) as [m sent].
  by exists m.
Qed.

Lemma subscribe_saves now now_ts A B h :
  currentChatIdRef (world h) = Some A -> truthy A = true -> A <> B ->
  let h' := subscribe JSON_stringify now now_ts B None h in
  currentChatIdRef (world h') = Some B
  /\ sessionCacheMap (store (world h')) !! A
     = Some {| messages := messagesRef h;
               c_isStreaming :=
                 default false
                   (c_isStreaming <$> sessionCacheMap (store (world h)) !! A);
               streamingMessageId := streamingMessageIdRef (world h);
               isLoading :=
                 default false
                   (isLoading <$> sessionCacheMap (store (world h)) !! A) |}.
Proof.
  intros Hcur HA Hne. cbn zeta. unfold subscribe. rewrite Hcur, HA.
  rewrite bool_decide_eq_true_2 by done. cbn [andb].
  match goal with
  | |- context [with_world (raw_set_cache A ?e) h] =>
      set (saved := e); set (h1 := with_world (raw_set_cache A saved) h)
  end.
  assert (HA1 : sessionCacheMap (store (world h1)) !! A = Some saved)
    by (simpl; apply lookup_insert_eq).
  clearbody h1. cbn [world with_world store set_currentChatIdRef].
  destruct (sessionCacheMap (store (world h1)) !! B) as [cached|] eqn:HB;
    match goal with
    | |- context [if ?b then fst (send_frame _ ?d ?hh) else _] =>
        destruct b;
        [destruct (send_frame_world d hh) as [m ->] |]
    end;
    cbn [world with_world store with_store set_wsManager currentChatIdRef
         set_pendingMessageRef set_streamingMessageIdRef setMessages
         set_currentChatIdRef];
    rewrite ?updateSessionCache_lookup_other by done;
    (split; [reflexivity | exact HA1]).
Qed.

Lemma subscribe_loads now now_ts A h entry :
  sessionCacheMap (store (world h)) !! A = Some entry ->
  currentChatIdRef (world h) <> Some A ->
  let h' := subscribe JSON_stringify now now_ts A None h in
  currentChatIdRef (world h') = Some A
  /\ st_messages (world h') = messages entry
  /\ streamingMessageIdRef (world h') = streamingMessageId entry
  /\ sessionCacheMap (store (world h')) !! A = Some entry.
Proof.
  intros HA Hcur. cbn zeta. unfold subscribe.
  set (h1 := match currentChatIdRef (world h) with Some _ => _ | None => h end).
  assert (H1 : sessionCacheMap (store (world h1)) !! A = Some entry).
  { subst h1. destruct (currentChatIdRef (world h)) as [old|]; [|done].
    destruct (truthy old); [|done]. cbn [andb]. case_bool_decide; [|done].
    simpl. rewrite lookup_insert_ne; [done | congruence]. }
  cbn [world with_world store set_currentChatIdRef]. rewrite H1.
  match goal with
  | |- context [if ?b then fst (send_frame _ ?d ?hh) else _] =>
      destruct b; [destruct (send_frame_world d hh) as [m ->] |]
  end; simpl; done.
Qed.

(** X4. Switching to another chat and back brings the conversation back
    as it was left: the visible messages, the streaming message in
    progress and the loading and streaming flags of the chat are those
    from before the round trip. *)
Theorem subscribe_round_trip now now_ts now' now_ts' A B h :
  currentChatIdRef (world h) = Some A ->
  truthy A = true ->
  A <> B ->
  messagesRef h = st_messages (world h) ->
  let away := sync_messagesRef (subscribe JSON_stringify now now_ts B None h) in
  let back := subscribe JSON_stringify now' now_ts' A None away in
  currentChatIdRef (world away) = Some B
  /\ currentChatIdRef (world back) = Some A
  /\ st_messages (world back) = st_messages (world h)
  /\ streamingMessageIdRef (world back) = streamingMessageIdRef (world h)
  /\ hook_isLoading (Some A) back = hook_isLoading (Some A) h
  /\ hook_isStreaming (Some A) back = hook_isStreaming (Some A) h.
Proof.
  intros Hcur HA Hne Hsync. cbn zeta.
  destruct (subscribe_saves now now_ts A B h Hcur HA Hne) as [HcurB Hsaved].
  split; [exact HcurB|].
  destruct (subscribe_loads now' now_ts' A
              (sync_messagesRef (subscribe JSON_stringify now now_ts B None h))
              _ Hsaved) as (Hc & Hm & Hr & He).
  { cbn [world sync_messagesRef]. rewrite HcurB. congruence. }
  split; [exact Hc|]. split; [by rewrite Hm|]. split; [by rewrite Hr|].
  unfold hook_isLoading, hook_isStreaming, currentCache. rewrite HA, He.
  by destruct (sessionCacheMap (store (world h)) !! A).
Qed.

Lemma sendMessage_connected isStreaming now now_ts content images
    skipLocalMessage w activeChatId :
  WebSocketManager.isConnected (wsManager w) = true ->
  truthy (trim content) = true \/ no_images images = false ->
  currentChatIdRef w = Some activeChatId ->
  truthy activeChatId = true ->
  let w' := sendMessage JSON_stringify isStreaming now now_ts content images
              skipLocalMessage w in
  WebSocketManager.wire (wsManager w')
  = WebSocketManager.wire (wsManager w)
    ++ [JSON_stringify (messageData activeChatId content images)]
  /\ st_messages w'
     = st_messages w
       ++ (if skipLocalMessage then []
           else [{| id := Date_now_toString now; role := user;
                    content := trim content; timestamp := now_ts;
                    images := if has_images images then images else None;
                    isStreaming := None |}])
  /\ isLoading <$> sessionCacheMap (store w') !! activeChatId = Some true
  /\ c_isStreaming <$> sessionCacheMap (store w') !! activeChatId = Some false
  /\ pendingMessageRef w' = None
  /\ calls w' = calls w.
Proof.
  intros Hopen Hguard Hcid Hid. cbn zeta. unfold sendMessage.
  rewrite Hcid, Hid.
  replace (negb (truthy (trim content)) && no_images images) with false
    by (destruct Hguard as [-> | ->]; [done | by rewrite andb_false_r]).
  simpl orb. cbv iota.
  set (w1 := if isStreaming then _ else _).
  set (w2 := if negb skipLocalMessage then _ else _).
  set (w3 := with_store _ w2).
  assert (Hws : wsManager w3 = wsManager w).
  { subst w3 w2 w1. destruct isStreaming, skipLocalMessage; reflexivity. }
  assert (Hcalls : calls w3 = calls w).
  { subst w3 w2 w1. destruct isStreaming, skipLocalMessage; reflexivity. }
  assert (Hmsgs : st_messages w3
                  = st_messages w
                    ++ (if skipLocalMessage then []
                        else [{| id := Date_now_toString now; role := user;
                                 content := trim content; timestamp := now_ts;
                                 images := if has_images images
                                           then images else None;
                                 isStreaming := None |}])).
  { subst w3 w2 w1.
    destruct isStreaming, skipLocalMessage; simpl; by rewrite ?app_nil_r. }
  assert (Hentry : sessionCacheMap (store w3) !! activeChatId
                   = Some (spread
                             (default default_cache
                                (sessionCacheMap (store w2) !! activeChatId))
                             {| p_messages := None; p_isStreaming := Some false;
                                p_streamingMessageId := None;
                                p_isLoading := Some true |})).
  { subst w3. cbn [store with_store]. apply updateSessionCache_lookup_self. }
  pose proof (send_connected JSON_stringify
                (messageData activeChatId content images) (wsManager w) Hopen)
    as Hwire.
  pose proof (send_result JSON_stringify
                (messageData activeChatId content images) (wsManager w))
    as Hres.
  rewrite Hopen in Hres. rewrite Hws.
  destruct (WebSocketManager.send JSON_stringify _ (wsManager w))
    as [m sent]. simpl in Hwire, Hres. subst sent.
  cbn [wsManager st_messages store pendingMessageRef calls
       set_pendingMessageRef set_wsManager].
  rewrite Hentry. done.
Qed.

(** X5. A submit that passes the guard while the socket is open puts
    exactly one frame on the wire, the chat frame with the trimmed text,
    appends the user's message to the list unless told to skip it, marks
    the chat as loading and not streaming, clears the pending message
    and reports no error. *)
Theorem sendMessage_transmits_once isStreaming now now_ts content images
    skipLocalMessage w activeChatId :
  WebSocketManager.isConnected (wsManager w) = true ->
  truthy (trim content) = true \/ no_images images = false ->
  currentChatIdRef w = Some activeChatId ->
  truthy activeChatId = true ->
  let w' := sendMessage JSON_stringify isStreaming now now_ts content images
              skipLocalMessage w in
  WebSocketManager.wire (wsManager w')
  = WebSocketManager.wire (wsManager w)
    ++ [JSON_stringify (messageData activeChatId content images)]
  /\ st_messages w'
     = st_messages w
       ++ (if skipLocalMessage then []
           else [{| id := Date_now_toString now; role := user;
                    content := trim content; timestamp := now_ts;
                    images := if has_images images then images else None;
                    isStreaming := None |}])
  /\ isLoading <$> sessionCacheMap (store w') !! activeChatId = Some true
  /\ c_isStreaming <$> sessionCacheMap (store w') !! activeChatId = Some false
  /\ pendingMessageRef w' = None
  /\ calls w' = calls w.
Proof. apply sendMessage_connected. Qed.

(** X6. After a [result] or [cancelled] frame for a chat, and after
    [history_cleared], the hook reports that chat as neither loading nor
    streaming, whatever the cache said before; the first two keep the
    cached messages of the chat, and none of the three touches the cache
    entry of another chat. *)
Theorem terminal_frame_stops_spinner now now_ts c (m : UseChat.OtherMessage number) h :
  (m = cancelled c \/ (exists success cost duration,
                         m = result c success cost duration)
   \/ m = history_cleared c) ->
  let h' := handleOther JSON_stringify now now_ts m h in
  hook_isLoading (Some c) h' = false
  /\ hook_isStreaming (Some c) h' = false
  /\ (m <> history_cleared c ->
      messages <$> sessionCacheMap (store (world h')) !! c
      = messages <$> sessionCacheMap (store (world h)) !! c)
  /\ forall c', c' <> c ->
       sessionCacheMap (store (world h')) !! c'
       = sessionCacheMap (store (world h)) !! c'.
Proof.
  intros Hm. cbn zeta. unfold hook_isLoading, hook_isStreaming, currentCache.
  assert (Hshape :
    (sessionCacheMap (store (world (handleOther JSON_stringify now now_ts m h)))
     = match sessionCacheMap (store (world h)) !! c with
       | Some cached =>
           <[c := {| messages := messages cached; c_isStreaming := false;
                     streamingMessageId := None; isLoading := false |}]>
             (sessionCacheMap (store (world h)))
       | None => sessionCacheMap (store (world h))
       end
     /\ m <> history_cleared c)
    \/ (sessionCacheMap
          (store (world (handleOther JSON_stringify now now_ts m h)))
        = delete c (sessionCacheMap (store (world h)))
        /\ m = history_cleared c)).
  { destruct Hm as [-> | [(success & cost & duration & ->) | ->]];
      [left | left | right]; (split; [|done]);
      unfold handleOther, settle_cache;
      destruct (bool_decide (Some c = currentChatIdRef (world h)));
      rewrite ?call_if_world;
      cbn [world with_world store set_streamingMessageIdRef
           setIsClearing setMessages with_store];
      rewrite ?call_if_world;
      try (destruct (sessionCacheMap (store (world h)) !! c));
      reflexivity. }
  destruct Hshape as [[-> Hne] | [-> ->]].
  - destruct (sessionCacheMap (store (world h)) !! c) as [cached|] eqn:Hc.
    + rewrite lookup_insert_eq. destruct (truthy c); simpl.
      all: repeat split; try done.
      all: intros c' Hc'; by rewrite lookup_insert_ne.
    + rewrite Hc. destruct (truthy c); simpl; repeat split; done.
  - rewrite lookup_delete_eq. destruct (truthy c); simpl.
    all: repeat split; try done.
    all: intros c' Hc'; by rewrite lookup_delete_ne.
Qed.

(** X7. Stopping while the socket is not open does nothing whatsoever:
    no frame, no error callback, and the chat stays marked as loading.
    With the socket open exactly one stop frame goes out and the chat is
    marked as neither loading nor streaming; the message list is kept. *)
Theorem stopChat_needs_open_socket c h :
  truthy c = true ->
  (WebSocketManager.isConnected (wsManager (world h)) = false ->
   stopChat JSON_stringify (Some c) h = h)
  /\ (WebSocketManager.isConnected (wsManager (world h)) = true ->
      let h' := stopChat JSON_stringify (Some c) h in
      WebSocketManager.wire (wsManager (world h'))
      = WebSocketManager.wire (wsManager (world h))
        ++ [JSON_stringify
              (JObj [(lit "type", JStr (lit "stop")); (lit "chat_id", JStr c)])]
      /\ hook_isLoading (Some c) h' = false
      /\ hook_isStreaming (Some c) h' = false
      /\ st_messages (world h') = st_messages (world h)
      /\ calls (world h') = calls (world h)).
Proof.
  intros Htruthy. unfold stopChat, WebSocketManager.stop. rewrite Htruthy.
  split.
  - intros Hclosed. rewrite send_disconnected by done.
    by destruct h as [[] ? ? ? ? ? ? ?].
  - intros Hopen. cbn zeta.
    pose proof (send_connected JSON_stringify
                  (JObj [(lit "type", JStr (lit "stop"));
                         (lit "chat_id", JStr c)])
                  (wsManager (world h)) Hopen) as Hwire.
    pose proof (send_result JSON_stringify
                  (JObj [(lit "type", JStr (lit "stop"));
                         (lit "chat_id", JStr c)])
                  (wsManager (world h))) as Hres.
    rewrite Hopen in Hres.
    destruct (WebSocketManager.send JSON_stringify _ (wsManager (world h)))
      as [m stopped]. simpl in Hwire, Hres. subst stopped.
    unfold hook_isLoading, hook_isStreaming, currentCache. rewrite Htruthy.
    cbn [world with_world store with_store wsManager set_wsManager
         st_messages calls].
    rewrite updateSessionCache_lookup_self. done.
Qed.

(** X8. Clearing the history while the socket is not open is reported
    through onError and leaves the hook not clearing; with the socket
    open one clear_history frame goes out and the hook is clearing until
    the [history_cleared] frame for the chat on screen arrives, which
    empties the message list, forgets the streaming message and removes
    the chat's cache entry. *)
Theorem clearHistory_round now now_ts c h :
  truthy c = true ->
  (WebSocketManager.isConnected (wsManager (world h)) = false ->
   let h' := clearHistory JSON_stringify (Some c) h in
   isClearing h' = false
   /\ wsManager (world h') = wsManager (world h)
   /\ calls (world h')
      = calls (world h)
        ++ (if onError (optionsRef (world h))
            then [CallOnError not_connected_error] else []))
  /\ (WebSocketManager.isConnected (wsManager (world h)) = true ->
      currentChatIdRef (world h) = Some c ->
      let h' := clearHistory JSON_stringify (Some c) h in
      let h'' := handleOther JSON_stringify now now_ts (history_cleared c) h' in
      isClearing h' = true
      /\ WebSocketManager.wire (wsManager (world h'))
         = WebSocketManager.wire (wsManager (world h))
           ++ [JSON_stringify
                 (JObj [(lit "type", JStr (lit "clear_history"));
                        (lit "chat_id", JStr c)])]
      /\ isClearing h'' = false
      /\ st_messages (world h'') = []
      /\ streamingMessageIdRef (world h'') = None
      /\ sessionCacheMap (store (world h'')) !! c = None).
Proof.
  intros Htruthy. unfold clearHistory, send_frame. rewrite Htruthy.
  cbn [world setIsClearing]. split.
  - intros Hclosed. cbn zeta. rewrite send_disconnected by done.
    unfold call_onError. cbn [world with_world setIsClearing optionsRef
      set_wsManager isClearing wsManager calls].
    destruct (onError (optionsRef (world h))); simpl;
      rewrite ?app_nil_r; by destruct (wsManager (world h)).
  - intros Hopen Hcur. cbn zeta.
    pose proof (send_connected JSON_stringify
                  (JObj [(lit "type", JStr (lit "clear_history"));
                         (lit "chat_id", JStr c)])
                  (wsManager (world h)) Hopen) as Hwire.
    pose proof (send_result JSON_stringify
                  (JObj [(lit "type", JStr (lit "clear_history"));
                         (lit "chat_id", JStr c)])
                  (wsManager (world h))) as Hres.
    rewrite Hopen in Hres.
    destruct (WebSocketManager.send JSON_stringify _ (wsManager (world h)))
      as [m sent]. simpl in Hwire, Hres. subst sent.
    unfold handleOther.
    cbn [world with_world setIsClearing set_wsManager currentChatIdRef
         isClearing wsManager].
    rewrite Hcur, bool_decide_eq_true_2 by done.
    rewrite !call_if_world.
    split; [done|]. split; [done|]. split; [by destruct (onToolHistory _)|].
    simpl. rewrite lookup_delete_eq. done.
Qed.

Lemma find_message_spec wanted (l : list Message) m :
  find_message wanted l = Some m -> m ∈ l /\ Some (id m) = wanted.
Proof.
  unfold find_message. intros [Hin Hid]%List.find_some.
  split; [by apply list_elem_of_In|]. by apply bool_decide_eq_true in Hid.
Qed.

Lemma ends_with_user_snoc (l : list Message) :
  ends_with_user l = true ->
  exists before m, l = before ++ [m] /\ role m = user.
Proof.
  unfold ends_with_user. destruct (last l) as [m|] eqn:Hlast; [|done].
  apply last_Some in Hlast as [before ->]. exists before, m.
  split; [done|]. by destruct (role m).
Qed.

Lemma processing_state_flags now now_ts c (ss : StreamingState) w :
  currentChatIdRef w = Some c -> is_streaming ss = true ->
  let w' := handleMessage now now_ts (processing_state c true (Some ss)) w in
  isLoading <$> sessionCacheMap (store w') !! c = Some true
  /\ c_isStreaming <$> sessionCacheMap (store w') !! c = Some true.
Proof.
  intros Hcur Hss. cbn zeta. unfold handleMessage.
  rewrite Hcur, bool_decide_eq_true_2 by done. cbn [andb]. rewrite Hss.
  cbn [store setMessages with_store set_streamingMessageIdRef].
  rewrite !updateSessionCache_lookup_self. done.
Qed.

(** X9. A client that comes back while a reply is streaming is sent the
    history, which ends with the user's message, and then the processing
    state.  Whether or not it still held a partial streaming message, it
    ends up with the history followed by one streaming assistant message,
    the last of the list, which carries the content of the snapshot.
    Nothing stands between the two, with one exception: when the message
    that the client held under the cached [streamingMessageId] is a user
    message, that message is kept between the history and the streaming
    message. *)
Theorem reconnect_shows_history_then_snapshot now now_ts c
    (historyMessages : list Message) (ss : StreamingState) h :
  currentChatIdRef (world h) = Some c ->
  ends_with_user historyMessages = true ->
  is_streaming ss = true ->
  let h' :=
    handleFrame JSON_stringify now now_ts
      (Streaming (processing_state c true (Some ss)))
      (handleFrame JSON_stringify now now_ts
         (Other (history c historyMessages)) h) in
  exists (kept : list Message) streamingMessage,
    st_messages (world h') = historyMessages ++ kept ++ [streamingMessage]
    /\ (kept = []
        \/ exists cached m,
             kept = [m] /\ role m = user
             /\ sessionCacheMap (store (world h)) !! c = Some cached
             /\ Some (id m) = streamingMessageId cached
             /\ m ∈ messagesRef h ++ messages cached)
    /\ role streamingMessage = assistant
    /\ content streamingMessage = or_else (current_content ss) []
    /\ isStreaming streamingMessage = Some true
    /\ streamingMessageIdRef (world h') = Some (id streamingMessage)
    /\ isLoading <$> sessionCacheMap (store (world h')) !! c = Some true
    /\ c_isStreaming <$> sessionCacheMap (store (world h')) !! c = Some true.
Proof.
  intros Hcur Huser Hss. cbn zeta.
  destruct (ends_with_user_snoc _ Huser) as (before & lastMsg & Hhist & Hrole).
  cbn [handleFrame]. unfold handleOther.
  rewrite Hcur, bool_decide_eq_true_2 by done.
  unfold handleHistory.
  replace (Nat.eqb (length historyMessages) 0) with false
    by (rewrite Hhist, length_app; simpl; symmetry; apply Nat.eqb_neq; lia).
  rewrite andb_false_r. rewrite Huser.
  match goal with
  | |- context [with_world (setMessages (fun _ => default historyMessages ?mg)) h] =>
      set (merged := mg)
  end.
  assert (Hmerged : merged = None
                    \/ exists cached m,
                         merged = Some (historyMessages ++ [m])
                         /\ sessionCacheMap (store (world h)) !! c = Some cached
                         /\ Some (id m) = streamingMessageId cached
                         /\ m ∈ messagesRef h ++ messages cached).
  { subst merged.
    destruct (sessionCacheMap (store (world h)) !! c) as [cached|] eqn:Hc;
      [|by left].
    destruct (c_isStreaming cached && truthy_ref (streamingMessageId cached));
      [|by left].
    destruct (find_message (streamingMessageId cached) (messagesRef h))
      as [m|] eqn:Hfind.
    - right. exists cached, m. split; [done|]. split; [done|].
      apply find_message_spec in Hfind as [Hin Hid].
      split; [done|]. apply elem_of_app. by left.
    - destruct (find_message (streamingMessageId cached) (messages cached))
        as [m|] eqn:Hfind'; [|by left].
      right. exists cached, m. split; [done|]. split; [done|].
      apply find_message_spec in Hfind' as [Hin Hid].
      split; [done|]. apply elem_of_app. by right. }
  clearbody merged.
  destruct (processing_state_flags now now_ts c ss
              (setMessages (fun _ => default historyMessages merged) (world h))
              Hcur Hss) as [Hloading Hstreaming].
  cbn [world with_world]. rewrite Hloading, Hstreaming. clear Hloading Hstreaming.
  unfold handleMessage. cbn [world with_world currentChatIdRef setMessages].
  rewrite Hcur, bool_decide_eq_true_2 by done. cbn [andb]. rewrite Hss.
  set (sm := {| id := Date_now_toString now; role := assistant;
                content := or_else (current_content ss) [];
                timestamp := now_ts; images := None;
                isStreaming := Some true |}).
  cbn [st_messages setMessages with_store set_streamingMessageIdRef
       streamingMessageIdRef currentChatIdRef].
  assert (Hplain : place_streaming sm historyMessages
                   = historyMessages ++ [sm]).
  { unfold place_streaming. unfold ends_with_user in Huser.
    destruct (last historyMessages) as [lm|]; [|done].
    by destruct (role lm). }
  destruct Hmerged as [-> | (cached & m & -> & Hc & Hid & Hin)];
    cbv [default from_option Datatypes.id].
  - exists [], sm. split; [exact Hplain|]. split; [by left|].
    repeat split; done.
  - destruct (role m) eqn:Hm.
    + exists [m], sm. split.
      * unfold place_streaming. rewrite last_snoc, Hm.
        by rewrite <- app_assoc.
      * split; [|repeat split; done].
        right. exists cached, m. done.
    + exists [], sm. split.
      * unfold place_streaming. rewrite last_snoc, Hm.
        unfold slice_0_minus1. rewrite length_app. simpl.
        replace (length historyMessages + 1 - 1)%nat
          with (length historyMessages) by lia.
        by rewrite take_app_length.
      * split; [by left|]. repeat split; done.
Qed.

Lemma send_frame_shape (data : json) h :
  exists m, fst (send_frame JSON_stringify data h)
            = with_world (set_wsManager m) h.
Proof.
  unfold send_frame. destruct (WebSocketManager.send _ _ _) as [m sent].
  by exists m.
Qed.

Lemma subscribe_pending now now_ts c (pending : PendingMessage) h :
  let h' := subscribe JSON_stringify now now_ts c (Some pending) h in
  skipNextChatIdChangeRef h' = true
  /\ currentChatIdRef (world h') = Some c
  /\ pendingMessageRef (world h') = Some pending
  /\ st_messages (world h')
     = [{| id := Date_now_toString now; role := user;
           content := trim (pm_content pending); timestamp := now_ts;
           images := if has_images (pm_images pending)
                     then pm_images pending else None;
           isStreaming := None |}]
  /\ isLoading <$> sessionCacheMap (store (world h')) !! c = Some true.
Proof.
  cbn zeta. unfold subscribe.
  set (h1 := match currentChatIdRef (world h) with Some _ => _ | None => h end).
  clearbody h1.
  match goal with
  | |- context [if ?b then fst (send_frame _ ?d ?hh) else _] =>
      destruct b; [destruct (send_frame_shape d hh) as [m ->] |]
  end;
    cbn [world with_world store with_store set_wsManager currentChatIdRef
         set_pendingMessageRef set_streamingMessageIdRef setMessages
         set_currentChatIdRef skipNextChatIdChangeRef
         set_skipNextChatIdChangeRef pendingMessageRef st_messages];
    rewrite updateSessionCache_lookup_self; repeat split; reflexivity.
Qed.


Lemma send_stays_connected (data : json) (m : WebSocketManager.t) :
  WebSocketManager.isConnected m = true ->
  WebSocketManager.isConnected (fst (WebSocketManager.send JSON_stringify data m))
  = true.
Proof.
  unfold WebSocketManager.send, WebSocketManager.isConnected.
  destruct (WebSocketManager.ws m) as [sock|]; [|done].
  intros Hopen. rewrite Hopen. simpl. exact Hopen.
Qed.

Lemma subscribe_pending_socket now now_ts c (pending : PendingMessage) h :
  WebSocketManager.isConnected (wsManager (world h)) = true ->
  let h' := subscribe JSON_stringify now now_ts c (Some pending) h in
  WebSocketManager.wire (wsManager (world h'))
  = WebSocketManager.wire (wsManager (world h))
    ++ [JSON_stringify (subscribe_frame c)]
  /\ WebSocketManager.isConnected (wsManager (world h')) = true
  /\ calls (world h') = calls (world h).
Proof.
  intros Hopen. cbn zeta. unfold subscribe.
  set (h1 := match currentChatIdRef (world h) with Some _ => _ | None => h end).
  assert (H1 : wsManager (world h1) = wsManager (world h)
               /\ calls (world h1) = calls (world h)).
  { subst h1. destruct (currentChatIdRef (world h)) as [old|]; [|done].
    by destruct (truthy old && bool_decide (old <> c)). }
  destruct H1 as [Hm Hcalls]. clearbody h1.
  cbn [world with_world store with_store set_wsManager currentChatIdRef
       set_pendingMessageRef set_streamingMessageIdRef setMessages
       set_currentChatIdRef skipNextChatIdChangeRef
       set_skipNextChatIdChangeRef pendingMessageRef st_messages wsManager].
  rewrite Hm, Hopen. unfold send_frame.
  cbn [world with_world store with_store set_wsManager currentChatIdRef
       set_pendingMessageRef set_streamingMessageIdRef setMessages
       set_currentChatIdRef skipNextChatIdChangeRef
       set_skipNextChatIdChangeRef pendingMessageRef st_messages wsManager].
  rewrite Hm.
  pose proof (send_connected JSON_stringify (subscribe_frame c)
                (wsManager (world h)) Hopen) as Hwire.
  pose proof (send_stays_connected (subscribe_frame c)
                (wsManager (world h)) Hopen) as Hstill.
  destruct (WebSocketManager.send JSON_stringify (subscribe_frame c)
              (wsManager (world h))) as [m sent].
  cbn [fst] in *.
  cbn [fst world with_world store with_store set_wsManager currentChatIdRef
       set_pendingMessageRef set_streamingMessageIdRef setMessages
       set_currentChatIdRef skipNextChatIdChangeRef
       set_skipNextChatIdChangeRef pendingMessageRef st_messages wsManager
       calls].
  by rewrite Hcalls.
Qed.

Lemma sendMessage_keeps_chat isStreaming now now_ts content images
    skipLocalMessage w :
  currentChatIdRef
    (sendMessage JSON_stringify isStreaming now now_ts content images
       skipLocalMessage w)
  = currentChatIdRef w.
Proof.
  unfold sendMessage. destruct (currentChatIdRef w) as [activeChatId|] eqn:Hcur;
    [|done].
  destruct (_ || _); [done|].
  destruct (WebSocketManager.send _ _ _) as [m sent].
  destruct sent; [by destruct isStreaming, skipLocalMessage|].
  unfold call_onError.
  destruct isStreaming, skipLocalMessage;
    cbn [optionsRef set_pendingMessageRef with_store set_wsManager
         set_streamingMessageIdRef setMessages negb];
    by destruct (onError (optionsRef w)).
Qed.

(** X14. Opening a new chat with its first message on a connected
    socket, in the order in which the program runs it: [subscribe] with
    the pending message, [sendMessage] with [skipLocalMessage] 50 ms
    later, and the effect of the [chatId] prop after the chat is selected,
    100 ms later.  [subscribe] shows the message and holds it as pending;
    while it is pending an empty history frame changes nothing.  The
    delayed [sendMessage] leaves the list as it is and clears the pending
    message.  The effect that follows neither subscribes again nor resets
    the list, however often it runs, and the chat is reported as loading.
    The guard is gone with the pending message: an empty history frame
    that arrives only after the send replaces the list by the empty
    history. *)
Theorem new_chat_pending_guard isStreaming now now_ts now' now_ts'
    now'' now_ts'' c content images h :
  truthy c = true ->
  WebSocketManager.isConnected (wsManager (world h)) = true ->
  truthy (trim content) = true \/ no_images images = false ->
  let pending := {| pm_content := content; pm_images := images |} in
  let userMessage :=
    {| id := Date_now_toString now; role := user;
       content := trim content; timestamp := now_ts;
       images := if has_images images then images else None;
       isStreaming := None |} in
  let subscribed := subscribe JSON_stringify now now_ts c (Some pending) h in
  let sent :=
    with_world
      (sendMessage JSON_stringify isStreaming now' now_ts' content images true)
      subscribed in
  let rendered := chatId_effect JSON_stringify now'' now_ts'' (Some c) sent in
  st_messages (world subscribed) = [userMessage]
  /\ pendingMessageRef (world subscribed) = Some pending
  /\ handleOther JSON_stringify now' now_ts' (history c []) subscribed
     = subscribed
  /\ st_messages (world sent) = [userMessage]
  /\ pendingMessageRef (world sent) = None
  /\ world rendered = world sent
  /\ skipNextChatIdChangeRef rendered = false
  /\ prevChatIdRef rendered = Some c
  /\ chatId_effect JSON_stringify now'' now_ts'' (Some c) rendered = rendered
  /\ hook_isLoading (Some c) rendered = true
  /\ st_messages
       (world (handleOther JSON_stringify now'' now_ts'' (history c []) sent))
     = []
  /\ st_messages
       (world
          (handleOther JSON_stringify now'' now_ts'' (history c []) rendered))
     = [].
Proof.
  intros Hc Hopen Hguard. cbn zeta.
  set (pending := {| pm_content := content; pm_images := images |}).
  destruct (subscribe_pending now now_ts c pending h)
    as (Hskip & Hcur & Hpend & Hmsgs & _).
  destruct (subscribe_pending_socket now now_ts c pending h Hopen)
    as (_ & Hstill & _).
  generalize dependent (subscribe JSON_stringify now now_ts c (Some pending) h).
  intros subscribed Hskip Hcur Hpend Hmsgs Hstill.
  destruct (sendMessage_connected isStreaming now' now_ts' content
              images true (world subscribed) c Hstill Hguard Hcur Hc)
    as (_ & Hm & Hl & Hs & Hp & _).
  pose proof (sendMessage_keeps_chat isStreaming now' now_ts' content images
                true (world subscribed)) as Hkeep.
  rewrite Hcur in Hkeep. rewrite app_nil_r, Hmsgs in Hm.
  set (w' := sendMessage JSON_stringify isStreaming now' now_ts' content
               images true (world subscribed)) in *.
  change (with_world
            (sendMessage JSON_stringify isStreaming now' now_ts' content
               images true) subscribed)
    with (with_world (fun _ => w') subscribed).
  clearbody w'.
  assert (Hlate : forall h0,
            world h0 = w' ->
            st_messages
              (world (handleOther JSON_stringify now'' now_ts''
                        (history c []) h0)) = []).
  { intros h0 Hw. unfold handleOther.
    rewrite Hw, Hkeep, bool_decide_eq_true_2 by done.
    unfold handleHistory. rewrite Hw, Hp. cbn [andb].
    destruct (sessionCacheMap (store w') !! c) as [cached|]; [|done].
    injection Hs as Hs. by rewrite Hs. }
  split; [exact Hmsgs|]. split; [exact Hpend|]. split.
  { unfold handleOther. rewrite Hcur, bool_decide_eq_true_2 by done.
    unfold handleHistory. by rewrite Hpend. }
  split; [exact Hm|]. split; [exact Hp|].
  assert (Hrendered :
            chatId_effect JSON_stringify now'' now_ts'' (Some c)
              (with_world (fun _ => w') subscribed)
            = set_prevChatIdRef (Some c)
                (set_skipNextChatIdChangeRef false
                   (with_world (fun _ => w') subscribed))).
  { unfold chatId_effect.
    cbn [skipNextChatIdChangeRef with_world]. by rewrite Hskip. }
  rewrite Hrendered.
  cbn [world with_world set_prevChatIdRef set_skipNextChatIdChangeRef
       skipNextChatIdChangeRef prevChatIdRef].
  do 3 (split; [done|]). split.
  { unfold chatId_effect.
    cbn [world with_world set_prevChatIdRef set_skipNextChatIdChangeRef
         skipNextChatIdChangeRef prevChatIdRef].
    rewrite Hp, Hkeep. cbn [truthy_ref]. rewrite Hc.
    by rewrite bool_decide_eq_true_2. }
  split.
  { unfold hook_isLoading, currentCache. rewrite Hc.
    cbn [world with_world set_prevChatIdRef set_skipNextChatIdChangeRef].
    by rewrite Hl. }
  split; by apply Hlate.
Qed.



End HookFacts.

Lemma frame_for_other_chat_is_invisible_witness :
  UseChat.screen
    (UseChat.handleFrame type_tag 5 5
       (UseChat.Streaming (text_delta (lit "chat-b") (lit "hi"))) online_hook)
  = UseChat.screen online_hook.
Proof.
  assert (Hto : UseChat.addressee (number := N)
                  (UseChat.Streaming (text_delta (lit "chat-b") (lit "hi")))
                = Some (lit "chat-b")) by reflexivity.
  assert (Hcur : currentChatIdRef (UseChat.world online_hook)
                 <> Some (lit "chat-b")) by (vm_compute; discriminate).
  exact (proj1 (frame_for_other_chat_is_invisible type_tag 5 5 _ _
                  online_hook Hto Hcur)).
Defined.

Lemma background_stream_is_shown_on_switch_witness :
  showing (lit "chat-b")
    (UseChat.world
       (UseChat.subscribe type_tag 8 8 (lit "chat-b") None
          (UseChat.with_world
             (fun w =>
                handleMessages hel_lo
                  (handleMessage 5 5 (stream_start (lit "chat-b")) w))
             online_hook)))
    (lit "Hello").
Proof.
  assert (Hds : frame <$> hel_lo
                = text_delta (lit "chat-b") <$> [lit "Hel"; lit "lo"])
    by reflexivity.
  assert (Hlater : frame <$> [] = text_delta (lit "chat-b") <$> [])
    by reflexivity.
  destruct (background_stream_is_shown_on_switch type_tag 5 5 8 8
              (lit "chat-b") [lit "Hel"; lit "lo"] [] hel_lo [] online_hook
              Hds Hlater) as (_ & Hshown & _).
  exact Hshown.
Defined.

Lemma subscribe_round_trip_witness :
  let away :=
    UseChat.sync_messagesRef
      (UseChat.subscribe type_tag 5 5 (lit "chat-b") None online_hook) in
  st_messages
    (UseChat.world (UseChat.subscribe type_tag 6 6 (lit "chat-a") None away))
  = st_messages (UseChat.world online_hook).
Proof.
  assert (Hne : lit "chat-a" <> lit "chat-b") by (vm_compute; discriminate).
  destruct (subscribe_round_trip type_tag 5 5 6 6 (lit "chat-a")
              (lit "chat-b") online_hook eq_refl eq_refl Hne eq_refl)
    as (_ & _ & Hmessages & _).
  exact Hmessages.
Defined.

Lemma sendMessage_transmits_once_witness :
  WebSocketManager.wire
    (wsManager
       (sendMessage type_tag false 5 5 (lit " hi ") None false
          (UseChat.world online_hook)))
  = [lit "chat"].
Proof.
  assert (Hguard : truthy (trim (lit " hi ")) = true \/ no_images None = false)
    by (left; reflexivity).
  destruct (sendMessage_transmits_once type_tag false 5 5 (lit " hi ") None
              false (UseChat.world online_hook) (lit "chat-a") eq_refl Hguard
              eq_refl eq_refl) as (Hwire & _).
  rewrite Hwire. reflexivity.
Defined.

Lemma terminal_frame_stops_spinner_witness :
  UseChat.hook_isLoading (Some (lit "chat-a"))
    (UseChat.handleOther type_tag 6 6 (UseChat.cancelled (lit "chat-a"))
       (UseChat.with_world
          (sendMessage type_tag false 5 5 (lit "hi") None false) online_hook))
  = false.
Proof.
  destruct (terminal_frame_stops_spinner type_tag 6 6 (lit "chat-a")
              (UseChat.cancelled (lit "chat-a"))
              (UseChat.with_world
                 (sendMessage type_tag false 5 5 (lit "hi") None false)
                 online_hook) (or_introl eq_refl)) as (Hloading & _).
  exact Hloading.
Defined.

Lemma stopChat_needs_open_socket_witness :
  UseChat.stopChat type_tag (Some (lit "chat-a")) offline_hook = offline_hook
  /\ WebSocketManager.wire
       (wsManager
          (UseChat.world
             (UseChat.stopChat type_tag (Some (lit "chat-a")) online_hook)))
     = [lit "stop"].
Proof.
  split.
  - destruct (stopChat_needs_open_socket type_tag (lit "chat-a") offline_hook
                eq_refl) as (Hoffline & _).
    apply Hoffline. reflexivity.
  - destruct (stopChat_needs_open_socket type_tag (lit "chat-a") online_hook
                eq_refl) as (_ & Honline).
    destruct (Honline eq_refl) as (Hwire & _).
    rewrite Hwire. reflexivity.
Defined.

Lemma clearHistory_round_witness :
  UseChat.isClearing
    (UseChat.clearHistory type_tag (Some (lit "chat-a")) offline_hook)
  = false
  /\ UseChat.isClearing
       (UseChat.clearHistory type_tag (Some (lit "chat-a")) online_hook)
     = true.
Proof.
  split.
  - destruct (clearHistory_round type_tag 5 5 (lit "chat-a") offline_hook
                eq_refl) as (Hoffline & _).
    destruct (Hoffline eq_refl) as (Hclearing & _). exact Hclearing.
  - destruct (clearHistory_round type_tag 5 5 (lit "chat-a") online_hook
                eq_refl) as (_ & Honline).
    destruct (Honline eq_refl eq_refl) as (Hclearing & _). exact Hclearing.
Defined.

Lemma reconnect_shows_history_then_snapshot_witness :
  exists streamingMessage,
    st_messages
      (UseChat.world
         (UseChat.handleFrame type_tag 5 5
            (UseChat.Streaming
               (processing_state (lit "chat-a") true (Some half_reply)))
            (UseChat.handleFrame type_tag 5 5
               (UseChat.Other (UseChat.history (lit "chat-a") [question]))
               online_hook)))
    = [question; streamingMessage]
    /\ content streamingMessage = lit "Hel".
Proof.
  destruct (reconnect_shows_history_then_snapshot type_tag 5 5 (lit "chat-a")
              [question] half_reply online_hook eq_refl eq_refl eq_refl)
    as (kept & streamingMessage & Hmessages & Hkept & _ & Hcontent & _).
  exists streamingMessage. split; [|exact Hcontent].
  destruct Hkept as [-> | (cached & m & _ & _ & Hcached & _)];
    [exact Hmessages|].
  vm_compute in Hcached. discriminate.
Defined.

Lemma new_chat_pending_guard_witness :
  st_messages
    (UseChat.world
       (UseChat.with_world
          (sendMessage type_tag false 6 6 (lit " hi ") None true)
          (UseChat.subscribe type_tag 5 5 (lit "chat-b")
             (Some {| pm_content := lit " hi "; pm_images := None |})
             online_hook)))
  = [{| id := Date_now_toString 5; role := user; content := lit "hi";
        timestamp := 5; images := None; isStreaming := None |}]
  /\ st_messages
       (UseChat.world
          (UseChat.handleOther type_tag 7 7 (UseChat.history (lit "chat-b") [])
             (UseChat.with_world
                (sendMessage type_tag false 6 6 (lit " hi ") None true)
                (UseChat.subscribe type_tag 5 5 (lit "chat-b")
                   (Some {| pm_content := lit " hi "; pm_images := None |})
                   online_hook))))
     = [].
Proof.
  assert (Hguard : truthy (trim (lit " hi ")) = true \/ no_images None = false)
    by (left; reflexivity).
  destruct (new_chat_pending_guard type_tag false 5 5 6 6 7 7 (lit "chat-b")
              (lit " hi ") None online_hook eq_refl eq_refl Hguard)
    as (_ & _ & _ & Hsent & _ & _ & _ & _ & _ & _ & Hlate & _).
  split; [exact Hsent | exact Hlate].
Defined.



(** ** Tool cards *)

Section ToolFacts.

Import ChatContainer.

Variable Date_parse : jsstring -> N.

Implicit Types (t : Tools) (e : ToolEvent) (toolId : jsstring).

Lemma no_tools_wf : tools_wf no_tools.
Proof.
  split; [constructor|]. split.
  - intros toolId. simpl. rewrite lookup_empty, elem_of_nil.
    split; [done | by intros [? ?]].
  - intros toolId tool. simpl. by rewrite lookup_empty.
Qed.

Lemma onToolUse_wf name toolId input now t :
  tools_wf t -> tools_wf (onToolUse name toolId input now t).
Proof.
  intros (Hnodup & Hdom & Hids). unfold onToolUse. split; [|split]; simpl.
  - case_bool_decide as Hin; [done|].
    apply NoDup_app. split; [done|]. split; [|apply NoDup_singleton].
    intros x Hx ->%list_elem_of_singleton. done.
  - intros toolId'. destruct (decide (toolId' = toolId)) as [->|Hne].
    + rewrite lookup_insert_eq. split; [by eexists|]. intros _.
      case_bool_decide; [done|]. apply elem_of_app. right.
      by apply list_elem_of_singleton.
    + rewrite lookup_insert_ne by done. rewrite <- Hdom.
      case_bool_decide; [done|]. rewrite elem_of_app, list_elem_of_singleton.
      tauto.
  - intros toolId' tool. destruct (decide (toolId' = toolId)) as [->|Hne].
    + rewrite lookup_insert_eq. by intros [= <-].
    + rewrite lookup_insert_ne by done. apply Hids.
Qed.

Lemma onToolResult_wf toolId content isError t :
  tools_wf t -> tools_wf (onToolResult toolId content isError t).
Proof.
  intros Hwf. pose proof Hwf as (Hnodup & Hdom & Hids). unfold onToolResult.
  destruct (toolUses t !! toolId) as [existing|] eqn:Hex; [|done].
  split; [done|]. split; simpl.
  - intros toolId'. rewrite Hdom.
    destruct (decide (toolId' = toolId)) as [->|Hne].
    + rewrite lookup_insert_eq, Hex. split; by eexists.
    + by rewrite lookup_insert_ne.
  - intros toolId' tool. destruct (decide (toolId' = toolId)) as [->|Hne].
    + rewrite lookup_insert_eq. intros [= <-]. simpl. by apply Hids.
    + rewrite lookup_insert_ne by done. apply Hids.
Qed.

Lemma onDisconnect_wf t : tools_wf t -> tools_wf (onDisconnect t).
Proof.
  intros (Hnodup & Hdom & Hids). unfold onDisconnect.
  split; [done|]. split; simpl.
  - intros toolId. rewrite Hdom, lookup_fmap.
    destruct (toolUses t !! toolId); simpl; split; intros [? ?]; by eexists.
  - intros toolId tool. rewrite lookup_fmap.
    destruct (toolUses t !! toolId) as [tool'|] eqn:Ht; [|done].
    simpl. intros [= <-]. destruct (result tool'); simpl; by apply Hids.
Qed.

(** Loading a history: the order is the list of ids, and each id maps to
    a record of its own. *)
Lemma onToolHistory_shape (tools : list UseChat.ToolHistoryItem) :
  toolOrder (onToolHistory Date_parse tools) = UseChat.thi_id <$> tools
  /\ (forall toolId,
        toolId ∈ (UseChat.thi_id <$> tools)
        <-> is_Some (toolUses (onToolHistory Date_parse tools) !! toolId))
  /\ (forall toolId tool,
        toolUses (onToolHistory Date_parse tools) !! toolId = Some tool ->
        tu_id tool = toolId).
Proof.
  unfold onToolHistory.
  induction tools as [|tool tools IH] using rev_ind.
  - simpl. split; [done|]. split.
    + intros toolId. rewrite lookup_empty, elem_of_nil.
      split; [done | by intros [? ?]].
    + intros toolId tool'. by rewrite lookup_empty.
  - rewrite foldl_app. cbn [foldl]. destruct IH as (Horder & Hdom & Hids).
    cbn [toolOrder toolUses]. rewrite Horder, fmap_app. split; [done|]. split.
    + intros toolId. rewrite elem_of_app.
      change (UseChat.thi_id <$> [tool]) with [UseChat.thi_id tool].
      rewrite list_elem_of_singleton. simpl.
      destruct (decide (toolId = UseChat.thi_id tool)) as [->|Hne].
      * rewrite lookup_insert_eq. split; [by eexists | by right].
      * rewrite lookup_insert_ne by done. rewrite <- Hdom. tauto.
    + intros toolId tool'.
      destruct (decide (toolId = UseChat.thi_id tool)) as [->|Hne].
      * rewrite lookup_insert_eq. by intros [= <-].
      * rewrite lookup_insert_ne by done. apply Hids.
Qed.

Lemma step_tools_wf t e :
  (forall tools, e = ToolHistory tools -> NoDup (UseChat.thi_id <$> tools)) ->
  tools_wf t -> tools_wf (tool_step Date_parse t e).
Proof.
  intros Hdistinct Hwf. destruct e as [name toolId input now
    | toolId content isError | tools | |]; cbn [tool_step].
  - by apply onToolUse_wf.
  - by apply onToolResult_wf.
  - destruct (onToolHistory_shape tools) as (Horder & Hdom & Hids).
    split; [|split; [|done]].
    + rewrite Horder. by apply Hdistinct.
    + intros toolId. rewrite Horder. apply Hdom.
  - by apply onDisconnect_wf.
  - apply no_tools_wf.
Qed.

Lemma toolArray_ids t : tools_wf t -> tu_id <$> toolArray t = toolOrder t.
Proof.
  intros (_ & Hdom & Hids). unfold toolArray.
  assert (Hall : forall toolId, toolId ∈ toolOrder t ->
                   exists tool, toolUses t !! toolId = Some tool
                                /\ tu_id tool = toolId).
  { intros toolId [tool Htool]%Hdom. exists tool. split; [done|].
    by apply Hids. }
  clear Hdom Hids. revert Hall. generalize (toolOrder t). intros order.
  induction order as [|toolId order IH]; intros Hall; [done|].
  destruct (Hall toolId) as (tool & Htool & Hid); [apply elem_of_cons; by left|].
  cbn [omap list_omap]. rewrite Htool. cbn [fmap list_fmap]. f_equal; [done|].
  apply IH. intros toolId' Hin. apply Hall. apply elem_of_cons. by right.
Qed.

(** X10. Whatever tool events arrive (tools announced, results, stored
    histories that name each tool once, disconnects, chat switches), the
    tool state stays consistent: the order lists each tool exactly once,
    exactly the tools on record, so the cards shown are one per
    announced tool, in the order of the first announcement. *)
Theorem tool_cards_one_per_tool (es : list ToolEvent) :
  distinct_histories es ->
  let t := foldl (tool_step Date_parse) no_tools es in
  tools_wf t
  /\ tu_id <$> toolArray t = toolOrder t
  /\ length (toolArray t) = length (toolOrder t)
  /\ NoDup (tu_id <$> toolArray t).
Proof.
  intros Hdistinct. cbn zeta.
  assert (Hwf : tools_wf (foldl (tool_step Date_parse) no_tools es)).
  { induction es as [|e es IH] using rev_ind; [apply no_tools_wf|].
    rewrite foldl_app. cbn [foldl]. apply step_tools_wf.
    - intros tools ->. apply Hdistinct. apply elem_of_app. right.
      by apply list_elem_of_singleton.
    - apply IH. intros tools Hin. apply Hdistinct. apply elem_of_app.
      by left. }
  split; [exact Hwf|]. pose proof (toolArray_ids _ Hwf) as Hids.
  split; [exact Hids|]. split.
  - rewrite <- Hids. by rewrite length_fmap.
  - rewrite Hids. by destruct Hwf.
Qed.

(** X11. A tool result changes nothing but the record of its own tool:
    for a tool that was never announced the state is untouched; for an
    announced one the record gains the result and keeps its name, input
    and time stamp, every other record and the order are as before. *)
Theorem tool_result_touches_own_record toolId content isError t :
  let t' := onToolResult toolId content isError t in
  toolOrder t' = toolOrder t
  /\ (toolUses t !! toolId = None -> t' = t)
  /\ (forall existing, toolUses t !! toolId = Some existing ->
        toolUses t' !! toolId
        = Some {| tu_id := tu_id existing; toolName := toolName existing;
                  toolInput := toolInput existing;
                  tu_timestamp := tu_timestamp existing;
                  result := Some {| tr_content := content;
                                    tr_isError := isError |} |})
  /\ (forall other, other <> toolId ->
        toolUses t' !! other = toolUses t !! other).
Proof.
  cbn zeta. unfold onToolResult.
  destruct (toolUses t !! toolId) as [existing|] eqn:Hex.
  - split; [done|]. split; [done|]. split.
    + intros existing' [= <-]. simpl. apply lookup_insert_eq.
    + intros other Hne. simpl. by rewrite lookup_insert_ne.
  - repeat split; done.
Qed.

(** X12. After a disconnect no tool is left pending: every record has a
    result, records that had one keep it, the others carry the
    connection-lost error; a second disconnect changes nothing. *)
Theorem disconnect_settles_every_tool t :
  (forall toolId tool,
     toolUses (onDisconnect t) !! toolId = Some tool -> is_Some (result tool))
  /\ (forall toolId tool,
        toolUses t !! toolId = Some tool -> is_Some (result tool) ->
        toolUses (onDisconnect t) !! toolId = Some tool)
  /\ (forall toolId tool,
        toolUses t !! toolId = Some tool -> result tool = None ->
        exists tool',
          toolUses (onDisconnect t) !! toolId = Some tool'
          /\ result tool'
             = Some {| tr_content := Some disconnected_message;
                       tr_isError := true |}
          /\ toolName tool' = toolName tool
          /\ toolInput tool' = toolInput tool)
  /\ toolOrder (onDisconnect t) = toolOrder t
  /\ onDisconnect (onDisconnect t) = onDisconnect t.
Proof.
  split; [|split; [|split; [|split]]].
  - intros toolId tool. unfold onDisconnect. simpl. rewrite lookup_fmap.
    destruct (toolUses t !! toolId) as [tool'|]; [|done]. simpl.
    intros [= <-]. destruct (result tool') eqn:Hr; simpl; [|by eexists].
    rewrite Hr. by eexists.
  - intros toolId tool Ht [r Hr]. unfold onDisconnect. simpl.
    by rewrite lookup_fmap, Ht; simpl; rewrite Hr.
  - intros toolId tool Ht Hr. unfold onDisconnect. simpl.
    rewrite lookup_fmap, Ht. simpl. rewrite Hr. by eexists.
  - done.
  - unfold onDisconnect. simpl. f_equal. rewrite <- map_fmap_compose.
    apply map_fmap_ext. intros toolId tool _. simpl.
    destruct (result tool) eqn:Hr; simpl; [by rewrite Hr | done].
Qed.

Lemma due_tools_split ts (pending : list ToolUseInfo) :
  fst (due_tools ts pending) ++ snd (due_tools ts pending) = pending.
Proof.
  induction pending as [|tool rest IH]; [done|]. simpl.
  destruct (tu_timestamp tool <=? ts)%N; [|done].
  destruct (due_tools ts rest) as [due later]. simpl in *. by rewrite IH.
Qed.

Lemma item_messages_tools (l : list ToolUseInfo) :
  item_messages (ItemTool <$> l) = [] /\ item_tools (ItemTool <$> l) = l.
Proof.
  unfold item_messages, item_tools.
  induction l as [|tool l [IH1 IH2]]; [done|]. split.
  - exact IH1.
  - cbn [fmap list_fmap omap list_omap]. f_equal. exact IH2.
Qed.

Lemma merge_items_keeps (msgs : list Message) (pending : list ToolUseInfo) :
  item_messages (merge_items msgs pending) = msgs
  /\ item_tools (merge_items msgs pending) = pending.
Proof.
  revert pending. induction msgs as [|message rest IH]; intros pending.
  - apply item_messages_tools.
  - cbn [merge_items]. destruct (role message).
    + destruct (IH pending) as [IHm IHt]. split.
      * unfold item_messages in *. cbn [omap list_omap]. by rewrite IHm.
      * unfold item_tools in *. cbn [omap list_omap]. exact IHt.
    + pose proof (due_tools_split (timestamp message) pending) as Hsplit.
      destruct (due_tools (timestamp message) pending) as [due later].
      simpl in Hsplit. destruct (IH later) as [IHm IHt].
      destruct (item_messages_tools due) as [Hdm Hdt]. split.
      * unfold item_messages in *. rewrite omap_app, Hdm.
        cbn [omap list_omap app]. by rewrite IHm.
      * unfold item_tools in *. rewrite omap_app, Hdt.
        cbn [omap list_omap]. by rewrite IHt.
Qed.

(** X13. The merged stream neither loses nor repeats anything: read for
    its messages it is the message list, read for its tools it is the
    tool list, both in their original order; so its length is the sum
    of the two. *)
Theorem streamItems_keeps_everything (msgs : list Message) t :
  item_messages (streamItems msgs t) = msgs
  /\ item_tools (streamItems msgs t) = toolArray t
  /\ length (streamItems msgs t) = (length msgs + length (toolArray t))%nat.
Proof.
  unfold streamItems.
  destruct (merge_items_keeps msgs (toolArray t)) as [Hm Ht].
  split; [exact Hm|]. split; [exact Ht|].
  assert (Hlen : forall items : list StreamItem,
            length items
            = (length (item_messages items) + length (item_tools items))%nat).
  { unfold item_messages, item_tools.
    induction items as [|[m|tool] items IH]; [done|..];
      cbn [omap list_omap length]; rewrite IH; lia. }
  by rewrite Hlen, Hm, Ht.
Qed.

Lemma due_tools_spec ts (pending : list ToolUseInfo) :
  Forall (fun tool => tu_timestamp tool <= ts) (fst (due_tools ts pending))
  /\ match snd (due_tools ts pending) with
     | tool :: _ => ts < tu_timestamp tool
     | [] => True
     end.
Proof.
  induction pending as [|tool rest [IHdue IHlater]]; [by split|]. simpl.
  destruct (tu_timestamp tool <=? ts) eqn:Hle.
  - destruct (due_tools ts rest) as [due later]. simpl in *. split; [|done].
    constructor; [|done]. by apply N.leb_le.
  - simpl. split; [constructor|]. by apply N.leb_gt.
Qed.

Lemma covered_tools tool (l : list ToolUseInfo) (rest : list StreamItem) :
  covered tool ((ItemTool <$> l) ++ rest) <-> covered tool rest.
Proof. induction l as [|tool' l IH]; [done|]. exact IH. Qed.

Lemma tools_in_place_tools (l : list ToolUseInfo) (rest : list StreamItem) :
  Forall (fun tool => covered tool rest) l -> tools_in_place rest ->
  tools_in_place ((ItemTool <$> l) ++ rest).
Proof.
  intros Hl Hrest. induction Hl as [|tool l Htool Hl IH]; [done|].
  cbn [fmap list_fmap app tools_in_place]. split; [|exact IH].
  by apply covered_tools.
Qed.

Lemma none_overdue_tools (l : list ToolUseInfo) (rest : list StreamItem) :
  none_overdue ((ItemTool <$> l) ++ rest) <-> none_overdue rest.
Proof. induction l as [|tool l IH]; [done|]. exact IH. Qed.

Lemma in_time_order_app_r (l later : list ToolUseInfo) :
  in_time_order (l ++ later) -> in_time_order later.
Proof.
  induction l as [|tool l IH]; [done|]. intros [_ Hrest]. by apply IH.
Qed.

Lemma merge_items_in_place (msgs : list Message) (pending : list ToolUseInfo) :
  tools_in_place (merge_items msgs pending).
Proof.
  revert pending. induction msgs as [|message rest IH]; intros pending.
  - cbn [merge_items]. rewrite <- (app_nil_r (ItemTool <$> pending)).
    apply tools_in_place_tools; [|done]. by apply Forall_forall.
  - cbn [merge_items]. destruct (role message) eqn:Hrole.
    + apply IH.
    + destruct (due_tools_spec (timestamp message) pending) as [Hdue _].
      destruct (due_tools (timestamp message) pending) as [due later].
      cbn [fst] in Hdue. apply tools_in_place_tools.
      * eapply Forall_impl; [exact Hdue|]. intros tool Hle. by split.
      * apply IH.
Qed.

Lemma merge_items_none_overdue (msgs : list Message)
    (pending : list ToolUseInfo) :
  in_time_order pending -> none_overdue (merge_items msgs pending).
Proof.
  revert pending. induction msgs as [|message rest IH]; intros pending Hsorted.
  - cbn [merge_items]. rewrite <- (app_nil_r (ItemTool <$> pending)).
    by apply none_overdue_tools.
  - cbn [merge_items]. destruct (role message) eqn:Hrole.
    + cbn [none_overdue]. split; [by rewrite Hrole | by apply IH].
    + destruct (due_tools_spec (timestamp message) pending) as [_ Hlater].
      pose proof (due_tools_split (timestamp message) pending) as Hsplit.
      destruct (due_tools (timestamp message) pending) as [due later].
      cbn [fst snd] in *. apply none_overdue_tools. cbn [none_overdue].
      assert (Hlater_sorted : in_time_order later)
        by (apply (in_time_order_app_r due); by rewrite Hsplit).
      split; [|by apply IH]. intros _.
      destruct (merge_items_keeps rest later) as [_ ->].
      destruct later as [|tool later]; [constructor|].
      destruct Hlater_sorted as [Hall _]. constructor; [done|].
      eapply Forall_impl; [exact Hall|]. intros tool' Hle. cbn beta in Hle.
      eapply N.lt_le_trans; [exact Hlater | exact Hle].
Qed.

(** X16. Where the tool cards go in the merged stream: a tool card is
    always followed by further tool cards and then by an assistant
    message at least as new as the tool, or by the end of the stream,
    never by a user message.  When the tools are listed oldest first,
    every tool card that comes after an assistant message is newer than
    that message. *)
Theorem tool_cards_sit_before_their_reply (msgs : list Message) t :
  tools_in_place (streamItems msgs t)
  /\ (in_time_order (toolArray t) -> none_overdue (streamItems msgs t)).
Proof.
  split; [apply merge_items_in_place | apply merge_items_none_overdue].
Qed.

End ToolFacts.

Lemma tool_cards_one_per_tool_witness :
  ChatContainer.tu_id
    <$> ChatContainer.toolArray
          (foldl (ChatContainer.tool_step stamp_length) ChatContainer.no_tools
             read_then_grep)
  = [lit "t1"; lit "t2"].
Proof.
  assert (Hdistinct : ChatContainer.distinct_histories read_then_grep).
  { intros tools Hin. unfold read_then_grep in Hin.
    repeat (apply elem_of_cons in Hin as [Hin|Hin]; [discriminate|]).
    by apply elem_of_nil in Hin. }
  destruct (tool_cards_one_per_tool stamp_length read_then_grep Hdistinct)
    as (_ & Hids & _).
  rewrite Hids. reflexivity.
Defined.

(** ** The socket manager over its whole life *)

Section LifecycleFacts.

Import SocketLifecycle.

Local Open Scope nat_scope.

Context {data : Type}.

Implicit Types (s : SocketLifecycle.t data) (e : SocketLifecycle.event data)
  (k l : nat).

(** Notifying the status listeners only adds to the log of their calls. *)
Lemma notify_fold connected (ls : list nat) s :
  let s' := foldl (fun s l => call_status l connected s) s ls in
  sockets s' = sockets s /\ ws s' = ws s /\ listeners s' = listeners s
  /\ statusListeners s' = statusListeners s
  /\ reconnectTimer s' = reconnectTimer s
  /\ isConnecting s' = isConnecting s
  /\ removal_checks s' = removal_checks s
  /\ listener_calls s' = listener_calls s
  /\ status_calls s' = status_calls s ++ ((fun l => (l, connected)) <$> ls).
Proof.
  revert s. induction ls as [|l ls IH]; intros s.
  - cbn. by rewrite app_nil_r.
  - cbn [foldl]. destruct (IH (call_status l connected s))
      as (-> & -> & -> & -> & -> & -> & -> & -> & ->).
    cbn. by rewrite <- app_assoc.
Qed.

Lemma notifyStatus_spec connected s :
  let s' := notifyStatus connected s in
  sockets s' = sockets s /\ ws s' = ws s /\ listeners s' = listeners s
  /\ statusListeners s' = statusListeners s
  /\ reconnectTimer s' = reconnectTimer s
  /\ isConnecting s' = isConnecting s
  /\ removal_checks s' = removal_checks s
  /\ listener_calls s' = listener_calls s
  /\ status_calls s'
     = status_calls s ++ ((fun l => (l, connected)) <$> statusListeners s).
Proof. apply notify_fold. Qed.

Lemma message_fold (d : data) (ls : list nat) s :
  let s' :=
    foldl
      (fun s l =>
         {| sockets := sockets s; ws := ws s; listeners := listeners s;
            statusListeners := statusListeners s;
            reconnectTimer := reconnectTimer s; isConnecting := isConnecting s;
            removal_checks := removal_checks s; status_calls := status_calls s;
            listener_calls := listener_calls s ++ [(l, d)] |}) s ls in
  sockets s' = sockets s /\ ws s' = ws s /\ listeners s' = listeners s
  /\ statusListeners s' = statusListeners s
  /\ reconnectTimer s' = reconnectTimer s
  /\ isConnecting s' = isConnecting s
  /\ removal_checks s' = removal_checks s
  /\ status_calls s' = status_calls s
  /\ listener_calls s' = listener_calls s ++ ((fun l => (l, d)) <$> ls).
Proof.
  revert s. induction ls as [|l ls IH]; intros s.
  - cbn. by rewrite app_nil_r.
  - cbn [foldl].
    match goal with
    | |- context [foldl _ ?s1 ls] =>
        destruct (IH s1) as (-> & -> & -> & -> & -> & -> & -> & -> & ->)
    end.
    cbn. by rewrite <- app_assoc.
Qed.

Lemma onmessage_spec (d : data) s :
  let s' := onmessage d s in
  sockets s' = sockets s /\ ws s' = ws s /\ listeners s' = listeners s
  /\ statusListeners s' = statusListeners s
  /\ reconnectTimer s' = reconnectTimer s
  /\ isConnecting s' = isConnecting s
  /\ removal_checks s' = removal_checks s
  /\ status_calls s' = status_calls s
  /\ listener_calls s'
     = listener_calls s ++ ((fun l => (l, d)) <$> listeners s).
Proof. apply message_fold. Qed.

(** [connect] either does nothing or creates one connecting socket and
    points [ws] at it. *)
Lemma connect_spec s :
  connect s = s
  \/ (ws_readyState s <> Some OPEN /\ ws_readyState s <> Some CONNECTING
      /\ isConnecting s = false
      /\ connect s
         = set_ws (Some (length (sockets s)))
             (set_sockets
                (sockets s ++ [{| readyState := CONNECTING; transmitted := [] |}])
                (set_isConnecting true s))).
Proof.
  unfold connect. repeat case_bool_decide; try by left.
  destruct (isConnecting s) eqn:Hc; [by left|]. right. done.
Qed.

Lemma connect_not_closed s : ws_not_closed s -> ws_not_closed (connect s).
Proof.
  intros Hlive. destruct (connect_spec s) as [->|(_ & _ & _ & ->)]; [done|].
  intros k [= <-]. cbn. eexists. split.
  - rewrite lookup_app_r by done. by rewrite Nat.sub_diag.
  - done.
Qed.

Lemma ws_none_not_closed s : ws s = None -> ws_not_closed s.
Proof. intros Hws k. by rewrite Hws. Qed.

Lemma disconnect_ws s : ws (disconnect s) = None.
Proof.
  unfold disconnect. destruct (reconnectTimer s); cbn;
    by destruct (ws s) eqn:Hws.
Qed.

Lemma scheduleReconnect_fields s :
  sockets (scheduleReconnect s) = sockets s /\ ws (scheduleReconnect s) = ws s.
Proof.
  unfold scheduleReconnect. destruct (reconnectTimer s); [done|].
  by case_bool_decide.
Qed.

(** A socket that moves on to a state other than [CLOSED] keeps [ws]
    as it should be. *)
Lemma set_readyState_not_closed k (r : ReadyState) s :
  r <> CLOSED -> ws_not_closed s -> ws_not_closed (set_readyState k r s).
Proof.
  intros Hr Hlive k'. cbn. intros Hws.
  destruct (Hlive k' Hws) as (sock & Hsock & Hl).
  destruct (decide (k = k')) as [->|Hne].
  - rewrite list_lookup_alter_eq, Hsock. cbn. by eexists.
  - rewrite list_lookup_alter_ne by done. by eexists.
Qed.

Lemma step_not_closed s e : ws_not_closed s -> ws_not_closed (step s e).
Proof.
  intros Hlive. destruct e as [l|l|l|l| | | |k|k d|k|k|k]; cbn [step].
  - unfold addListener. cbn. case_bool_decide; [|done].
    by apply connect_not_closed.
  - done.
  - done.
  - done.
  - apply ws_none_not_closed, disconnect_ws.
  - destruct (removal_checks s) as [|n] eqn:Hn; [done|].
    unfold removal_timeout. case_bool_decide; [|done].
    apply ws_none_not_closed, disconnect_ws.
  - destruct (reconnectTimer s) eqn:Ht; [|done]. unfold reconnect_timeout.
    case_bool_decide; [by apply connect_not_closed | done].
  - case_bool_decide as Hk; [|done]. unfold onopen.
    intros k'. destruct (notifyStatus_spec true
                           (set_isConnecting false (set_readyState k OPEN s)))
      as (-> & -> & _).
    by apply (set_readyState_not_closed k OPEN s).
  - case_bool_decide; [|done]. intros k'.
    destruct (onmessage_spec d s) as (-> & -> & _). apply Hlive.
  - assert (Herr : ws_not_closed (onerror s)).
    { intros k'. unfold onerror.
      destruct (notifyStatus_spec false (set_isConnecting false s))
        as (-> & -> & _). apply Hlive. }
    destruct (socket_state k s) as [[]|]; done.
  - assert (Hclose : ws_not_closed (onclose (set_readyState k CLOSED s))).
    { apply ws_none_not_closed. unfold onclose.
      destruct (scheduleReconnect_fields
                  (notifyStatus false
                     (set_ws None
                        (set_isConnecting false (set_readyState k CLOSED s)))))
        as [_ ->].
      destruct (notifyStatus_spec false
                  (set_ws None
                     (set_isConnecting false (set_readyState k CLOSED s))))
        as (_ & -> & _). done. }
    destruct (socket_state k s) as [[]|]; done.
  - case_bool_decide; [|done]. by apply set_readyState_not_closed.
Qed.

Lemma send_not_closed (JSON_stringify : json -> jsstring) (payload : json) s :
  ws_not_closed s -> ws_not_closed (fst (send JSON_stringify payload s)).
Proof.
  intros Hlive. unfold send. destruct (ws s) as [k|] eqn:Hws; [|done].
  case_bool_decide; [|done]. cbn. intros k'. cbn. rewrite Hws. intros [= <-].
  destruct (Hlive k Hws) as (sock & Hsock & Hl).
  rewrite list_lookup_alter_eq, Hsock. cbn. by eexists.
Qed.

(** X17. However the manager is used and whatever the sockets do, [ws]
    is either empty or names a socket that has not reported its close:
    one that is connecting or open, or one that is closing because the
    server has started the closing handshake; never a closed one.
    [send] keeps it so, and it acts on that socket exactly as the manager
    of [sendMessage] does: same answer, same frames on the wire; the
    answer is whether the socket is open. *)
Theorem ws_names_an_unclosed_socket (JSON_stringify : json -> jsstring)
    (es : list (SocketLifecycle.event data)) (payload : json) :
  let s := run es initial in
  let sent := send JSON_stringify payload s in
  ws_not_closed s
  /\ ws_not_closed (fst sent)
  /\ WebSocketManager.isConnected (manager s) = isConnected s
  /\ snd sent = isConnected s
  /\ WebSocketManager.send JSON_stringify payload (manager s)
     = (manager (fst sent), snd sent).
Proof.
  cbn zeta. remember (run es initial) as s eqn:Hs.
  assert (Hlive : ws_not_closed s).
  { subst s. induction es as [|e es IH] using rev_ind; [by intros k|].
    unfold run. rewrite foldl_app. cbn [foldl]. by apply step_not_closed. }
  clear Hs. split; [done|]. split; [by apply send_not_closed|].
  unfold WebSocketManager.isConnected, WebSocketManager.send, manager, send,
    isConnected, ws_readyState.
  destruct (ws s) as [k|] eqn:Hws; cbn; [|by rewrite Hws].
  destruct (sockets s !! k) as [sock|] eqn:Hsock; cbn.
  - destruct (decide (readyState sock = OPEN)) as [Hopen|Hopen].
    + rewrite !bool_decide_eq_true_2 by congruence. cbn. rewrite Hws.
      rewrite list_lookup_alter_eq, Hsock. done.
    + rewrite !bool_decide_eq_false_2 by congruence. cbn.
      by rewrite Hws, Hsock.
  - rewrite bool_decide_eq_false_2 by done. cbn. by rewrite Hws, Hsock.
Qed.

Lemma set_delete_singleton l : set_delete l [l] = [].
Proof.
  unfold set_delete. rewrite filter_cons. by destruct (decide (l <> l)).
Qed.

Lemma set_add_nil l : set_add l [] = [l].
Proof. reflexivity. Qed.


Lemma connect_when_idle s :
  ws s = None -> isConnecting s = false ->
  connect s
  = set_ws (Some (length (sockets s)))
      (set_sockets
         (sockets s ++ [{| readyState := CONNECTING; transmitted := [] |}])
         (set_isConnecting true s)).
Proof.
  intros Hws Hc. unfold connect, ws_readyState. rewrite Hws, Hc.
  by rewrite !bool_decide_eq_false_2.
Qed.

Lemma connect_length s :
  length (sockets (connect s)) = length (sockets s)
  \/ (length (sockets (connect s)) = S (length (sockets s))
      /\ ws (connect s) = Some (length (sockets s))
      /\ socket_state (length (sockets s)) (connect s) = Some CONNECTING
      /\ listeners (connect s) = listeners s).
Proof.
  destruct (connect_spec s) as [->|(_ & _ & _ & ->)]; [by left|]. right.
  unfold socket_state. cbn. rewrite length_app. cbn.
  rewrite lookup_app_r, Nat.sub_diag by done. repeat split; lia.
Qed.

Lemma disconnect_length s :
  length (sockets (disconnect s)) = length (sockets s).
Proof.
  unfold disconnect, close. destruct (reconnectTimer s); cbn;
    destruct (ws s); cbn; by rewrite ?length_alter.
Qed.

(** X18. One event creates at most one socket, and a socket is created
    only by [addListener] or by the reconnect timeout, only while there
    is a listener and [ws] names no socket that is connecting or open;
    the new socket is connecting and [ws] names it. *)
Theorem socket_needs_a_listener s e :
  length (sockets (step s e)) = length (sockets s)
  \/ (length (sockets (step s e)) = S (length (sockets s))
      /\ ((exists l, e = AddListener l) \/ e = ReconnectTimeout)
      /\ listeners (step s e) <> []
      /\ ws_readyState s <> Some OPEN
      /\ ws_readyState s <> Some CONNECTING
      /\ ws (step s e) = Some (length (sockets s))
      /\ socket_state (length (sockets s)) (step s e) = Some CONNECTING).
Proof.
  destruct e as [l|l|l|l| | | |k|k d|k|k|k]; cbn [step].
  - unfold addListener. cbn. case_bool_decide as Hone; [|by left].
    match goal with |- context [connect ?s1] => set (s' := s1) end.
    destruct (connect_spec s') as [->|(Ho & Hc & _ & Heq)]; [by left|].
    destruct (connect_length s') as [?|(Hlen & Hws & Hst & Hl)]; [by left|].
    right. split; [exact Hlen|]. split; [left; by eexists|].
    rewrite Hl. cbn. split; [|done].
    intros Hnil. cbn in Hone. by rewrite Hnil in Hone.
  - by left.
  - by left.
  - by left.
  - left. apply disconnect_length.
  - left. destruct (removal_checks s) as [|n]; [done|].
    unfold removal_timeout. case_bool_decide; [|done].
    by rewrite disconnect_length.
  - destruct (reconnectTimer s) eqn:Ht; [|by left]. unfold reconnect_timeout.
    cbn. case_bool_decide as Hpos; [|by left].
    match goal with |- context [connect ?s1] => set (s' := s1) end.
    destruct (connect_spec s') as [->|(Ho & Hc & _ & Heq)]; [by left|].
    destruct (connect_length s') as [?|(Hlen & Hws & Hst & Hl)]; [by left|].
    right. split; [exact Hlen|]. split; [by right|].
    rewrite Hl. cbn. split; [|done].
    intros Hnil. cbn in Hpos. rewrite Hnil in Hpos. cbn in Hpos. lia.
  - left. case_bool_decide; [|done]. unfold onopen.
    destruct (notifyStatus_spec true
                (set_isConnecting false (set_readyState k OPEN s)))
      as (-> & _). cbn. apply length_alter.
  - left. case_bool_decide; [|done].
    by destruct (onmessage_spec d s) as (-> & _).
  - left. assert (Herr : sockets (onerror s) = sockets s).
    { unfold onerror.
      by destruct (notifyStatus_spec false (set_isConnecting false s))
        as (-> & _). }
    destruct (socket_state k s) as [[]|]; by rewrite ?Herr.
  - left.
    assert (Hclose : length (sockets (onclose (set_readyState k CLOSED s)))
                     = length (sockets s)).
    { unfold onclose.
      destruct (scheduleReconnect_fields
                  (notifyStatus false
                     (set_ws None
                        (set_isConnecting false (set_readyState k CLOSED s)))))
        as [-> _].
      destruct (notifyStatus_spec false
                  (set_ws None
                     (set_isConnecting false (set_readyState k CLOSED s))))
        as (-> & _). cbn. apply length_alter. }
    destruct (socket_state k s) as [[]|]; by rewrite ?Hclose.
  - left. case_bool_decide; [|done]. cbn. apply length_alter.
Qed.

Lemma disconnect_spec s k :
  ws s = Some k ->
  ws (disconnect s) = None
  /\ reconnectTimer (disconnect s) = false
  /\ sockets (disconnect s)
     = alter
         (fun sock =>
            match readyState sock with
            | CONNECTING | OPEN =>
                {| readyState := CLOSING; transmitted := transmitted sock |}
            | CLOSING | CLOSED => sock
            end) k (sockets s)
  /\ listeners (disconnect s) = listeners s
  /\ statusListeners (disconnect s) = statusListeners s
  /\ isConnecting (disconnect s) = isConnecting s
  /\ removal_checks (disconnect s) = removal_checks s
  /\ status_calls (disconnect s) = status_calls s
  /\ listener_calls (disconnect s) = listener_calls s.
Proof.
  intros Hws. unfold disconnect, close.
  destruct (reconnectTimer s) eqn:Ht; cbn; rewrite Hws; cbn;
    by rewrite ?Ht.
Qed.


Lemma scheduleReconnect_spec s :
  let s' := scheduleReconnect s in
  sockets s' = sockets s /\ ws s' = ws s /\ listeners s' = listeners s
  /\ statusListeners s' = statusListeners s
  /\ isConnecting s' = isConnecting s
  /\ removal_checks s' = removal_checks s
  /\ status_calls s' = status_calls s
  /\ listener_calls s' = listener_calls s
  /\ reconnectTimer s'
     = (reconnectTimer s || negb (bool_decide (listeners s = []))).
Proof.
  cbn zeta. unfold scheduleReconnect.
  destruct (reconnectTimer s) eqn:Ht; [by rewrite Ht|].
  destruct (listeners s) as [|l ls] eqn:Hl; cbn; by rewrite ?Ht, ?Hl.
Qed.

Lemma reconnect_timeout_creates s :
  reconnectTimer s = true -> ws s = None -> isConnecting s = false ->
  listeners s <> [] ->
  let again := step s ReconnectTimeout in
  reconnectTimer again = false
  /\ ws again = Some (length (sockets s))
  /\ socket_state (length (sockets s)) again = Some CONNECTING
  /\ isConnecting again = true
  /\ sockets again
     = sockets s ++ [{| readyState := CONNECTING; transmitted := [] |}]
  /\ listeners again = listeners s
  /\ statusListeners again = statusListeners s
  /\ status_calls again = status_calls s
  /\ listener_calls again = listener_calls s.
Proof.
  intros Ht Hws Hc Hl. cbn zeta. cbn [step]. rewrite Ht.
  unfold reconnect_timeout. cbn [listeners set_reconnectTimer].
  rewrite bool_decide_eq_true_2
    by (destruct (listeners s); [done | cbn; lia]).
  rewrite connect_when_idle by done. unfold socket_state. cbn.
  rewrite lookup_app_r by done. by rewrite Nat.sub_diag.
Qed.

Lemma reconnect_timeout_idle s :
  listeners s = [] -> sockets (step s ReconnectTimeout) = sockets s.
Proof.
  intros Hl. cbn [step]. destruct (reconnectTimer s); [|done].
  unfold reconnect_timeout. cbn [listeners set_reconnectTimer]. by rewrite Hl.
Qed.

Lemma closed_spec k s :
  (socket_state k s = Some OPEN \/ socket_state k s = Some CONNECTING
   \/ socket_state k s = Some CLOSING) ->
  let closed := step s (Closed k) in
  ws closed = None
  /\ isConnecting closed = false
  /\ sockets closed
     = alter (fun sock => {| readyState := CLOSED;
                             transmitted := transmitted sock |})
         k (sockets s)
  /\ status_calls closed
     = status_calls s ++ ((fun l => (l, false)) <$> statusListeners s)
  /\ reconnectTimer closed
     = (reconnectTimer s || negb (bool_decide (listeners s = [])))
  /\ listeners closed = listeners s
  /\ statusListeners closed = statusListeners s
  /\ removal_checks closed = removal_checks s
  /\ listener_calls closed = listener_calls s.
Proof.
  intros Hstate. cbn zeta.
  set (s1 := set_ws None (set_isConnecting false (set_readyState k CLOSED s))).
  assert (Hclosed : step s (Closed k) = scheduleReconnect (notifyStatus false s1)).
  { cbn [step]. by destruct Hstate as [->|[->| ->]]. }
  rewrite Hclosed.
  destruct (scheduleReconnect_spec (notifyStatus false s1))
    as (-> & -> & -> & -> & -> & -> & -> & -> & ->).
  destruct (notifyStatus_spec false s1)
    as (-> & -> & -> & -> & -> & -> & -> & -> & ->).
  done.
Qed.

Lemma socket_state_closed k s :
  is_Some (socket_state k s) ->
  readyState
    <$> alter (fun sock => {| readyState := CLOSED;
                              transmitted := transmitted sock |})
          k (sockets s) !! k
  = Some CLOSED.
Proof.
  unfold socket_state. rewrite list_lookup_alter_eq.
  destruct (sockets s !! k); [done | by intros [? ?]].
Qed.

(** X20. When a socket closes while somebody listens, every status
    listener is told once that the connection is gone, [ws] is emptied
    and one reconnect is scheduled; when its timeout fires a new socket
    is created and [ws] names it.  With no listener nothing is
    scheduled and no socket is created. *)
Theorem close_schedules_one_reconnect k s :
  (socket_state k s = Some OPEN \/ socket_state k s = Some CONNECTING
   \/ socket_state k s = Some CLOSING) ->
  let closed := step s (Closed k) in
  let again := step closed ReconnectTimeout in
  ws closed = None
  /\ isConnecting closed = false
  /\ socket_state k closed = Some CLOSED
  /\ status_calls closed
     = status_calls s ++ ((fun l => (l, false)) <$> statusListeners s)
  /\ (listeners s = [] -> reconnectTimer closed = reconnectTimer s
                          /\ sockets again = sockets closed)
  /\ (listeners s <> [] ->
      reconnectTimer closed = true
      /\ reconnectTimer again = false
      /\ ws again = Some (length (sockets s))
      /\ socket_state (length (sockets s)) again = Some CONNECTING
      /\ isConnecting again = true
      /\ length (sockets again) = S (length (sockets s))).
Proof.
  intros Hstate. cbn zeta.
  destruct (closed_spec k s Hstate)
    as (Hw & Hc & Hso & Hsc & Ht & Hl & _).
  assert (Hlen : length (sockets (step s (Closed k))) = length (sockets s))
    by (rewrite Hso; apply length_alter).
  split; [exact Hw|]. split; [exact Hc|]. split.
  { unfold socket_state at 1. rewrite Hso. apply socket_state_closed.
    destruct Hstate as [->|[->| ->]]; by eexists. }
  split; [exact Hsc|]. split.
  - intros Hnil. rewrite Ht, Hnil, bool_decide_eq_true_2 by done.
    cbn [negb]. rewrite orb_false_r.
    split; [done|]. apply reconnect_timeout_idle. by rewrite Hl.
  - intros Hsome.
    assert (Htimer : reconnectTimer (step s (Closed k)) = true).
    { rewrite Ht. rewrite (bool_decide_eq_false_2 _ Hsome). cbn [negb].
      apply orb_true_r. }
    split; [exact Htimer|].
    assert (Hsome' : listeners (step s (Closed k)) <> []) by by rewrite Hl.
    destruct (reconnect_timeout_creates (step s (Closed k)) Htimer Hw Hc
                Hsome') as (Ht' & Hw' & Hst' & Hc' & Hso' & _).
    rewrite Hlen in Hw', Hst'.
    split; [exact Ht'|]. split; [exact Hw'|]. split; [exact Hst'|].
    split; [exact Hc'|]. rewrite Hso', length_app, Hlen. cbn. lia.
Qed.

Lemma opened_spec k s :
  socket_state k s = Some CONNECTING ->
  let opened := step s (Opened k) in
  sockets opened
  = alter (fun sock => {| readyState := OPEN;
                          transmitted := transmitted sock |}) k (sockets s)
  /\ ws opened = ws s
  /\ listeners opened = listeners s
  /\ statusListeners opened = statusListeners s
  /\ reconnectTimer opened = reconnectTimer s
  /\ isConnecting opened = false
  /\ removal_checks opened = removal_checks s
  /\ listener_calls opened = listener_calls s
  /\ status_calls opened
     = status_calls s ++ ((fun l => (l, true)) <$> statusListeners s).
Proof.
  intros Hstate. cbn zeta. cbn [step].
  rewrite bool_decide_eq_true_2 by done. unfold onopen.
  destruct (notifyStatus_spec true
              (set_isConnecting false (set_readyState k OPEN s)))
    as (-> & -> & -> & -> & -> & -> & -> & -> & ->).
  done.
Qed.

Lemma received_spec k (d : data) s :
  socket_state k s = Some OPEN ->
  let got := step s (Received k d) in
  sockets got = sockets s
  /\ listeners got = listeners s
  /\ listener_calls got
     = listener_calls s ++ ((fun l => (l, d)) <$> listeners s).
Proof.
  intros Hstate. cbn zeta. cbn [step].
  rewrite bool_decide_eq_true_2 by done.
  by destruct (onmessage_spec d s) as (-> & _ & -> & _ & _ & _ & _ & _ & ->).
Qed.

Lemma added_idle l s :
  listeners s = [] -> ws s = None -> isConnecting s = false ->
  let added := step s (AddListener l) in
  sockets added
  = sockets s ++ [{| readyState := CONNECTING; transmitted := [] |}]
  /\ ws added = Some (length (sockets s))
  /\ listeners added = [l]
  /\ statusListeners added = statusListeners s
  /\ reconnectTimer added = reconnectTimer s
  /\ isConnecting added = true
  /\ status_calls added = status_calls s
  /\ listener_calls added = listener_calls s.
Proof.
  intros Hl Hws Hc. cbn zeta. cbn [step]. unfold addListener.
  cbn [listeners set_listeners]. rewrite Hl, set_add_nil.
  rewrite bool_decide_eq_true_2 by done.
  by rewrite connect_when_idle.
Qed.

(** X21. A close event that arrives late drops the wrong socket.  The
    last listener leaves, the 500 ms check closes the open socket, and a
    new listener arrives before the close event of the old socket: the
    manager has created a new socket, and the close event of the old one
    empties [ws] and schedules a reconnect.  The new socket opens, the
    status listeners are told so, yet the manager reports itself as not
    connected; the reconnect creates one more socket, and once both are
    open a frame received on either reaches the listener. *)
Theorem late_close_drops_the_new_socket l l' k (d d' : data) s :
  ws s = Some k ->
  socket_state k s = Some OPEN ->
  listeners s = [l] ->
  isConnecting s = false ->
  let n := length (sockets s) in
  let dropped :=
    run [RemoveListener l; RemovalTimeout; AddListener l'; Closed k] s in
  let opened := step dropped (Opened n) in
  let both := run [ReconnectTimeout; Opened (S n)] opened in
  ws dropped = None
  /\ socket_state n dropped = Some CONNECTING
  /\ reconnectTimer dropped = true
  /\ socket_state n opened = Some OPEN
  /\ isConnected opened = false
  /\ status_calls opened
     = status_calls s
       ++ ((fun x => (x, false)) <$> statusListeners s)
       ++ ((fun x => (x, true)) <$> statusListeners s)
  /\ ws both = Some (S n)
  /\ socket_state n both = Some OPEN
  /\ socket_state (S n) both = Some OPEN
  /\ listener_calls (run [Received n d; Received (S n) d'] both)
     = listener_calls s ++ [(l', d); (l', d')].
Proof.
  intros Hws Hopen Hl Hc. cbn zeta. unfold run. cbn [foldl].
  assert (Hk : k < length (sockets s)).
  { unfold socket_state in Hopen. apply lookup_lt_is_Some.
    destruct (sockets s !! k); [by eexists | done]. }
  (* the listener leaves *)
  set (removed := set_removal_checks (S (removal_checks s)) (set_listeners [] s)).
  assert (Hremoved : step s (RemoveListener l) = removed).
  { cbn [step]. unfold removeListener. by rewrite Hl, set_delete_singleton. }
  rewrite Hremoved.
  (* the check closes the socket *)
  assert (Hlate : step removed RemovalTimeout
                  = disconnect (set_removal_checks (removal_checks s) removed)).
  { cbn [step removal_checks set_listeners set_removal_checks removed].
    unfold removal_timeout. by rewrite bool_decide_eq_true_2. }
  rewrite Hlate.
  destruct (disconnect_spec (set_removal_checks (removal_checks s) removed) k
              Hws) as (Hw1 & Ht1 & Hso1 & Hl1 & Hsl1 & Hc1 & _ & Hsc1 & Hlc1).
  set (s1 := disconnect (set_removal_checks (removal_checks s) removed)) in *.
  cbn [sockets listeners statusListeners isConnecting status_calls
       listener_calls set_removal_checks set_listeners removed]
    in Hso1, Hl1, Hsl1, Hc1, Hsc1, Hlc1.
  assert (Hlen1 : length (sockets s1) = length (sockets s))
    by (rewrite Hso1; apply length_alter).
  assert (Hk1 : socket_state k s1 = Some CLOSING).
  { unfold socket_state in *. rewrite Hso1, list_lookup_alter_eq.
    destruct (sockets s !! k) as [sock|]; [|done]. cbn in *.
    by injection Hopen as ->. }
  clearbody s1.
  (* the new listener connects *)
  destruct (added_idle l' s1 Hl1 Hw1 (eq_trans Hc1 Hc))
    as (Hso2 & Hw2 & Hl2 & Hsl2 & Ht2 & Hc2 & Hsc2 & Hlc2).
  set (s2 := step s1 (AddListener l')) in *.
  assert (Hk2 : socket_state k s2 = Some CLOSING).
  { unfold socket_state in *. rewrite Hso2, lookup_app_l by lia. exact Hk1. }
  assert (Hn2 : socket_state (length (sockets s)) s2 = Some CONNECTING).
  { unfold socket_state. rewrite Hso2, lookup_app_r by lia.
    by rewrite Hlen1, Nat.sub_diag. }
  assert (Hlen2 : length (sockets s2) = S (length (sockets s)))
    by (rewrite Hso2, length_app, Hlen1; cbn; lia).
  clearbody s2.
  (* the old socket reports its close *)
  destruct (closed_spec k s2 (or_intror (or_intror Hk2)))
    as (Hw3 & Hc3 & Hso3 & Hsc3 & Ht3 & Hl3 & Hsl3 & _ & Hlc3).
  set (s3 := step s2 (Closed k)) in *.
  assert (Hn3 : socket_state (length (sockets s)) s3 = Some CONNECTING).
  { unfold socket_state in *. rewrite Hso3, list_lookup_alter_ne by lia.
    exact Hn2. }
  assert (Hlen3 : length (sockets s3) = S (length (sockets s)))
    by (rewrite Hso3, length_alter; exact Hlen2).
  assert (Htimer3 : reconnectTimer s3 = true).
  { rewrite Ht3, Hl2, bool_decide_eq_false_2 by done. apply orb_true_r. }
  clearbody s3.
  split; [exact Hw3|]. split; [exact Hn3|]. split; [exact Htimer3|].
  (* the new socket opens *)
  destruct (opened_spec (length (sockets s)) s3 Hn3)
    as (Hso4 & Hw4 & Hl4 & Hsl4 & Ht4 & Hc4 & _ & Hlc4 & Hsc4).
  set (s4 := step s3 (Opened (length (sockets s)))) in *.
  assert (Hn4 : socket_state (length (sockets s)) s4 = Some OPEN).
  { unfold socket_state in *. rewrite Hso4, list_lookup_alter_eq.
    destruct (sockets s3 !! length (sockets s)); [done | discriminate]. }
  assert (Hlen4 : length (sockets s4) = S (length (sockets s)))
    by (rewrite Hso4, length_alter; exact Hlen3).
  clearbody s4.
  split; [exact Hn4|]. split.
  { unfold isConnected, ws_readyState. by rewrite Hw4, Hw3. }
  split.
  { rewrite Hsc4, Hsc3, Hsl3, Hsl2, Hsl1, Hsc2, Hsc1. by rewrite <- app_assoc. }
  (* the reconnect creates one more *)
  assert (Hsome4 : listeners s4 <> []) by (rewrite Hl4, Hl3, Hl2; done).
  destruct (reconnect_timeout_creates s4 (eq_trans Ht4 Htimer3)
              (eq_trans Hw4 Hw3) Hc4 Hsome4)
    as (_ & Hw5 & Hn5' & _ & Hso5 & Hl5 & _ & _ & Hlc5).
  set (s5 := step s4 ReconnectTimeout) in *.
  rewrite Hlen4 in Hw5, Hn5'.
  assert (Hn5 : socket_state (length (sockets s)) s5 = Some OPEN).
  { unfold socket_state in *. rewrite Hso5, lookup_app_l by lia. exact Hn4. }
  clearbody s5.
  destruct (opened_spec (S (length (sockets s))) s5 Hn5')
    as (Hso6 & Hw6 & Hl6 & _ & _ & _ & _ & Hlc6 & _).
  set (s6 := step s5 (Opened (S (length (sockets s))))) in *.
  assert (Hn6 : socket_state (length (sockets s)) s6 = Some OPEN).
  { unfold socket_state in *. rewrite Hso6, list_lookup_alter_ne by lia.
    exact Hn5. }
  assert (Hm6 : socket_state (S (length (sockets s))) s6 = Some OPEN).
  { unfold socket_state in *. rewrite Hso6, list_lookup_alter_eq.
    destruct (sockets s5 !! S (length (sockets s))); [done | discriminate]. }
  clearbody s6.
  split; [by rewrite Hw6|]. split; [exact Hn6|]. split; [exact Hm6|].
  (* both deliver *)
  destruct (received_spec (length (sockets s)) d s6 Hn6) as (Hso7 & Hl7 & Hlc7).
  set (s7 := step s6 (Received (length (sockets s)) d)) in *.
  assert (Hm7 : socket_state (S (length (sockets s))) s7 = Some OPEN)
    by (unfold socket_state in *; by rewrite Hso7).
  clearbody s7.
  destruct (received_spec (S (length (sockets s))) d' s7 Hm7)
    as (_ & _ & Hlc8).
  rewrite Hlc8, Hl7, Hlc7, Hl6, Hl5, Hl4, Hl3, Hl2.
  rewrite Hlc6, Hlc5, Hlc4, Hlc3, Hlc2, Hlc1. cbn. by rewrite <- app_assoc.
Qed.

End LifecycleFacts.


Lemma close_schedules_one_reconnect_witness :
  SocketLifecycle.ws
    (SocketLifecycle.step
       (SocketLifecycle.step mounted (SocketLifecycle.Closed 0%nat))
       SocketLifecycle.ReconnectTimeout)
  = Some (length (SocketLifecycle.sockets mounted)).
Proof.
  destruct (close_schedules_one_reconnect 0%nat mounted (or_introl eq_refl))
    as (_ & _ & _ & _ & _ & Hlistening).
  destruct Hlistening as (_ & _ & Hws & _); [discriminate|].
  exact Hws.
Defined.

Lemma late_close_drops_the_new_socket_witness :
  SocketLifecycle.isConnected
    (SocketLifecycle.step
       (SocketLifecycle.run
          [SocketLifecycle.RemoveListener 1%nat; SocketLifecycle.RemovalTimeout;
           SocketLifecycle.AddListener 2%nat; SocketLifecycle.Closed 0%nat]
          mounted)
       (SocketLifecycle.Opened (length (SocketLifecycle.sockets mounted))))
  = false.
Proof.
  destruct (late_close_drops_the_new_socket 1%nat 2%nat 0%nat 5 6 mounted
              eq_refl eq_refl eq_refl eq_refl)
    as (_ & _ & _ & _ & Hconnected & _).
  exact Hconnected.
Defined.

(** The server starts the closing handshake of the socket in use: [ws]
    names a closing socket, the manager is not connected and [send]
    refuses the frame. *)
Lemma ws_may_name_a_closing_socket :
  let closing := SocketLifecycle.step mounted (SocketLifecycle.Closing 0%nat) in
  SocketLifecycle.ws closing = Some 0%nat
  /\ SocketLifecycle.ws_readyState closing = Some CLOSING
  /\ SocketLifecycle.isConnected closing = false
  /\ SocketLifecycle.send type_tag JNull closing
     = (closing, false).
Proof. cbn zeta. repeat split. Qed.

(** ** Strings, images and tool previews *)

Section TextFacts.

Implicit Types (s a b : jsstring) (sep : N).

Lemma split_clean sep a : sep ∉ a -> JSText.split sep a = [a].
Proof.
  induction a as [|c a IH]; [done|]. intros Hnot. cbn [JSText.split].
  apply not_elem_of_cons in Hnot as [Hne Hnot].
  rewrite (proj2 (N.eqb_neq c sep)) by congruence.
  by rewrite IH.
Qed.

Lemma split_app sep a b :
  sep ∉ a -> JSText.split sep (a ++ sep :: b) = a :: JSText.split sep b.
Proof.
  induction a as [|c a IH]; intros Hnot.
  - cbn [app JSText.split]. by rewrite N.eqb_refl.
  - apply not_elem_of_cons in Hnot as [Hne Hnot].
    cbn [app JSText.split]. rewrite (proj2 (N.eqb_neq c sep)) by congruence.
    by rewrite IH.
Qed.

Lemma lit_clean (c : N) (text : string) :
  bool_decide (c ∈ lit text) = false -> c ∉ lit text.
Proof. intros Hb Hin. by rewrite bool_decide_eq_true_2 in Hb. Qed.

(** X23. [processFile] undoes what ChatMessage's [imageSrc] builds: for
    an image type and a payload without commas, the data URL
    [data:<type>;base64,<payload>] is split into exactly that payload,
    the type is kept and the URL itself is the preview; a file whose
    type does not start with [image/], or whose read fails, gives no
    image. *)
Theorem processFile_inverts_imageSrc (file_type payload fresh_id : jsstring) :
  JSText.comma ∉ file_type ->
  JSText.comma ∉ payload ->
  let url := ImageInput.imageSrc file_type payload in
  let image := ImageInput.processFile file_type (Some url) fresh_id in
  (JSText.startsWith (lit "image/") file_type = false -> image = None)
  /\ (JSText.startsWith (lit "image/") file_type = true ->
      image
      = Some {| ImageInput.id := fresh_id;
                ImageInput.base64 := Some payload;
                ImageInput.mimeType := file_type;
                ImageInput.preview := url |})
  /\ ImageInput.processFile file_type None fresh_id = None.
Proof.
  intros Htype Hpayload. cbn zeta. unfold ImageInput.processFile.
  split; [by intros ->|]. split; [|by destruct (JSText.startsWith _ _)].
  intros ->. cbn [negb]. do 2 f_equal.
  unfold ImageInput.imageSrc.
  change (lit ";base64,") with (lit ";base64" ++ [JSText.comma]).
  rewrite <- (app_assoc (lit ";base64")). cbn [app].
  rewrite 2!app_assoc. rewrite split_app.
  - by rewrite split_clean.
  - rewrite !not_elem_of_app. split; [split|]; [|done|];
      by apply lit_clean.
Qed.

Lemma split_last sep a b :
  sep ∉ b -> last (JSText.split sep (a ++ sep :: b)) = Some b.
Proof.
  intros Hb.
  assert (Hshape : exists piece pieces,
            JSText.split sep (a ++ sep :: b) = piece :: pieces ++ [b]).
  { induction a as [|c a (piece & pieces & IH)].
    - exists [], []. cbn [app JSText.split]. rewrite N.eqb_refl.
      by rewrite split_clean.
    - cbn [app JSText.split]. rewrite IH. destruct (c =? sep).
      + by exists [], (piece :: pieces).
      + by exists (c :: piece), pieces. }
  destruct Hshape as (piece & pieces & ->).
  by rewrite app_comm_cons, last_snoc.
Qed.

Lemma truncateText_length (text : jsstring) (maxLength : nat) :
  (length (ToolUseCard.truncateText text maxLength) <= S maxLength)%nat.
Proof.
  unfold ToolUseCard.truncateText.
  destruct (length text <=? maxLength)%nat eqn:Hle.
  - apply Nat.leb_le in Hle. lia.
  - rewrite length_app, length_take. cbn. lia.
Qed.

(** X24. What a tool card shows for a file tool: for Read, Write and
    Edit with the path [dir/name] the preview is the file name alone,
    and the whole path when it ends in a slash; whatever the tool, the
    text shown is never empty, is the preview itself or its first 40
    code units followed by an ellipsis, and is at most 41 code units
    long. *)
Theorem file_tools_show_the_file_name (input : jsstring -> option jsstring)
    (URL_hostname : jsstring -> option jsstring)
    (toolName dir name : jsstring) :
  toolName = lit "Read" \/ toolName = lit "Write" \/ toolName = lit "Edit" ->
  input (lit "file_path") = Some (dir ++ JSText.slash :: name) ->
  JSText.slash ∉ name ->
  let inputPreview := ToolUseCard.formatToolInput input URL_hostname toolName in
  inputPreview = (if truthy name then name else dir ++ [JSText.slash])
  /\ forall anyTool shown,
       ToolUseCard.shown_preview input URL_hostname anyTool = Some shown ->
       let whole := ToolUseCard.formatToolInput input URL_hostname anyTool in
       truthy whole = true
       /\ (shown = whole \/ shown = take 40 whole ++ [0x2026])
       /\ (length shown <= 41)%nat.
Proof.
  intros Htool Hpath Hname. cbn zeta. split.
  - assert (Hformat : ToolUseCard.formatToolInput input URL_hostname toolName
                      = ToolUseCard.file_name
                          (ToolUseCard.field input "file_path")).
    { by destruct Htool as [->|[->| ->]]. }
    assert (Htruthy : truthy (dir ++ JSText.slash :: name) = true)
      by by destruct dir.
    assert (Hfield : ToolUseCard.field input "file_path"
                     = dir ++ JSText.slash :: name).
    { unfold ToolUseCard.field, JSText.or_string. rewrite Hpath.
      cbv [default from_option Datatypes.id]. by rewrite Htruthy. }
    rewrite Hformat, Hfield.
    unfold ToolUseCard.file_name, JSText.or_string.
    rewrite split_last by done. cbv [default from_option Datatypes.id].
    destruct name as [|c name]; [|done]. cbn [truthy].
    by rewrite cons_middle, app_nil_r.
  - intros anyTool shown. unfold ToolUseCard.shown_preview.
    destruct (truthy (ToolUseCard.formatToolInput input URL_hostname anyTool))
      eqn:Hwhole; [|done].
    intros [= <-]. split; [done|]. split; [|apply truncateText_length].
    unfold ToolUseCard.truncateText.
    destruct (length _ <=? 40)%nat; [by left | by right].
Qed.

End TextFacts.

Lemma processFile_inverts_imageSrc_witness :
  ImageInput.processFile (lit "image/png")
    (Some (ImageInput.imageSrc (lit "image/png") (lit "QUJD"))) (lit "7-x")
  = Some {| ImageInput.id := lit "7-x";
            ImageInput.base64 := Some (lit "QUJD");
            ImageInput.mimeType := lit "image/png";
            ImageInput.preview :=
              ImageInput.imageSrc (lit "image/png") (lit "QUJD") |}.
Proof.
  assert (Htype : JSText.comma ∉ lit "image/png")
    by (apply lit_clean; reflexivity).
  assert (Hpayload : JSText.comma ∉ lit "QUJD")
    by (apply lit_clean; reflexivity).
  destruct (processFile_inverts_imageSrc (lit "image/png") (lit "QUJD")
              (lit "7-x") Htype Hpayload) as (_ & Himage & _).
  apply Himage. reflexivity.
Defined.

Lemma file_tools_show_the_file_name_witness :
  ToolUseCard.formatToolInput read_main no_hostname (lit "Read")
  = lit "main.ts".
Proof.
  assert (Hname : JSText.slash ∉ lit "main.ts")
    by (apply lit_clean; reflexivity).
  destruct (file_tools_show_the_file_name read_main no_hostname (lit "Read")
              (lit "/src/app") (lit "main.ts") (or_introl eq_refl) eq_refl
              Hname) as (Hshown & _).
  exact Hshown.
Defined.

(** ** The chat list *)

Section GroupFacts.

Import Api ChatSearchDialog.

Variable Date_parse : jsstring -> option Z.
Variable today : Z.

Lemma group_index_bound (chat : Chat) : (group_index Date_parse today chat < 5)%nat.
Proof.
  unfold ChatSearchDialog.group_index.
  repeat (destruct (on_or_after _ _ _)); lia.
Qed.

Lemma foldl_push (all : list Chat) :
  foldl (push Date_parse today) empty_groups all
  = imap (fun i l =>
            {| label := l;
               chats := filter (fun chat => group_index Date_parse today chat = i) all |})
      labels.
Proof.
  induction all as [|chat all IH] using rev_ind; [done|].
  rewrite foldl_app. cbn [foldl]. rewrite IH. unfold push.
  pose proof (group_index_bound chat) as Hb.
  assert (Hfilter : forall i,
            filter (fun chat => group_index Date_parse today chat = i) (all ++ [chat])
            = filter (fun chat => group_index Date_parse today chat = i) all
              ++ (if decide (group_index Date_parse today chat = i) then [chat] else [])).
  { intros i. by rewrite filter_app. }
  unfold labels. cbn [imap compose].
  rewrite (Hfilter 0%nat), (Hfilter 1%nat), (Hfilter 2%nat), (Hfilter 3%nat),
    (Hfilter 4%nat).
  clear Hfilter.
  destruct (group_index Date_parse today chat) as [|[|[|[|[|n]]]]]; [..|lia];
    cbn; by rewrite ?app_nil_r.
Qed.

Lemma concat_nonempty (groups : list Group) :
  concat (chats <$> filter (fun g => (0 < length (chats g))%nat) groups)
  = concat (chats <$> groups).
Proof.
  induction groups as [|g groups IH]; [done|]. rewrite filter_cons.
  destruct (decide (0 < length (chats g))%nat) as [Hpos|Hzero].
  - cbn. by rewrite IH.
  - cbn. rewrite IH. destruct (chats g); [done | cbn in Hzero; lia].
Qed.

Lemma five_groups_permutation (all : list Chat) :
  filter (fun chat => group_index Date_parse today chat = 0%nat) all
  ++ filter (fun chat => group_index Date_parse today chat = 1%nat) all
  ++ filter (fun chat => group_index Date_parse today chat = 2%nat) all
  ++ filter (fun chat => group_index Date_parse today chat = 3%nat) all
  ++ filter (fun chat => group_index Date_parse today chat = 4%nat) all
  ≡ₚ all.
Proof.
  induction all as [|chat all IH]; [done|].
  rewrite !filter_cons. pose proof (group_index_bound chat) as Hb.
  destruct (group_index Date_parse today chat) as [|[|[|[|[|n]]]]]; [..|lia];
    cbn [decide_rel]; repeat (destruct (decide _); try discriminate; try lia);
    rewrite <- IH at 6; cbn [app];
    rewrite ?Permutation_middle; done.
Qed.

(** X25. [groupChatsByDate] partitions the chats: no group is empty,
    the labels come in the fixed order without repetition, each group
    holds the chats of its period in their original order, and together
    the groups hold every chat exactly once; a chat whose date cannot be
    read goes to the last group. *)
Theorem groups_partition_the_chats (all : list Chat) :
  let groups := groupChatsByDate Date_parse today all in
  Forall (fun g => chats g <> []) groups
  /\ sublist (label <$> groups) labels
  /\ NoDup (label <$> groups)
  /\ (forall g, g ∈ groups ->
        exists i, labels !! i = Some (label g)
                  /\ chats g
                     = filter (fun chat => group_index Date_parse today chat = i)
                         all)
  /\ concat (chats <$> groups) ≡ₚ all
  /\ (forall chat, Date_parse (updated_at chat) = None ->
        labels !! group_index Date_parse today chat = last labels).
Proof.
  cbn zeta. unfold groupChatsByDate. rewrite foldl_push.
  set (groups := imap _ labels).
  assert (Hlabels : label <$> groups = labels) by reflexivity.
  assert (Hsub : sublist
                   (label <$> filter (fun g => (0 < length (chats g))%nat) groups)
                   labels).
  { rewrite <- Hlabels. apply fmap_sublist, sublist_filter. }
  split; [|split; [exact Hsub|split; [|split; [|split]]]].
  - apply Forall_forall. intros g [Hpos _]%list_elem_of_filter.
    destruct (chats g); [cbn in Hpos; lia | done].
  - eapply sublist_NoDup; [|exact Hsub].
    unfold labels.
    repeat (apply NoDup_cons; split;
            [intros Hin;
             repeat (apply elem_of_cons in Hin as [Hin|Hin]; [discriminate|]);
             by apply elem_of_nil in Hin |]).
    apply NoDup_nil_2.
  - intros g [_ Hin]%list_elem_of_filter. unfold groups, labels in Hin.
    cbn [imap compose] in Hin.
    repeat (apply elem_of_cons in Hin as [->|Hin];
            [eexists; split; [|reflexivity]; reflexivity|]).
    by apply elem_of_nil in Hin.
  - rewrite concat_nonempty. unfold groups, labels. cbn [imap compose].
    cbn [fmap list_fmap concat chats]. rewrite app_nil_r.
    apply five_groups_permutation.
  - intros chat Hinvalid. unfold group_index, on_or_after.
    by rewrite Hinvalid.
Qed.

End GroupFacts.

Section ChatListFacts.

Import Api UseChatList.

Implicit Types (s prev : UseChatList.t) (e : UseChatList.event).

Lemma chatExists_spec (c : jsstring) s :
  chatExists c s = true <-> c ∈ (id <$> chats s).
Proof.
  unfold chatExists. induction (chats s) as [|chat l IH].
  - cbn. rewrite elem_of_nil. split; [done | tauto].
  - cbn [existsb fmap list_fmap]. rewrite elem_of_cons, orb_true_iff, IH.
    rewrite bool_decide_eq_true. split; intros [?|?]; auto.
Qed.

Lemma save_effect_saved s : saved_selection (save_effect s).
Proof.
  unfold save_effect, saved_selection.
  destruct (truthy_ref (currentChatId s)) eqn:Ht; cbn; by rewrite Ht.
Qed.

Lemma save_effect_fields s :
  chats (save_effect s) = chats s
  /\ currentChatId (save_effect s) = currentChatId s
  /\ isLoading (save_effect s) = isLoading s.
Proof. unfold save_effect. by destruct (truthy_ref (currentChatId s)). Qed.

Lemma selection_validate_settled s :
  saved_selection s -> settled (validate_effect s).
Proof.
  intros Hsaved. unfold validate_effect, settled.
  destruct (currentChatId s) as [c|] eqn:Hc.
  - destruct (isLoading s) eqn:Hl; cbn [negb andb].
    + rewrite Hl. by split.
    + destruct (truthy c) eqn:Ht.
      * destruct (chatExists c s) eqn:Hex; cbn [negb].
        -- split; [done|]. intros _ c'. rewrite Hc. intros [= <-] _.
           by apply chatExists_spec.
        -- split; [done|]. by intros _ c'.
      * split; [done|]. intros _ c'. rewrite Hc. intros [= <-]. congruence.
  - split; [done|]. intros _ c'. by rewrite Hc.
Qed.

Lemma selection_effects_settled prev s (chats_set : bool) :
  (currentChatId s = currentChatId prev -> saved_selection s) ->
  (chats_set = false -> isLoading s = isLoading prev ->
   currentChatId s = currentChatId prev ->
   isLoading s = false -> valid_selection s) ->
  settled (effects prev s chats_set).
Proof.
  intros Hsaved Hvalid. unfold effects.
  set (s1 := if bool_decide (currentChatId s = currentChatId prev) then s
             else save_effect s).
  assert (Hs1 : saved_selection s1).
  { unfold s1. case_bool_decide; [by apply Hsaved | apply save_effect_saved]. }
  assert (Hf1 : chats s1 = chats s /\ currentChatId s1 = currentChatId s
                /\ isLoading s1 = isLoading s).
  { unfold s1. case_bool_decide; [done | apply save_effect_fields]. }
  destruct Hf1 as (Hch & Hcur & Hld). clearbody s1.
  destruct chats_set; cbn [orb]; [by apply selection_validate_settled|].
  destruct (decide (isLoading s = isLoading prev)) as [Hl|Hl].
  - rewrite (bool_decide_eq_true_2 _ Hl). cbn [negb orb].
    destruct (decide (currentChatId s = currentChatId prev)) as [Hc|Hc].
    + rewrite (bool_decide_eq_true_2 _ Hc). cbn [negb].
      split; [done|]. rewrite Hld. intros Hloaded c. rewrite Hcur, Hch.
      by apply Hvalid.
    + rewrite (bool_decide_eq_false_2 _ Hc). cbn [negb].
      by apply selection_validate_settled.
  - rewrite (bool_decide_eq_false_2 _ Hl). cbn [negb orb].
    by apply selection_validate_settled.
Qed.

Lemma update_keeps e s :
  let '(s1, chats_set) := update s e in
  (currentChatId s1 = currentChatId s -> saved_selection s ->
   saved_selection s1)
  /\ (chats_set = false -> chats s1 = chats s).
Proof.
  unfold saved_selection.
  destruct e as [|chatList|message|chatId messageId| | | |newChat autoSelect
                 |chatId closed_over|chatId title|message]; cbn [update];
    try destruct autoSelect; try case_bool_decide;
    (split; [|try done]);
    cbn; intros Heq Hs;
    first [exact Hs | rewrite <- Heq in Hs; exact Hs | done].
Qed.

Lemma selection_step_settled s e : settled s -> settled (step s e).
Proof.
  intros [Hsaved Hvalid]. unfold step.
  pose proof (update_keeps e s) as Hkeeps.
  destruct (update s e) as [s1 chats_set]. destruct Hkeeps as [Hk1 Hk2].
  assert (H2 : settled (effects s s1 chats_set)).
  { apply selection_effects_settled.
    - intros Hcur. by apply Hk1.
    - intros Hflag Hl Hcur Hloaded c. rewrite Hcur, (Hk2 Hflag).
      apply Hvalid. congruence. }
  destruct H2 as [H2s H2v]. apply selection_effects_settled; [done|].
  intros _ _ _. exact H2v.
Qed.

Lemma selection_mount_settled (saved : option jsstring) : settled (mount saved).
Proof.
  unfold mount.
  set (s := setError None (setIsLoading true (save_effect (first_render saved)))).
  assert (Hsaved : saved_selection s)
    by exact (save_effect_saved (first_render saved)).
  assert (Hload : isLoading s = true) by reflexivity.
  assert (Hv : validate_effect s = s).
  { unfold validate_effect. destruct (currentChatId s); [|done].
    by rewrite Hload. }
  rewrite Hv. apply selection_effects_settled; [done|]. intros _ _ _ Hl. congruence.
Qed.

(** X26. Between renders the hook is settled, whatever was saved in
    [localStorage] and whatever the callbacks and the server do:
    [localStorage] holds exactly the selected chat (nothing when none is
    selected), and once the list is loaded the selected chat is one of
    the list. *)
Theorem selection_is_saved_and_valid (saved : option jsstring)
    (es : list UseChatList.event) :
  let s := run saved es in
  saved_selection s /\ (isLoading s = false -> valid_selection s).
Proof.
  cbn zeta. unfold run.
  induction es as [|e es IH] using rev_ind; [apply selection_mount_settled|].
  rewrite foldl_app. cbn [foldl]. by apply selection_step_settled.
Qed.

(** X27. [deleteChat] compares the deleted id with the [currentChatId]
    it closed over when it was called.  With the list loaded and chat
    [B] selected, deleting another chat [A] keeps the selection when the
    closure saw [B]; when the closure still holds [A], selected at the
    time of the call, the selection of [B] is cleared although [B] is
    still in the list.  Either way [A] leaves the list. *)
Theorem stale_delete_clears_selection (A B : jsstring) s :
  currentChatId s = Some B ->
  A <> B ->
  truthy B = true ->
  isLoading s = false ->
  B ∈ (id <$> chats s) ->
  let fresh := step s (Deleted A (Some B)) in
  let stale := step s (Deleted A (Some A)) in
  currentChatId fresh = Some B
  /\ stored fresh = stored s
  /\ chats fresh = filter (fun chat => id chat <> A) (chats s)
  /\ currentChatId stale = None
  /\ stored stale = None
  /\ chats stale = filter (fun chat => id chat <> A) (chats s)
  /\ B ∈ (id <$> chats stale).
Proof.
  intros Hcur Hne Ht Hl HB. cbn zeta.
  assert (HB' : B ∈ (id <$> filter (fun chat => id chat <> A) (chats s))).
  { apply list_elem_of_fmap in HB as (chat & -> & Hin).
    apply list_elem_of_fmap. exists chat. split; [done|].
    apply list_elem_of_filter. split; [congruence | done]. }
  assert (Hfresh : step s (Deleted A (Some B))
                   = setChats (filter (fun chat => id chat <> A)) s).
  { unfold step. cbn [update].
    rewrite (bool_decide_eq_false_2 (Some B = Some A)) by congruence.
    set (s1 := setChats (filter (fun chat => id chat <> A)) s).
    assert (Hv : validate_effect s1 = s1).
    { unfold validate_effect. cbn [s1 currentChatId setChats isLoading].
      rewrite Hcur, Hl, Ht. cbn [negb andb].
      by rewrite (proj2 (chatExists_spec B s1)). }
    assert (He : effects s s1 true = s1).
    { unfold effects. cbn [s1 currentChatId setChats].
      rewrite !bool_decide_eq_true_2 by done. cbn [orb]. exact Hv. }
    rewrite He. unfold effects.
    by rewrite !bool_decide_eq_true_2. }
  rewrite Hfresh. cbn [currentChatId stored chats setChats].
  split; [exact Hcur|]. split; [reflexivity|]. split; [reflexivity|].
  assert (Hstale : step s (Deleted A (Some A))
                   = save_effect
                       (setCurrentChatId None
                          (setChats (filter (fun chat => id chat <> A)) s))).
  { unfold step. cbn [update]. rewrite bool_decide_eq_true_2 by done.
    unfold effects. cbn [currentChatId setChats setCurrentChatId orb].
    rewrite Hcur. rewrite (bool_decide_eq_false_2 (None = Some B)) by done.
    cbn [negb orb]. unfold validate_effect, save_effect.
    cbn [currentChatId setChats setCurrentChatId set_stored truthy_ref].
    rewrite !bool_decide_eq_true_2 by done. by cbn [negb orb]. }
  rewrite Hstale. unfold save_effect. cbn. done.
Qed.

End ChatListFacts.

Lemma stale_delete_clears_selection_witness :
  UseChatList.currentChatId
    (UseChatList.step two_chats
       (UseChatList.Deleted (lit "chat-a") (Some (lit "chat-a"))))
  = None.
Proof.
  assert (Hne : lit "chat-a" <> lit "chat-b") by discriminate.
  assert (Hin : lit "chat-b" ∈ (Api.id <$> UseChatList.chats two_chats)).
  { apply list_elem_of_fmap. eexists. split; [|apply elem_of_cons; right;
      apply elem_of_cons; left; reflexivity]. reflexivity. }
  destruct (stale_delete_clears_selection (lit "chat-a") (lit "chat-b")
              two_chats eq_refl Hne eq_refl eq_refl Hin)
    as (_ & _ & _ & Hcleared & _).
  exact Hcleared.
Defined.

(** ** The connection indicator *)

Section IndicatorFacts.

Import ConnectionManager.

Local Open Scope nat_scope.

Implicit Types (s : ConnectionManager.t) (e : ConnectionManager.event)
  (k l : nat).

Lemma indicator_shown_call l l' (connected : bool) s :
  shown l (call l' connected s)
  = if bool_decide (l' = l) then Some connected else shown l s.
Proof.
  unfold shown. cbn [listener_calls call]. rewrite omap_app.
  cbn [omap list_omap]. case_bool_decide.
  - by rewrite last_snoc.
  - by rewrite app_nil_r.
Qed.

Lemma indicator_notify_fold (connected : bool) (ls : list nat) s :
  let s' := foldl (fun s l => call l connected s) s ls in
  sockets s' = sockets s /\ ws s' = ws s /\ listeners s' = listeners s
  /\ reconnectTimer s' = reconnectTimer s
  /\ isConnecting s' = isConnecting s
  /\ _isConnected s' = _isConnected s
  /\ removal_checks s' = removal_checks s
  /\ forall l, shown l s' = if bool_decide (l ∈ ls) then Some connected
                            else shown l s.
Proof.
  revert s. induction ls as [|l0 ls IH]; intros s.
  - cbn. repeat split; done.
  - cbn [foldl]. destruct (IH (call l0 connected s))
      as (-> & -> & -> & -> & -> & -> & -> & Hshown).
    repeat (split; [done|]). intros l. rewrite Hshown, indicator_shown_call.
    destruct (decide (l ∈ ls)) as [Hin|Hin].
    + rewrite !bool_decide_eq_true_2; [done | by apply elem_of_cons; right
                                       | done].
    + rewrite (bool_decide_eq_false_2 _ Hin).
      destruct (decide (l0 = l)) as [->|Hne].
      * rewrite !bool_decide_eq_true_2; [done | by apply elem_of_cons; left
                                         | done].
      * rewrite !bool_decide_eq_false_2; [done | | done].
        intros [?|?]%elem_of_cons; congruence.
Qed.

Lemma indicator_notifyListeners_spec (connected : bool) s :
  _isConnected s = connected ->
  let s' := notifyListeners connected s in
  sockets s' = sockets s /\ ws s' = ws s /\ listeners s' = listeners s
  /\ reconnectTimer s' = reconnectTimer s
  /\ isConnecting s' = isConnecting s
  /\ _isConnected s' = connected
  /\ removal_checks s' = removal_checks s
  /\ indicators_agree s'.
Proof.
  intros Hflag. cbn zeta. unfold notifyListeners.
  destruct (indicator_notify_fold connected (listeners s) s)
    as (Hso & Hw & Hl & Ht & Hc & Hf & Hr & Hshown).
  repeat (split; [congruence|]). intros l Hin. rewrite Hl in Hin.
  rewrite Hshown, bool_decide_eq_true_2 by done. congruence.
Qed.

Lemma indicator_connect_fields s :
  listeners (connect s) = listeners s
  /\ _isConnected (connect s) = _isConnected s
  /\ listener_calls (connect s) = listener_calls s
  /\ forall k r, sockets s !! k = Some r -> sockets (connect s) !! k = Some r.
Proof.
  unfold connect. repeat case_bool_decide; try done.
  destruct (isConnecting s); [done|]. cbn. repeat (split; [done|]).
  intros k r Hk. by apply lookup_app_l_Some.
Qed.

Lemma indicator_connect_keeps s :
  indicators_agree s -> (_isConnected s = true -> some_socket_opened s) ->
  indicators_agree (connect s)
  /\ (_isConnected (connect s) = true -> some_socket_opened (connect s)).
Proof.
  intros Hagree Hopen. destruct (indicator_connect_fields s) as (Hl & Hf & Hc & Hso).
  split.
  - intros l. unfold shown. rewrite Hl, Hf, Hc. apply Hagree.
  - rewrite Hf. intros [k Hk]%Hopen. exists k.
    destruct Hk as [Hk|Hk]; [left | right]; by apply Hso.
Qed.

Lemma indicator_disconnect_keeps s :
  indicators_agree s -> (_isConnected s = true -> some_socket_opened s) ->
  indicators_agree (disconnect s)
  /\ (_isConnected (disconnect s) = true -> some_socket_opened (disconnect s)).
Proof.
  intros Hagree Hopen. unfold disconnect.
  set (s1 := if reconnectTimer s then set_reconnectTimer false s else s).
  assert (H1 : listeners s1 = listeners s /\ _isConnected s1 = _isConnected s
               /\ listener_calls s1 = listener_calls s
               /\ sockets s1 = sockets s).
  { unfold s1. by destruct (reconnectTimer s). }
  destruct H1 as (Hl & Hf & Hc & Hso). clearbody s1.
  destruct (ws s1) as [k|]; cbn.
  - split.
    + intros l. unfold shown. cbn. rewrite Hl, Hf, Hc. apply Hagree.
    + rewrite Hf. intros [k' Hk']%Hopen. exists k'. unfold close.
      cbn [sockets set_ws set_sockets]. rewrite Hso.
      destruct (decide (k = k')) as [->|Hne].
      * rewrite list_lookup_alter_eq.
        destruct Hk' as [->| ->]; cbn; auto.
      * by rewrite list_lookup_alter_ne.
  - split.
    + intros l. unfold shown. rewrite Hl, Hf, Hc. apply Hagree.
    + rewrite Hf. intros [k' Hk']%Hopen. exists k'. by rewrite Hso.
Qed.

Lemma indicator_scheduleReconnect_keeps s :
  indicators_agree s -> (_isConnected s = true -> some_socket_opened s) ->
  indicators_agree (scheduleReconnect s)
  /\ (_isConnected (scheduleReconnect s) = true ->
      some_socket_opened (scheduleReconnect s)).
Proof.
  intros Hagree Hopen. unfold scheduleReconnect.
  destruct (reconnectTimer s); [done|]. by case_bool_decide.
Qed.

Lemma indicator_step_keeps s e :
  indicators_agree s -> (_isConnected s = true -> some_socket_opened s) ->
  indicators_agree (step s e)
  /\ (_isConnected (step s e) = true -> some_socket_opened (step s e)).
Proof.
  intros Hagree Hopen. destruct e as [l|l| | |k|k|k|k]; cbn [step].
  - unfold addListener.
    set (s1 := call l _ (set_listeners _ s)).
    assert (H1 : indicators_agree s1
                 /\ (_isConnected s1 = true -> some_socket_opened s1)).
    { split; [|exact Hopen]. intros l'. unfold s1. rewrite indicator_shown_call.
      cbn [listeners call set_listeners _isConnected].
      unfold SocketLifecycle.set_add. intros Hin.
      destruct (decide (l = l')) as [->|Hne];
        [by rewrite bool_decide_eq_true_2|].
      rewrite (bool_decide_eq_false_2 _ Hne).
      change (shown l' s = Some (_isConnected s)). apply Hagree.
      destruct (bool_decide (l ∈ listeners s)); [done|].
      apply elem_of_app in Hin as [Hin|Hin%list_elem_of_singleton];
        [done | congruence]. }
    clearbody s1. destruct H1 as [H1a H1b].
    case_bool_decide; [|done]. by apply indicator_connect_keeps.
  - split; [|exact Hopen]. intros l'. unfold removeListener, shown. cbn.
    unfold SocketLifecycle.set_delete. intros [_ Hin]%list_elem_of_filter.
    by apply Hagree.
  - destruct (removal_checks s) as [|n]; [done|]. unfold removal_timeout.
    case_bool_decide; [|done]. by apply indicator_disconnect_keeps.
  - destruct (reconnectTimer s); [|done]. unfold reconnect_timeout.
    cbn [listeners set_reconnectTimer]. case_bool_decide; [|done].
    by apply indicator_connect_keeps.
  - case_bool_decide as Hk; [|done]. unfold onopen.
    destruct (indicator_notifyListeners_spec true
                (set_isConnected true
                   (set_isConnecting false (set_readyState k OPEN s)))
                eq_refl) as (Hso & _ & _ & _ & _ & Hf & _ & Hag).
    split; [exact Hag|]. intros _. exists k. left. rewrite Hso. cbn.
    by rewrite list_lookup_alter_eq, Hk.
  - assert (Herr : indicators_agree (onerror s)
                   /\ (_isConnected (onerror s) = true ->
                       some_socket_opened (onerror s))).
    { unfold onerror.
      destruct (indicator_notifyListeners_spec false
                  (set_isConnected false (set_isConnecting false s)) eq_refl)
        as (_ & _ & _ & _ & _ & Hf & _ & Hag).
      split; [exact Hag|]. by rewrite Hf. }
    destruct (sockets s !! k) as [[]|]; done.
  - assert (Hclose : indicators_agree (onclose (set_readyState k CLOSED s))
                     /\ (_isConnected (onclose (set_readyState k CLOSED s))
                         = true ->
                         some_socket_opened
                           (onclose (set_readyState k CLOSED s)))).
    { unfold onclose. apply indicator_scheduleReconnect_keeps.
      - by destruct (indicator_notifyListeners_spec false
                       (set_ws None
                          (set_isConnected false
                             (set_isConnecting false
                                (set_readyState k CLOSED s)))) eq_refl)
          as (_ & _ & _ & _ & _ & _ & _ & Hag).
      - destruct (indicator_notifyListeners_spec false
                    (set_ws None
                       (set_isConnected false
                          (set_isConnecting false
                             (set_readyState k CLOSED s)))) eq_refl)
          as (_ & _ & _ & _ & _ & Hf & _ & _).
        by rewrite Hf. }
    destruct (sockets s !! k) as [[]|]; done.
  - case_bool_decide as Hk; [|done]. split; [exact Hagree|].
    intros Hc. destruct (Hopen Hc) as [k' Hk']. exists k'. cbn.
    destruct (decide (k = k')) as [->|Hne].
    + right. by rewrite list_lookup_alter_eq, Hk.
    + by rewrite list_lookup_alter_ne.
Qed.

(** X28. Whatever happens to the connection manager, every mounted
    indicator shows exactly the manager's flag, and the flag says
    connected only while some socket has opened and has not yet
    reported its close. *)
Theorem indicators_show_the_flag (es : list ConnectionManager.event) :
  let s := run es initial in
  indicators_agree s
  /\ (isConnected s = true -> some_socket_opened s).
Proof.
  cbn zeta. unfold run, isConnected.
  induction es as [|e es [IH1 IH2]] using rev_ind.
  - split; [by intros l Hin%elem_of_nil | done].
  - rewrite foldl_app. cbn [foldl]. by apply indicator_step_keeps.
Qed.

Lemma manager_disconnect_spec s k :
  ws s = Some k ->
  ws (disconnect s) = None
  /\ sockets (disconnect s)
     = alter (fun r => match r with
                       | CONNECTING | OPEN => CLOSING
                       | CLOSING | CLOSED => r
                       end) k (sockets s)
  /\ listeners (disconnect s) = listeners s
  /\ isConnecting (disconnect s) = isConnecting s
  /\ _isConnected (disconnect s) = _isConnected s
  /\ listener_calls (disconnect s) = listener_calls s.
Proof.
  intros Hws. unfold disconnect, close.
  destruct (reconnectTimer s); cbn; rewrite Hws; by cbn.
Qed.

Lemma manager_added_idle l s :
  listeners s = [] -> ws s = None -> isConnecting s = false ->
  let added := step s (AddListener l) in
  sockets added = sockets s ++ [CONNECTING]
  /\ ws added = Some (length (sockets s))
  /\ listeners added = [l]
  /\ _isConnected added = _isConnected s
  /\ shown l added = Some (_isConnected s).
Proof.
  intros Hl Hws Hc. cbn zeta. cbn [step]. unfold addListener.
  rewrite Hl, set_add_nil. cbn [listeners call set_listeners].
  rewrite bool_decide_eq_true_2 by done.
  unfold connect, ws_readyState. cbn [ws call set_listeners isConnecting].
  rewrite Hws, Hc, !bool_decide_eq_false_2 by done.
  cbn. repeat (split; [done|]).
  unfold shown. cbn. rewrite omap_app. cbn.
  by rewrite bool_decide_eq_true_2, last_snoc.
Qed.

Lemma manager_closed_spec k s :
  (sockets s !! k = Some OPEN \/ sockets s !! k = Some CONNECTING
   \/ sockets s !! k = Some CLOSING) ->
  let closed := step s (Closed k) in
  ws closed = None
  /\ _isConnected closed = false
  /\ sockets closed = alter (fun _ => CLOSED) k (sockets s)
  /\ listeners closed = listeners s
  /\ isConnecting closed = false
  /\ indicators_agree closed.
Proof.
  intros Hstate. cbn zeta.
  set (s1 := set_ws None
               (set_isConnected false
                  (set_isConnecting false (set_readyState k CLOSED s)))).
  assert (Hclosed : step s (Closed k)
                    = scheduleReconnect (notifyListeners false s1)).
  { cbn [step]. by destruct Hstate as [->|[->| ->]]. }
  rewrite Hclosed.
  destruct (indicator_notifyListeners_spec false s1 eq_refl)
    as (Hso & Hw & Hl & _ & Hc & Hf & _ & Hag).
  set (s2 := notifyListeners false s1) in *. clearbody s2.
  unfold scheduleReconnect. destruct (reconnectTimer s2);
    [|case_bool_decide]; by rewrite ?Hso, ?Hw, ?Hl, ?Hc, ?Hf.
Qed.

Lemma manager_opened_spec k s :
  sockets s !! k = Some CONNECTING ->
  let opened := step s (Opened k) in
  ws opened = ws s
  /\ _isConnected opened = true
  /\ sockets opened = alter (fun _ => OPEN) k (sockets s)
  /\ listeners opened = listeners s
  /\ indicators_agree opened.
Proof.
  intros Hstate. cbn zeta. cbn [step].
  rewrite bool_decide_eq_true_2 by done. unfold onopen.
  by destruct (indicator_notifyListeners_spec true
                 (set_isConnected true
                    (set_isConnecting false (set_readyState k OPEN s)))
                 eq_refl) as (-> & -> & -> & _ & _ & -> & _ & Hag).
Qed.

(** X29. The flag outlives its socket.  When the last listener has left
    and the 100 ms check has closed the open socket, the manager still
    reports connected; a listener that arrives now is told so, although
    the only other socket is the one being connected for it.  The close
    event of the old socket then turns the indicator off and empties
    [ws], and when the new socket opens the indicator says connected
    while [ws] is still empty. *)
Theorem flag_outlives_the_socket l l' k s :
  ws s = Some k ->
  sockets s !! k = Some OPEN ->
  _isConnected s = true ->
  listeners s = [l] ->
  isConnecting s = false ->
  let n := length (sockets s) in
  let idle := run [RemoveListener l; RemovalTimeout] s in
  let again := step idle (AddListener l') in
  let closed := step again (Closed k) in
  let opened := step closed (Opened n) in
  ws idle = None
  /\ sockets idle !! k = Some CLOSING
  /\ isConnected idle = true
  /\ shown l' again = Some true
  /\ sockets again !! n = Some CONNECTING
  /\ isConnected closed = false
  /\ shown l' closed = Some false
  /\ ws closed = None
  /\ sockets closed !! n = Some CONNECTING
  /\ shown l' opened = Some true
  /\ isConnected opened = true
  /\ ws opened = None.
Proof.
  intros Hws Hopen Hflag Hl Hc. cbn zeta. unfold run, isConnected.
  cbn [foldl].
  assert (Hk : k < length (sockets s)) by (by eapply lookup_lt_Some).
  set (removed := set_removal_checks (S (removal_checks s)) (set_listeners [] s)).
  assert (Hremoved : step s (RemoveListener l) = removed).
  { cbn [step]. unfold removeListener. by rewrite Hl, set_delete_singleton. }
  rewrite Hremoved.
  assert (Hlate : step removed RemovalTimeout
                  = disconnect (set_removal_checks (removal_checks s) removed)).
  { cbn [step removal_checks set_listeners set_removal_checks removed].
    unfold removal_timeout. by rewrite bool_decide_eq_true_2. }
  rewrite Hlate.
  destruct (manager_disconnect_spec
              (set_removal_checks (removal_checks s) removed) k Hws)
    as (Hw1 & Hso1 & Hl1 & Hc1 & Hf1 & _).
  set (s1 := disconnect (set_removal_checks (removal_checks s) removed)) in *.
  cbn [sockets listeners isConnecting _isConnected set_removal_checks
       set_listeners removed] in Hso1, Hl1, Hc1, Hf1.
  assert (Hlen1 : length (sockets s1) = length (sockets s))
    by (rewrite Hso1; apply length_alter).
  assert (Hk1 : sockets s1 !! k = Some CLOSING)
    by (by rewrite Hso1, list_lookup_alter_eq, Hopen).
  clearbody s1.
  split; [exact Hw1|]. split; [exact Hk1|]. split; [congruence|].
  destruct (manager_added_idle l' s1 Hl1 Hw1 (eq_trans Hc1 Hc))
    as (Hso2 & Hw2 & Hl2 & Hf2 & Hshown2).
  set (s2 := step s1 (AddListener l')) in *.
  assert (Hk2 : sockets s2 !! k = Some CLOSING)
    by (rewrite Hso2, lookup_app_l by lia; exact Hk1).
  assert (Hn2 : sockets s2 !! length (sockets s) = Some CONNECTING).
  { rewrite Hso2, lookup_app_r by lia. by rewrite Hlen1, Nat.sub_diag. }
  clearbody s2.
  split; [by rewrite Hshown2, Hf1, Hflag|]. split; [exact Hn2|].
  destruct (manager_closed_spec k s2 (or_intror (or_intror Hk2)))
    as (Hw3 & Hf3 & Hso3 & Hl3 & _ & Hag3).
  set (s3 := step s2 (Closed k)) in *.
  assert (Hn3 : sockets s3 !! length (sockets s) = Some CONNECTING)
    by (rewrite Hso3, list_lookup_alter_ne by lia; exact Hn2).
  assert (Hin3 : l' ∈ listeners s3)
    by (rewrite Hl3, Hl2; by apply list_elem_of_singleton).
  pose proof (Hag3 l' Hin3) as Hshown3. rewrite Hf3 in Hshown3.
  clearbody s3.
  split; [exact Hf3|]. split; [exact Hshown3|]. split; [exact Hw3|].
  split; [exact Hn3|].
  destruct (manager_opened_spec (length (sockets s)) s3 Hn3)
    as (Hw4 & Hf4 & _ & Hl4 & Hag4).
  set (s4 := step s3 (Opened (length (sockets s)))) in *.
  assert (Hin4 : l' ∈ listeners s4) by by rewrite Hl4.
  pose proof (Hag4 l' Hin4) as Hshown4. rewrite Hf4 in Hshown4.
  clearbody s4.
  split; [exact Hshown4|]. split; [exact Hf4|]. by rewrite Hw4.
Qed.

End IndicatorFacts.

Lemma flag_outlives_the_socket_witness :
  ConnectionManager.isConnected
    (ConnectionManager.run
       [ConnectionManager.RemoveListener 1%nat; ConnectionManager.RemovalTimeout]
       indicator_on)
  = true.
Proof.
  destruct (flag_outlives_the_socket 1%nat 2%nat 0%nat indicator_on eq_refl
              eq_refl eq_refl eq_refl eq_refl) as (_ & _ & Hflag & _).
  exact Hflag.
Defined.
